(** * Forms Analyzer Pro (NIGO): a shallow embedding of [form_analyzer.py]

    The development follows the layout of the Python module: character and
    string primitives, a model of the regular expressions the module hands
    to [re], the detectors, the two scoring functions and [analyze_one].

    Conventions.
    - Python [str] is [string]; a character is a code point in
      U+0000..U+00FF (the 8 bits of [ascii]), classified as Python's
      [str.isspace], [str.lower] and the [re] classes classify that range.
    - Python [float] values are modelled by exact rationals ([Q]); the
      only non-integer constant is [0.3], read as 3/10.
    - Counts obtained with [len] are [nat].
    - Python [dict] values with string keys are [gmap string _] where only
      lookups matter and association lists where iteration order matters.
    - Code that may raise returns [exc A], the sum of a message and a value.
*)

From Stdlib Require Import ZArith QArith Qminmax Qabs Qround Lqa Lia Ascii String List Bool Sorted.
From stdpp Require Import gmap strings list pretty.


(* ================================================================== *)
(** * Characters and strings as Python sees them *)
(* ================================================================== *)

Module Chars.

Definition code (c : ascii) : N := N_of_ascii c.

Definition in_range (lo hi : N) (c : ascii) : bool :=
  ((lo <=? code c) && (code c <=? hi))%N.

(** [str.isspace] and the class [\s] on U+0000..U+00FF. *)
Definition is_space (c : ascii) : bool :=
  in_range 9 13 c || in_range 28 32 c || in_range 133 133 c || in_range 160 160 c.

(** the class [\d] *)
Definition is_digit (c : ascii) : bool := in_range 48 57 c.

(** the class [\w] *)
Definition is_word (c : ascii) : bool :=
  in_range 48 57 c || in_range 65 90 c || in_range 95 95 c || in_range 97 122 c
  || in_range 170 170 c || in_range 178 179 c || in_range 181 181 c
  || in_range 185 186 c || in_range 188 190 c || in_range 192 214 c
  || in_range 216 246 c || in_range 248 255 c.

(** characters that [str.lower] changes *)
Definition is_upper (c : ascii) : bool :=
  in_range 65 90 c || in_range 192 214 c || in_range 216 222 c.

Definition lower_char (c : ascii) : ascii :=
  if is_upper c then ascii_of_N (code c + 32) else c.

(** simple upper-case mapping, where the image stays below U+0100 *)
Definition upper_char (c : ascii) : ascii :=
  if in_range 97 122 c || in_range 224 246 c || in_range 248 254 c
  then ascii_of_N (code c - 32) else c.

Definition newline : ascii := ascii_of_N 10.

End Chars.
Export Chars.

Module Str.

Abbreviation chars := list_ascii_of_string.
Abbreviation of_chars := string_of_list_ascii.

(** [s.lower()] and [s.upper()]; the latter is only applied to matches of
    [FORM_TOKEN], whose letters are ASCII *)
Definition lower (s : string) : string := of_chars (map lower_char (chars s)).
Definition upper (s : string) : string := of_chars (map upper_char (chars s)).

Definition len (s : string) : nat := length (chars s).

(** [s.strip()] *)
Fixpoint lstrip_chars (l : list ascii) : list ascii :=
  match l with
  | c :: t => if is_space c then lstrip_chars t else l
  | [] => []
  end.
Definition strip_chars (l : list ascii) : list ascii :=
  rev (lstrip_chars (rev (lstrip_chars l))).
Definition strip (s : string) : string := of_chars (strip_chars (chars s)).

(** [s[:n]] and [s[i:j]] for [0 <= i], [0 <= j] *)
Definition slice_to (n : nat) (s : string) : string := of_chars (take n (chars s)).
Definition slice (i j : nat) (s : string) : string :=
  of_chars (take (j - i) (drop i (chars s))).

(** [sub in s] *)
Fixpoint starts_with (p l : list ascii) : bool :=
  match p, l with
  | [], _ => true
  | a :: p', b :: l' => Ascii.eqb a b && starts_with p' l'
  | _ :: _, [] => false
  end.
Fixpoint contains_chars (p l : list ascii) : bool :=
  starts_with p l ||
  match l with
  | [] => false
  | _ :: t => contains_chars p t
  end.
Definition contains (sub s : string) : bool := contains_chars (chars sub) (chars s).

(** [sep.join(parts)] *)
Fixpoint join (sep : string) (parts : list string) : string :=
  match parts with
  | [] => ""
  | [p] => p
  | p :: rest => p +:+ sep +:+ join sep rest
  end.

(** [s.split(".")]: always at least one piece *)
Fixpoint split_on_go (d : ascii) (cur : list ascii) (l : list ascii) : list string :=
  match l with
  | [] => [of_chars (rev cur)]
  | c :: t => if Ascii.eqb c d then of_chars (rev cur) :: split_on_go d [] t
              else split_on_go d (c :: cur) t
  end.
Definition split_on (d : ascii) (s : string) : list string := split_on_go d [] (chars s).

(** [s.split()]: maximal runs of non-space characters *)
Fixpoint split_ws_go (cur : list ascii) (l : list ascii) : list string :=
  match l with
  | [] => match cur with [] => [] | _ => [of_chars (rev cur)] end
  | c :: t =>
      if is_space c
      then match cur with
           | [] => split_ws_go [] t
           | _ => of_chars (rev cur) :: split_ws_go [] t
           end
      else split_ws_go (c :: cur) t
  end.
Definition split_ws (s : string) : list string := split_ws_go [] (chars s).

Definition eqb (a b : string) : bool := bool_decide (a = b).
Definition is_empty (s : string) : bool := bool_decide (s = "").

End Str.

(* ================================================================== *)
(** * The regular expressions of the module

    A backtracking matcher in the style of [re]: [run r st] lists, in the
    order in which [re] would try them, every state in which a match of
    [r] started in [st] can end.  The head of the list is the match that
    [re] reports.  Patterns are kept as the strings of the source and
    compiled by [compile]. *)
(* ================================================================== *)

Module Re.

Inductive regex : Type :=
| Eps
| Cls (p : ascii → bool)
| Seq (a b : regex)
| Alt (a b : regex)
| Rep (greedy : bool) (lo : nat) (hi : option nat) (a : regex)
| WordB
| Bos.

(** a position in the subject: the character before it and what is left *)
Record mstate : Type := MState { prev : option ascii; rest : list ascii }.

Definition word_before (s : mstate) : bool :=
  match prev s with Some c => is_word c | None => false end.
Definition word_after (s : mstate) : bool :=
  match rest s with c :: _ => is_word c | [] => false end.
Definition at_boundary (s : mstate) : bool := xorb (word_before s) (word_after s).

Definition hi_allows (hi : option nat) : bool :=
  match hi with Some 0 => false | _ => true end.

(** [a{lo,hi}]: greedy tries one more round first, lazy tries to stop first *)
Fixpoint rep (step : mstate → list mstate) (greedy : bool)
    (lo : nat) (hi : option nat) (fuel : nat) (s : mstate) : list mstate :=
  let stop := if Nat.eqb lo 0 then [s] else [] in
  match fuel with
  | 0 => stop
  | S fuel' =>
      let more :=
        if hi_allows hi then
          flat_map (fun s' =>
            if Nat.ltb (length (rest s')) (length (rest s))
            then rep step greedy (Nat.pred lo) (Nat.pred <$> hi) fuel' s'
            else []) (step s)
        else [] in
      if greedy then more ++ stop else stop ++ more
  end.

Fixpoint run (r : regex) (s : mstate) : list mstate :=
  match r with
  | Eps => [s]
  | Cls p =>
      match rest s with
      | c :: t => if p c then [MState (Some c) t] else []
      | [] => []
      end
  | Seq a b => flat_map (run b) (run a s)
  | Alt a b => run a s ++ run b s
  | Rep g lo hi a => rep (run a) g lo hi (S (length (rest s))) s
  | WordB => if at_boundary s then [s] else []
  | Bos => match prev s with None => [s] | Some _ => [] end
  end.

(** length of the match [re] finds at this position, if any *)
Definition match_at (r : regex) (p : option ascii) (l : list ascii) : option nat :=
  match run r (MState p l) with
  | s' :: _ => Some (length l - length (rest s'))
  | [] => None
  end.

(** [finditer]: the matched texts, left to right, without overlap.
    [skip] counts the characters still covered by the previous match. *)
Fixpoint finditer_go (r : regex) (p : option ascii) (skip : nat) (l : list ascii)
    : list (list ascii) :=
  match skip with
  | S k => match l with
           | [] => []
           | c :: t => finditer_go r (Some c) k t
           end
  | 0 =>
      match match_at r p l with
      | Some n =>
          take n l ::
          match l with
          | [] => []
          | c :: t => finditer_go r (Some c) (Nat.pred n) t
          end
      | None =>
          match l with
          | [] => []
          | c :: t => finditer_go r (Some c) 0 t
          end
      end
  end.

(** [re.search]: start offset and text of the leftmost match *)
Fixpoint search_go (r : regex) (p : option ascii) (i : nat) (l : list ascii)
    : option (nat * list ascii) :=
  match match_at r p l with
  | Some n => Some (i, take n l)
  | None =>
      match l with
      | [] => None
      | c :: t => search_go r (Some c) (S i) t
      end
  end.

(** [re.sub] with the replacement computed from the matched text *)
Fixpoint sub_go (r : regex) (repl : list ascii → list ascii)
    (p : option ascii) (skip : nat) (l : list ascii) : list ascii :=
  match skip with
  | S k => match l with
           | [] => []
           | c :: t => sub_go r repl (Some c) k t
           end
  | 0 =>
      match match_at r p l with
      | Some n =>
          repl (take n l) ++
          match l with
          | [] => []
          | c :: t =>
              (if Nat.eqb n 0 then [c] else []) ++ sub_go r repl (Some c) (Nat.pred n) t
          end
      | None =>
          match l with
          | [] => []
          | c :: t => c :: sub_go r repl (Some c) 0 t
          end
      end
  end.

(** ** Pattern syntax *)

Record flags : Type := Flags { ignorecase : bool; dotall : bool }.
Definition NOFLAG : flags := Flags false false.
Definition I : flags := Flags true false.
Definition IS : flags := Flags true true.

Definition cls_ci (f : flags) (p : ascii → bool) : ascii → bool :=
  if ignorecase f
  then fun x => p x || p (lower_char x) || p (upper_char x)
  else p.

(** the character or class an escape [\c] stands for *)
Definition esc_class (c : ascii) : ascii → bool :=
  if Ascii.eqb c "s" then is_space
  else if Ascii.eqb c "d" then is_digit
  else if Ascii.eqb c "w" then is_word
  else if Ascii.eqb c "n" then Ascii.eqb newline
  else if Ascii.eqb c "t" then Ascii.eqb (ascii_of_N 9)
  else if Ascii.eqb c "r" then Ascii.eqb (ascii_of_N 13)
  else if Ascii.eqb c "f" then Ascii.eqb (ascii_of_N 12)
  else if Ascii.eqb c "v" then Ascii.eqb (ascii_of_N 11)
  else Ascii.eqb c.

Definition por (p q : ascii → bool) : ascii → bool := fun x => p x || q x.

(** the body of a bracket class, up to and including the closing bracket *)
Fixpoint parse_class (acc : ascii → bool) (l : list ascii)
    : option ((ascii → bool) * list ascii) :=
  match l with
  | [] => None
  | c :: t =>
      if Ascii.eqb c "]" then Some (acc, t)
      else if Ascii.eqb c "\" then
        match t with
        | e :: t' => parse_class (por acc (esc_class e)) t'
        | [] => None
        end
      else
        match t with
        | d :: hi :: t' =>
            if Ascii.eqb d "-" && negb (Ascii.eqb hi "]")
            then parse_class (por acc (in_range (code c) (code hi))) t'
            else parse_class (por acc (Ascii.eqb c)) t
        | _ => parse_class (por acc (Ascii.eqb c)) t
        end
  end.

Fixpoint parse_nat (acc : nat) (l : list ascii) : nat * list ascii :=
  match l with
  | c :: t => if is_digit c
              then parse_nat (10 * acc + (N.to_nat (code c) - 48)) t
              else (acc, l)
  | [] => (acc, l)
  end.

Definition starts_digit (l : list ascii) : bool :=
  match l with c :: _ => is_digit c | [] => false end.

(** the bounds of a quantifier, if one starts here *)
Definition parse_bounds (l : list ascii) : option (nat * option nat * list ascii) :=
  match l with
  | c :: t =>
      if Ascii.eqb c "*" then Some (0, None, t)
      else if Ascii.eqb c "+" then Some (1, None, t)
      else if Ascii.eqb c "?" then Some (0, Some 1, t)
      else if Ascii.eqb c "{" then
        let '(lo, t1) := parse_nat 0 t in
        match t1 with
        | d :: t2 =>
            if Ascii.eqb d "}" then
              (if starts_digit t then Some (lo, Some lo, t2) else None)
            else if Ascii.eqb d "," then
              let '(hi, t3) := parse_nat 0 t2 in
              match t3 with
              | e :: t4 =>
                  if Ascii.eqb e "}"
                  then Some (lo, if starts_digit t2 then Some hi else None, t4)
                  else None
              | [] => None
              end
            else None
        | [] => None
        end
      else None
  | [] => None
  end.

Definition parse_quant (a : regex) (l : list ascii) : regex * list ascii :=
  match parse_bounds l with
  | Some (lo, hi, t) =>
      match t with
      | c :: t' => if Ascii.eqb c "?" then (Rep false lo hi a, t')
                   else (Rep true lo hi a, t)
      | [] => (Rep true lo hi a, t)
      end
  | None => (a, l)
  end.

Definition escape (f : flags) (c : ascii) : regex :=
  if Ascii.eqb c "b" then WordB else Cls (cls_ci f (esc_class c)).

Definition any_char (f : flags) : regex :=
  Cls (if dotall f then fun _ => true else fun c => negb (Ascii.eqb c newline)).

Definition close_group (r : option (regex * list ascii)) : option (regex * list ascii) :=
  match r with
  | Some (a, c :: t) => if Ascii.eqb c ")" then Some (a, t) else None
  | _ => None
  end.

Fixpoint parse_alt (f : flags) (n : nat) (l : list ascii) : option (regex * list ascii) :=
  match n with
  | 0 => None
  | S n' =>
      match parse_seq f n' l with
      | Some (a, c :: t) =>
          if Ascii.eqb c "|"
          then match parse_alt f n' t with
               | Some (b, t') => Some (Alt a b, t')
               | None => None
               end
          else Some (a, c :: t)
      | other => other
      end
  end
with parse_seq (f : flags) (n : nat) (l : list ascii) : option (regex * list ascii) :=
  match n with
  | 0 => None
  | S n' =>
      match l with
      | [] => Some (Eps, [])
      | c :: _ =>
          if Ascii.eqb c "|" || Ascii.eqb c ")" then Some (Eps, l)
          else
            match parse_atom f n' l with
            | Some (a, t) =>
                let '(a', t') := parse_quant a t in
                match parse_seq f n' t' with
                | Some (b, t'') => Some (Seq a' b, t'')
                | None => None
                end
            | None => None
            end
      end
  end
with parse_atom (f : flags) (n : nat) (l : list ascii) : option (regex * list ascii) :=
  match n with
  | 0 => None
  | S n' =>
      match l with
      | [] => None
      | c :: t =>
          if Ascii.eqb c "(" then
            match t with
            | q :: k :: t' =>
                if Ascii.eqb q "?" && Ascii.eqb k ":"
                then close_group (parse_alt f n' t')
                else close_group (parse_alt f n' t)
            | _ => close_group (parse_alt f n' t)
            end
          else if Ascii.eqb c "[" then
            match parse_class (fun _ => false) t with
            | Some (p, t') => Some (Cls (cls_ci f p), t')
            | None => None
            end
          else if Ascii.eqb c "\" then
            match t with
            | e :: t' => Some (escape f e, t')
            | [] => None
            end
          else if Ascii.eqb c "." then Some (any_char f, t)
          else if Ascii.eqb c "^" then Some (Bos, t)
          else Some (Cls (cls_ci f (Ascii.eqb c)), t)
      end
  end.

Definition parse (f : flags) (pat : string) : option regex :=
  let l := list_ascii_of_string pat in
  match parse_alt f (4 * length l + 4) l with
  | Some (r, []) => Some r
  | _ => None
  end.

(** a pattern [re] rejects matches nothing here; every pattern of the
    module is accepted, see [patterns_wellformed] *)
Definition compile (f : flags) (pat : string) : regex :=
  match parse f pat with
  | Some r => r
  | None => Cls (fun _ => false)
  end.

Definition wellformed (pat : string) : bool :=
  match parse NOFLAG pat with Some _ => true | None => false end.

(** ** The calls of the module *)

(** [re.search(pat, s, flags)]: offset and text of the match *)
Definition search (pat : string) (s : string) (f : flags) : option (nat * string) :=
  match search_go (compile f pat) None 0 (list_ascii_of_string s) with
  | Some (i, m) => Some (i, string_of_list_ascii m)
  | None => None
  end.

Definition found (pat : string) (s : string) (f : flags) : bool :=
  match search pat s f with Some _ => true | None => false end.

(** [m.group(0) for m in re.finditer(pat, s, flags)] *)
Definition finditer (pat : string) (s : string) (f : flags) : list string :=
  map string_of_list_ascii (finditer_go (compile f pat) None 0 (list_ascii_of_string s)).

(** [re.sub(pat, repl, s)] *)
Definition sub (pat : string) (repl : list ascii → list ascii) (s : string) : string :=
  string_of_list_ascii (sub_go (compile NOFLAG pat) repl None 0 (list_ascii_of_string s)).

(** [re.match(pat, s, flags)] *)
Definition matches_prefix (pat : string) (s : string) (f : flags) : bool :=
  match match_at (compile f pat) None (list_ascii_of_string s) with
  | Some _ => true
  | None => false
  end.

End Re.

(* ================================================================== *)
(** * Exceptions *)
(* ================================================================== *)

(** a computation that either raises (with [str(e)]) or returns *)
Inductive exc (A : Type) : Type :=
| Raised (e : string)
| Ok (a : A).
Arguments Raised {A} e.
Arguments Ok {A} a.

Global Instance exc_ret : MRet exc := λ A a, Ok a.
Global Instance exc_bind : MBind exc := λ A B k m,
  match m with
  | Raised e => Raised e
  | Ok a => k a
  end.

(* ================================================================== *)
(** * What the PDF libraries report about a document

    The byte stream is seen only through pdfplumber, PyMuPDF ([fitz]) and
    pyHanko; a [Pdf] records what those calls answer.  In an [option],
    [None] stands for a call that raises; the other calls on a document
    that could be opened are taken to return. *)
(* ================================================================== *)

Record Rect : Type := mkRect { rx0 : Q; ry0 : Q; rx1 : Q; ry1 : Q }.

(** a tuple of [page.get_text("blocks")]: its box and, when [b[4]] is a
    [str], its text *)
Record Block : Type := mkBlock { block_rect : Rect; block_text : option string }.

(** an entry of [d["items"]]: a line [("l", p1, p2)] or anything else *)
Inductive DrawItem : Type :=
| LineItem (x0 y0 x1 y1 : Q)
| OtherItem.

Record Drawing : Type := mkDrawing { items : list DrawItem }.

Inductive FieldType : Type :=
| PDF_WIDGET_TYPE_TEXT
| PDF_WIDGET_TYPE_CHECKBOX
| PDF_WIDGET_TYPE_COMBOBOX
| PDF_WIDGET_TYPE_LISTBOX
| PDF_WIDGET_TYPE_SIGNATURE
| PDF_WIDGET_TYPE_RADIOBUTTON
| PDF_WIDGET_TYPE_OTHER.

Record Widget : Type := mkWidget {
  field_type : FieldType;
  is_signature : bool;
  field_name : string;            (* [""] for a missing or empty name *)
  tooltip : string;
  is_required : bool;
  rect : Rect;
  widget_actions : option bool;   (* truth value of [w.get_actions()] *)
}.

Record Page : Type := mkPage {
  page_text : string;                            (* [get_text("text")] *)
  page_blocks : list Block;                      (* [get_text("blocks")] *)
  page_blocks_clip : Rect → option (list Block); (* [get_text("blocks", clip=r)] *)
  page_drawings : list Drawing;                  (* [get_drawings()] *)
  page_widgets : list Widget;                    (* [widgets()] *)
  page_images : nat;                             (* [len(get_images(full=True))] *)
  page_actions : option bool;                    (* truth value of [get_actions()] *)
  page_javascript : option bool;                 (* truth value of [get_javascript()] *)
}.

Record Doc : Type := mkDoc {
  metadata : list (string * string);   (* [doc.metadata], [""] for [None] *)
  pages : list Page;
  embedded_file_count : option nat;
  doc_actions : bool;                  (* [doc.get_actions()] exists and is non-empty *)
  doc_has_js : bool;                   (* [doc.has_js()] exists and is true *)
}.

Record Pdf : Type := mkPdf {
  plumber_texts : option (list string);  (* [p.extract_text() or ""] per page *)
  fitz_doc : exc Doc;                    (* [fitz.open] *)
  hanko_signatures : option (list bool); (* per signature: has a timestamp;
                                            [None] without pyHanko or when it raises *)
}.

Definition _open_doc (pdf : Pdf) : exc Doc := fitz_doc pdf.

(* ================================================================== *)
(** * Patterns and constants *)
(* ================================================================== *)

Definition SIG_PATTERNS : list string :=
  ["\bsignature\b"; "\bsign\b"; "\bsigned\b"; "\bsignatory\b"; "\bexecute(d)?\b"].
Definition WITNESS_PATTERNS : list string :=
  ["\bwitness\b"; "\bwitness(ed|ing)?\b"; "\battested\b"].
Definition NOTARY_PATTERNS : list string :=
  ["\bnotary\b"; "\bnotariz(ed|ation)\b"; "\backnowledged\b"; "\bsworn\b"; "\baffirmed\b"].

Definition PII_PATTERNS : list (string * string) :=
  [("ssn",  "\b(ssn|social security number)\b");
   ("dob",  "\b(date of birth|dob)\b");
   ("tin",  "\b(tin|taxpayer identification)\b");
   ("ein",  "\b(employer identification number|ein)\b");
   ("dl",   "\b(driver'?s license|state id)\b");
   ("acct", "\b(account number|routing number|iban)\b");
   ("addr", "\b(address|street|city|state|zip)\b");
   ("phone","\b(phone|telephone|cell)\b");
   ("email","\b(email)\b")].

Definition ATTACHMENT_HINTS : list string :=
  ["\battach(ed)?\b";
   "\b(include|provide)\s+(a|an|the)?\s*(copy|document|proof)\b";
   "\bvoided check\b";
   "\bphoto id\b";
   "\b(driver'?s license|passport)\b";
   "\b(account statement|bank statement)\b";
   "\bsupporting (documents|documentation)\b"].

Definition ROLE_HINTS : list (string * string) :=
  [("applicant", "\b(applicant|borrower|member)\s+signature\b");
   ("co_owner",  "\b(co[-\s]?owner|co[-\s]?applicant)\s+signature\b");
   ("guardian",  "\b(parent|guardian)\s+signature\b");
   ("spouse",    "\b(spouse)\s+signature\b");
   ("officer",   "\b(officer|authorized signer)\s+signature\b");
   ("witness",   "\bwitness\s+signature\b");
   ("notary",    "\bnotary\s+(public|signature)\b")].

Definition THIRD_PARTY_PATTERNS : list (string * string) :=
  [("Witness",            "\bwitness\b");
   ("Physician",          "\b(physician|doctor|md|do)\b");
   ("Financial Advisor",  "\b(financial advisor|advisor|adviser|ria|broker-dealer|broker)\b");
   ("Attorney",           "\b(attorney|lawyer|counsel|esq\.?)\b");
   ("Guardian/POA",       "\b(guardian|conservator|power of attorney|poa|agent under poa)\b");
   ("Employer/HR",        "\b(employer|human resources|hr department|hr rep|supervisor)\b");
   ("Court/Clerk",        "\b(court clerk|clerk of court|court)\b")].

Definition CORE_SIGNER_TERMS : list string :=
  ["Applicant";"Borrower";"Member";"Customer";"Account Holder";"Co-owner";"Co-applicant";"Spouse"].

Definition LABEL_SEARCH_PAD : Q := 20.

Definition FIELD_CLASS_PATTERNS : list (string * string) :=
  [("ssn", "\b(ssn|social security)\b"); ("tin", "\b(tin|taxpayer)\b");
   ("ein", "\b(ein|employer id(entification)?)\b"); ("dob", "\b(date of birth|dob)\b");
   ("date", "\b(date)\b"); ("phone", "\b(phone|telephone|cell)\b");
   ("email", "\b(e[- ]?mail)\b"); ("zip", "\b(zip|postal)\b");
   ("state", "\b(state|prov(ince)?)\b"); ("routing", "\b(routing|aba)\b");
   ("account", "\b(account|acct)\b"); ("amount", "\b(amount|usd|\$)\b");
   ("signature", "\b(signature)\b"); ("notary", "\b(notary)\b"); ("witness", "\b(witness)\b")].

(** NIGO scoring knobs *)
Definition HIGH_RISK_FIELDS : gset string :=
  list_to_set ["ssn";"dob";"routing";"account";"email";"phone";"zip";"state";"tin";"ein"].
Definition RULE_WEIGHTS : gmap string Z :=
  list_to_map [("REQ-001",5);("FMT-001",8);("SIG-002",4);("COND-003",6);("ROLE-001",6);("THRD-001",6)]%Z.
Definition SEVERITY_WEIGHTS : gmap string Z :=
  list_to_map [("high",20);("medium",12);("low",6)]%Z.

Definition DEPENDENCY_PATTERNS : list (string * string) :=
  [("with",   "\b(submit|send|file|include)\s+(this\s+)?form\s+(with|along with)\s+(form\s+)?([A-Za-z0-9\-_/\.]+)");
   ("with",   "\b(accompany|in conjunction with|together with|in addition to)\s+(form\s+)?([A-Za-z0-9\-_/\.]+)");
   ("before", "\b(before|prior to)\s+(submitting|sending)\s+(this\s+)?form.*?\b(form\s+)?([A-Za-z0-9\-_/\.]+)");
   ("after",  "\b(after|following)\s+(approval|submission|receipt)\s+of\s+(form\s+)?([A-Za-z0-9\-_/\.]+)");
   ("see",    "\b(see|refer to)\s+(form|document)\s+([A-Za-z0-9\-_/\.]+)")].

Definition FORM_TOKEN : string :=
  "((SF|GSA|SSA|IRS|USCIS|I|DS|W|POA|DPOA|DOA|F|FRM|APP|ACCT|CHG)[\-\s]?\d+[A-Za-z0-9\-]*)".

Definition DEADLINE_PATTERNS : list string :=
  ["\b(within\s+\d{1,3}\s+(calendar|business)\s+days)\b";
   "\b(within\s+\d{1,2}\s+months?)\b";
   "\b(no\s+later\s+than\s+\d{1,3}\s+(days|business days))\b";
   "\b(by\s+(?:the\s+)?\d{1,2}\/\d{1,2}\/\d{2,4})\b";
   "\b(by\s+(?:the\s+)?[A-Za-z]{3,9}\s+\d{1,2},\s+\d{4})\b";
   "\b(postmarked\s+within\s+\d{1,3}\s+days)\b";
   "\b(\d{1,3}\s+(calendar|business)\s+days\s+of\s+(?:receipt|effective\s+date|notification))\b";
   "\bon or before\s+\d{1,2}/\d{1,2}/\d{2,4}\b";
   "\bon or before\s+[A-Za-z]{3,9}\s+\d{1,2},\s+\d{4}\b";
   "\bmust be (?:received|submitted|returned)\s+within\s+\d{1,3}\s+(?:days|business days|weeks|months)\b";
   "\bno later than\b";
   "\bon or before\b";
   "\bwithin\s+\d{1,3}\s+(?:days|business days|weeks|months)\b";
   "\bpostmarked by\b";
   "\beffective date\b.*?\bwithin\s+\d{1,3}\s+(?:days|business days)\b"].

(* ================================================================== *)
(** * Text normalization and extraction *)
(* ================================================================== *)

(** the replacement [r"\1\2"] of the first substitution: group 1 is the
    first character of the match and group 2 its last *)
Definition first_and_last (m : list ascii) : list ascii :=
  match m with
  | [] => []
  | c :: _ => [c; List.last m c]
  end.

Definition one_space (m : list ascii) : list ascii := [" "%char].

Definition _normalize_text_for_rules (raw : string) : string :=
  if Str.is_empty raw then "" else
  let t := Re.sub "(\w)-\s*\n\s*(\w)" first_and_last raw in  (* join hyphenated breaks *)
  let t := Re.sub "\s*\n\s*" one_space t in                  (* collapse newlines *)
  let t := Re.sub "\s{2,}" one_space t in                    (* shrink spaces *)
  t.

Definition NL : string := String newline "".

Definition extract_text (pdf : Pdf) : string :=
  match plumber_texts pdf with
  | Some texts =>
      let txt := filter (fun t => negb (Str.is_empty t)) texts in
      _normalize_text_for_rules (Str.lower (Str.join NL txt))
  | None =>
      match _open_doc pdf with
      | Ok doc =>
          let txt := map page_text (pages doc) in
          _normalize_text_for_rules (Str.lower (Str.join NL txt))
      | Raised _ => ""
      end
  end.

(** the two properties the normalized text is meant to have *)
Definition entirely_lowercase (s : string) : Prop :=
  Forall (fun c => is_upper c = false) (Str.chars s).

Definition no_whitespace_run (s : string) : Prop :=
  ∀ i c d, Str.chars s !! i = Some c → Str.chars s !! S i = Some d →
           is_space c && is_space d = false.

(* ================================================================== *)
(** * The environment of one analysis

    What the run takes from outside the module: the identifier and the
    clock, the acquisition of the document, and the library calls whose
    result is not determined by the text of the module. *)
(* ================================================================== *)

Record Env : Type := mkEnv {
  uuid4 : string;                          (* [str(uuid.uuid4())] *)
  now_isoformat : string;                  (* [datetime.now().isoformat()] *)
  _download : string → exc Pdf;            (* three attempts over HTTP *)
  read_file : string → exc Pdf;            (* [open(item,"rb").read()] *)
  abspath : string → string;               (* [os.path.abspath] *)
  netloc : string → option string;         (* [urlparse(url).netloc]; [None] when it raises *)
  tldextract : option (string → string * string);
                                           (* domain and suffix; [None] without the module *)
  json_dumps : list (string * string) → string;
  round2 : Q → Q;                          (* [round(x, 2)] *)
}.

(* ================================================================== *)
(** * Counting fields, attachments and scripts *)
(* ================================================================== *)

Definition all_widgets (doc : Doc) : list Widget :=
  flat_map page_widgets (pages doc).

Definition count_where {A} (f : A → bool) (l : list A) : nat := length (filter f l).

Definition is_sig_widget (w : Widget) : bool :=
  match field_type w with PDF_WIDGET_TYPE_SIGNATURE => true | _ => is_signature w end.

Definition is_radio (w : Widget) : bool :=
  match field_type w with PDF_WIDGET_TYPE_RADIOBUTTON => true | _ => false end.

Definition count_fields (pdf : Pdf) : gmap string nat :=
  let ws := match _open_doc pdf with Ok doc => all_widgets doc | Raised _ => [] end in
  let is_text w := match field_type w with PDF_WIDGET_TYPE_TEXT => true | _ => false end in
  let is_check w := match field_type w with PDF_WIDGET_TYPE_CHECKBOX => true | _ => false end in
  let is_drop w := match field_type w with
                   | PDF_WIDGET_TYPE_COMBOBOX | PDF_WIDGET_TYPE_LISTBOX => true
                   | _ => false end in
  let is_sig w := negb (is_text w) && negb (is_check w) && negb (is_drop w) && is_sig_widget w in
  list_to_map
    [("total", length ws);
     ("text_fields", count_where is_text ws);
     ("checkboxes", count_where is_check ws);
     ("dropdowns", count_where is_drop ws);
     ("signatures", count_where is_sig ws)].

Definition fields_get (fields : gmap string nat) (k : string) : nat :=
  default 0 (fields !! k).

Definition count_attachments (pdf : Pdf) : nat :=
  match _open_doc pdf with
  | Ok doc => default 0 (embedded_file_count doc)
  | Raised _ => 0
  end.

Definition truthy (o : option bool) : bool := default false o.

(** doc/page/widget actions; fallback to radio inference *)
Definition detect_js (pdf : Pdf) : string :=
  match _open_doc pdf with
  | Raised _ => "No"
  | Ok doc =>
      if doc_actions doc then "Yes"
      else if doc_has_js doc then "Yes"
      else if existsb (fun page =>
                truthy (page_actions page) || truthy (page_javascript page)
                || existsb (fun w => truthy (widget_actions w)) (page_widgets page))
              (pages doc) then "Yes"
      else if Nat.leb 2 (count_where is_radio (all_widgets doc)) then "Yes"
      else "No"
  end.

Definition count_radio_groups (pdf : Pdf) : nat :=
  match _open_doc pdf with
  | Raised _ => 0
  | Ok doc =>
      let names := map (fun w => default "" (head (Str.split_on "." (field_name w))))
                       (filter is_radio (all_widgets doc)) in
      length (remove_dups (filter (fun n => negb (Str.is_empty n)) names))
  end.

Record GfxStats : Type := mkGfx {
  images_per_page : Q;
  drawings_per_page : Q;
  text_density : Q;
}.

Definition Qnat (n : nat) : Q := inject_Z (Z.of_nat n).

Definition sum_by {A} (f : A → nat) (l : list A) : nat := foldr (fun a n => f a + n) 0 l.

Definition page_graphics_stats (env : Env) (pdf : Pdf) : GfxStats :=
  match _open_doc pdf with
  | Raised _ => mkGfx 0 0 0
  | Ok doc =>
      let n := Qnat (Nat.max 1 (length (pages doc))) in
      let img_total := sum_by page_images (pages doc) in
      let draw_total := sum_by (fun p => length (page_drawings p)) (pages doc) in
      let char_total := sum_by (fun p => Str.len (page_text p)) (pages doc) in
      mkGfx (round2 env (Qnat img_total / n))
            (round2 env (Qnat draw_total / n))
            (round2 env (Qnat char_total / n))
  end.

Definition xfa_like_hint (env : Env) (text : string) (meta : list (string * string)) : bool :=
  let joined := Str.lower (json_dumps env meta +:+ NL +:+ text) in
  existsb (fun k => Str.contains k joined) ["xfa"; "dynamic xdp"; "xfa form"; "livecycle"].

(* ================================================================== *)
(** * Dependencies and deadlines *)
(* ================================================================== *)

Record Dependency : Type := mkDep {
  relation : string;
  hint : string;
  form_id : option string;
}.

(** [s.replace("  ", " ")] *)
Fixpoint replace_double_space (l : list ascii) : list ascii :=
  match l with
  | c :: t =>
      match t with
      | d :: t' =>
          if Ascii.eqb c " " && Ascii.eqb d " "
          then " "%char :: replace_double_space t'
          else c :: replace_double_space t
      | [] => [c]
      end
  | [] => []
  end.

Definition dep_key (d : Dependency) : string * string :=
  (relation d,
   match form_id d with
   | Some f => if Str.is_empty f then hint d else f
   | None => hint d
   end).

(** keep the first entry of every key *)
Fixpoint dedupe_by {A K} `{EqDecision K} (key : A → K) (seen : list K) (l : list A) : list A :=
  match l with
  | [] => []
  | a :: t =>
      if bool_decide (key a ∈ seen) then dedupe_by key seen t
      else a :: dedupe_by key (key a :: seen) t
  end.

Definition detect_dependencies (text : string) : list Dependency :=
  if Str.is_empty text then [] else
  let low := Str.lower text in
  let deps :=
    flat_map (fun '(rel, pat) =>
      map (fun m =>
        let snippet := Str.slice_to 180 m in
        let fid :=
          match Re.search FORM_TOKEN snippet Re.I with
          | Some (_, g) =>
              Some (Str.of_chars (replace_double_space (Str.chars (Str.upper g))))
          | None => None
          end in
        mkDep rel (Str.strip snippet) fid)
      (Re.finditer pat low Re.IS))
    DEPENDENCY_PATTERNS in
  dedupe_by dep_key [] deps.

(** [sorted(set(l))]: the distinct elements in increasing order *)
Fixpoint insert_sorted (x : string) (l : list string) : list string :=
  match l with
  | [] => [x]
  | y :: t =>
      match String.compare x y with
      | Lt => x :: l
      | Eq => l
      | Gt => y :: insert_sorted x t
      end
  end.
Definition sorted_set (l : list string) : list string := foldr insert_sorted [] l.

Definition detect_deadlines (text : string) : list string :=
  if Str.is_empty text then [] else
  let hits := flat_map (fun pat => map Str.strip (Re.finditer pat text Re.I))
                       DEADLINE_PATTERNS in
  sorted_set hits.

(* ================================================================== *)
(** * Roles *)
(* ================================================================== *)

Definition detect_roles (text : string) : list string :=
  map fst (filter (fun '(_, pat) => Re.found pat text Re.I) ROLE_HINTS).

(** the label search of [_label_near_widget]; any failure gives [""] *)
Definition rect_width (r : Rect) : Q := Qmax 0 (rx1 r - rx0 r).

Definition block_texts (blocks : list Block) : list string :=
  omap block_text blocks.

Definition _label_near_widget (page : Page) (widget : Widget) : string :=
  let r := rect widget in
  let search := mkRect (rx0 r - 200) (ry0 r - 40 - LABEL_SEARCH_PAD)
                       (rx0 r + rect_width r + 10) (ry0 r + 5) in
  match page_blocks_clip page search with
  | Some blocks => Str.strip (Str.join " " (block_texts blocks))
  | None => ""
  end.

Definition _infer_field_class (name alt label : string) : string :=
  let parts := filter (fun s => negb (Str.is_empty s)) [name; alt; label] in
  let hay := Str.lower (Str.join " " parts) in
  default "text"
    (head (map fst (filter (fun '(_, pat) => Re.found pat hay Re.NOFLAG)
                           FIELD_CLASS_PATTERNS))).

(* ================================================================== *)
(** * Layout-aware signature and witness estimates *)
(* ================================================================== *)

Definition Qltb (a b : Q) : bool := negb (Qle_bool b a).

(** the near-horizontal line segments of a page: [(x0,y0,x1,y1)] with
    [abs(y1-y0) < 1.0] and [abs(x1-x0) > 60] *)
Definition horizontal_lines (drawings : list Drawing) : list (Q * Q * Q * Q) :=
  flat_map (fun d =>
    flat_map (fun it =>
      match it with
      | LineItem x0 y0 x1 y1 =>
          if Qltb (Qabs (y1 - y0)) 1 && Qltb 60 (Qabs (x1 - x0))
          then [(x0, y0, x1, y1)] else []
      | OtherItem => []
      end) (items d)) drawings.

(** the band beneath and right of a text block *)
Definition band_of (r : Rect) : Rect :=
  mkRect (rx0 r - 10) (ry1 r - 6) (rx1 r + 200) (ry1 r + 18).

Definition close_line (band : Rect) (horiz : list (Q * Q * Q * Q)) : bool :=
  existsb (fun '(x0, y0, x1, _) =>
    (Qle_bool (ry0 band - 6) y0 && Qle_bool y0 (ry1 band + 6))
    && negb (Qltb x1 (rx0 band) || Qltb (rx1 band) x0)) horiz.

(** the blocks whose text matches [pat], with their boxes *)
Definition keyed_blocks (pat : string) (blocks : list Block) : list (Rect * string) :=
  omap (fun b =>
    match block_text b with
    | Some txt => if Re.found pat txt Re.I then Some (block_rect b, txt) else None
    | None => None
    end) blocks.

Definition has_underline (txt : string) : bool :=
  Re.found "_{5,}|_{3,}\s*/{0,1}" txt Re.NOFLAG.

Definition page_signature_lines (page : Page) : nat :=
  let sig_blocks := keyed_blocks "\bsignature\b" (page_blocks page) in
  match sig_blocks with
  | [] => 0
  | _ =>
      let horiz := horizontal_lines (page_drawings page) in
      let page_counted :=
        count_where (fun '(r, txt) => close_line (band_of r) horiz || has_underline txt)
                    sig_blocks in
      Nat.min page_counted 2
  end.

Definition _estimate_text_signatures (pdf : Pdf) (text : string) : nat :=
  match _open_doc pdf with
  | Raised _ => Nat.min 2 (length (Re.finditer "\bsignature\b" text Re.I))
  | Ok doc =>
      let hits := fold_left (fun hits page => hits + page_signature_lines page) (pages doc) 0 in
      Nat.min hits 5
  end.

Definition page_witness_lines (page : Page) : nat :=
  let witness_blocks := keyed_blocks "\bwitness\b" (page_blocks page) in
  let horiz := horizontal_lines (page_drawings page) in
  let page_counted :=
    count_where (fun '(r, _) => close_line (band_of r) horiz) witness_blocks in
  Nat.min page_counted 2.

Definition _estimate_witness_signatures (pdf : Pdf) (text : string) : nat :=
  match _open_doc pdf with
  | Raised _ => Nat.min 2 (length (Re.finditer "\bwitness\b" text Re.I))
  | Ok doc =>
      let hits := fold_left (fun hits page => hits + page_witness_lines page) (pages doc) 0 in
      Nat.min hits 4
  end.

Record SignatureDebug : Type := mkSigDebug {
  dbg_widgets : nat;
  dbg_digital : nat;
  dbg_fallback_text_layout : nat;
}.

Record SignatureAnalysis : Type := mkSigs {
  signature_count : nat;
  witness_signature_count : nat;
  conditional_signature_count : nat;
  notarized : string;
  signature_debug : SignatureDebug;
}.

(** the explicit evidence: signature widgets and digital signatures *)
Definition count_signature_widgets (pdf : Pdf) : nat :=
  match _open_doc pdf with
  | Ok doc => count_where is_sig_widget (all_widgets doc)
  | Raised _ => 0
  end.

Definition digital_signatures (pdf : Pdf) : nat * bool :=
  match hanko_signatures pdf with
  | Some sigs => (length sigs, existsb id sigs)
  | None => (0, false)
  end.

Definition analyze_signatures (pdf : Pdf) (text : string) : SignatureAnalysis :=
  let sig_widgets := count_signature_widgets pdf in
  let '(dig_sigs, has_ts) := digital_signatures pdf in
  let text_fb :=
    if Nat.eqb (sig_widgets + dig_sigs) 0
    then _estimate_text_signatures pdf text
    else 0 in
  let witness := _estimate_witness_signatures pdf text in
  let notarized_kw := Re.found (Str.join "|" NOTARY_PATTERNS) text Re.NOFLAG in
  let total := sig_widgets + dig_sigs + text_fb in
  {| signature_count := total;
     witness_signature_count := witness;
     conditional_signature_count :=
       sum_by (fun p => length (Re.finditer p text Re.NOFLAG))
              ["if.*sign"; "when.*sign"; "unless.*sign"];
     notarized := if has_ts || notarized_kw then "Yes" else "No";
     signature_debug := mkSigDebug sig_widgets dig_sigs text_fb |}.

(* ================================================================== *)
(** * Entity, PII, attachments, third parties *)
(* ================================================================== *)

Definition entity_domains : list (string * string) :=
  [("fidelity","Fidelity Investments"); ("vanguard","Vanguard"); ("schwab","Charles Schwab");
   ("tdameritrade","TD Ameritrade"); ("morganstanley","Morgan Stanley");
   ("bofa","Bank of America"); ("bankofamerica","Bank of America");
   ("wellsfargo","Wells Fargo"); ("chase","JPMorgan Chase");
   ("usbank","U.S. Bank"); ("pnc","PNC");
   ("cigna","Cigna"); ("aetna","Aetna"); ("uhc","UnitedHealthcare");
   ("gsa.gov","GSA"); ("uscis.gov","USCIS"); ("irs.gov","IRS"); ("ssa.gov","SSA")].

Definition first_containing (hay : string) (table : list (string * string)) : option string :=
  head (map snd (filter (fun '(k, _) => Str.contains k hay) table)).

Definition extract_entity_name_financial (text url : string) : string :=
  let lower := Str.lower url in
  match first_containing lower entity_domains with
  | Some v => v
  | None =>
      match first_containing text entity_domains with
      | Some v => v
      | None => "Unknown Entity"
      end
  end.

Definition detect_pii (text : string) : gmap string bool :=
  let out := map (fun '(k, pat) => (k, Re.found pat text Re.I)) PII_PATTERNS in
  <["any_pii" := existsb snd out]> (list_to_map out).

Definition flag (m : gmap string bool) (k : string) : bool := default false (m !! k).

Definition detect_attachment_requirements (text : string) : list string :=
  sorted_set (filter (fun pat => Re.found pat text Re.I) ATTACHMENT_HINTS).

Record ThirdParties : Type := mkThird {
  tp_roles : list string;
  tp_evidence : list string;
}.

Definition detect_third_parties (text : string) : ThirdParties :=
  if Str.is_empty text then mkThird [] [] else
  let low := Str.lower text in
  let found :=
    omap (fun '(role, pat) =>
      match Re.search pat low Re.I with
      | Some (start, m) =>
          let s := start - 40 in
          let e := Nat.min (Str.len text) (start + Str.len m + 40) in
          Some (role, Str.strip (Str.slice s e text))
      | None => None
      end) THIRD_PARTY_PATTERNS in
  let roles := map fst found in
  let ev := map snd found in
  let uniq := dedupe_by id []
                (filter (fun r => negb (bool_decide (r ∈ CORE_SIGNER_TERMS))) roles) in
  mkThird uniq (take 6 ev).

(* ================================================================== *)
(** * Host versus issuer *)
(* ================================================================== *)

(** the brand registry: issuer name to domains, in the order of the
    dictionary *)
Definition BrandMap : Type := list (string * list string).

(** the built-in table of [load_brand_config] *)
Definition builtin_brands : BrandMap :=
  [("Fidelity Investments", ["fidelity.com";"fmr.com"]);
   ("Charles Schwab", ["schwab.com";"schwabcdn.com"]);
   ("Vanguard", ["vanguard.com"]);
   ("JPMorgan Chase", ["chase.com";"jpmorganchase.com";"jpmorgan.com"]);
   ("Cigna", ["cigna.com"]); ("Aetna", ["aetna.com"]);
   ("UnitedHealthcare", ["uhc.com";"optum.com"]);
   ("GSA", ["gsa.gov"]); ("USCIS", ["uscis.gov"]);
   ("IRS", ["irs.gov";"treasury.gov"]); ("SSA", ["ssa.gov"]);
   ("U.S. Bank", ["usbank.com"]); ("PNC", ["pnc.com"]);
   ("Bank of America", ["bankofamerica.com";"bofa.com"]);
   ("Morgan Stanley", ["morganstanley.com"])].

Definition brand_domains (brand_map : BrandMap) (issuer : string) : list string :=
  default [] (snd <$> head (filter (fun '(b, _) => Str.eqb b issuer) brand_map)).

(** [ROOT_TO_BRAND]: a later brand overwrites an earlier one *)
Definition ROOT_TO_BRAND (brand_map : BrandMap) : gmap string string :=
  fold_left (fun m '(brand, doms) => fold_left (fun m d => <[d := brand]> m) doms m)
            brand_map ∅.

Definition KNOWN_CDNS : list string :=
  ["blob.core.windows.net";"azureedge.net";"cloudfront.net";"akamai";"fastly";"cdn."].

Definition gov_brands : list string := ["GSA";"USCIS";"IRS";"SSA"].

Definition host_of (env : Env) (url : string) : string :=
  match netloc env url with
  | Some h => Str.lower h
  | None => ""
  end.

(** eTLD+1, or the last two labels without tldextract *)
Definition host_root_of (env : Env) (host : string) : string :=
  let naive :=
    let parts := Str.split_on "." host in
    if Nat.leb 2 (length parts)
    then Str.join "." (drop (length parts - 2) parts)
    else host in
  match tldextract env with
  | Some extract =>
      if Str.is_empty host then naive
      else let '(domain, suffix) := extract host in
           if Str.is_empty suffix then host else domain +:+ "." +:+ suffix
  | None => naive
  end.

Definition unresolved (issuer : string) : bool :=
  Str.is_empty issuer || Str.eqb issuer "Unknown Entity".

(** [brand.split()[0].lower()]; [None] is the [IndexError] of a blank name *)
Definition first_word_lower (brand : string) : option string :=
  Str.lower <$> head (Str.split_ws brand).

(** the search for a brand in the text: not guarded, a blank name raises *)
Fixpoint brand_in_text (lowered : string) (brands : list string) : exc (option string) :=
  match brands with
  | [] => Ok None
  | brand :: more =>
      match first_word_lower brand with
      | None => Raised "list index out of range"
      | Some w => if Str.contains w lowered then Ok (Some brand)
                  else brand_in_text lowered more
      end
  end.

(** one round of the search in the metadata; the whole loop is guarded,
    so a blank name stops it and keeps what was found *)
Definition meta_step (st : list string * string * bool) (x : string * string * string)
    : list string * string * bool :=
  let '(hits, issuer, stopped) := st in
  let '(k, val, brand) := x in
  if stopped then st else
  match first_word_lower brand with
  | None => (hits, issuer, true)
  | Some w =>
      if Str.contains w val
      then (hits ++ [brand +:+ "@" +:+ k], if unresolved issuer then brand else issuer, false)
      else st
  end.

Record IssuerResolution : Type := mkRes {
  ir_issuer : string;
  ir_text_hits : list string;
  ir_meta_hits : list string;
}.

Definition resolve_issuer (host_root entity_name text : string)
    (meta : list (string * string)) (brand_map : BrandMap) : exc IssuerResolution :=
  let brands := map fst brand_map in
  let issuer := Str.strip entity_name in
  found ← (if unresolved issuer then brand_in_text (Str.lower text) brands else Ok None);
  let issuer := default issuer found in
  let brand_text_hits := option_list found in
  let rounds := flat_map (fun '(k, v) => map (fun b => (k, Str.lower v, b)) brands) meta in
  let '(brand_meta_hits, issuer, _) := fold_left meta_step rounds ([], issuer, false) in
  let issuer :=
    match ROOT_TO_BRAND brand_map !! host_root with
    | Some b => if unresolved issuer then b else issuer
    | None => issuer
    end in
  Ok (mkRes issuer brand_text_hits brand_meta_hits).

Record DomainTrust : Type := mkTrust {
  host_domain : string;
  host_root : string;
  issuer_guess : string;
  issuer_domains_matched : list string;
  brand_text_hits : list string;
  brand_meta_hits : list string;
  confidence : Z;
  mismatch : bool;
  reason : string;
}.

Definition nonempty {A} (l : list A) : bool := match l with [] => false | _ => true end.

(** the issuer is a government brand and the host is not under [.gov] *)
Definition gov_off_domain (issuer host : string) : bool :=
  bool_decide (issuer ∈ gov_brands)
  && (negb (Str.is_empty host) && negb (Str.contains ".gov" host)).

(** the root domain is registered to the issuer in the reverse index *)
Definition root_registered (brand_map : BrandMap) (host_root issuer : string) : bool :=
  match ROOT_TO_BRAND brand_map !! host_root with
  | Some b => Str.eqb b issuer
  | None => false
  end.

(** the scoring part of [host_domain_info]; the list [reasons], which is
    built along the way and not returned, is left out *)
Definition domain_trust (host host_root : string) (res : IssuerResolution)
    (brand_map : BrandMap) : DomainTrust :=
  let issuer := ir_issuer res in
  (* the order of a set of strings is not fixed; the model keeps that of the registry *)
  let issuer_domains := remove_dups (map Str.lower (brand_domains brand_map issuer)) in
  let matched := filter (fun d => Str.contains d host || Str.eqb d host_root) issuer_domains in
  let confidence := 0%Z in
  let confidence := if nonempty matched then (confidence + 60)%Z else confidence in
  let confidence :=
    if bool_decide (host_root ∈ issuer_domains) && negb (nonempty matched)
    then (confidence + 25)%Z else confidence in
  let confidence := if nonempty (ir_text_hits res) then (confidence + 15)%Z else confidence in
  let confidence := if nonempty (ir_meta_hits res) then (confidence + 10)%Z else confidence in
  let confidence :=
    if existsb (fun k => Str.contains k host) KNOWN_CDNS
    then (confidence - 15)%Z else confidence in
  let confidence := if gov_off_domain issuer host then (confidence + 10)%Z else confidence in
  let confidence := Z.max 0 (Z.min 100 confidence) in
  let '(mismatch, reason) := (false, "") in
  let '(mismatch, reason) :=
    if (55 <=? confidence)%Z then
      let '(mismatch, reason) :=
        if negb (nonempty matched)
        then (true, "Host does not match issuer domains.") else (mismatch, reason) in
      if gov_off_domain issuer host
      then (true, "Government issuer on non-.gov host.") else (mismatch, reason)
    else (mismatch, reason) in
  let '(mismatch, reason, confidence) :=
    if root_registered brand_map host_root issuer
    then (false, "Host root aligns with issuer.", Z.max confidence 75)
    else (mismatch, reason, confidence) in
  {| host_domain := host;
     host_root := host_root;
     issuer_guess := if Str.is_empty issuer then "Unknown" else issuer;
     issuer_domains_matched := matched;
     brand_text_hits := ir_text_hits res;
     brand_meta_hits := ir_meta_hits res;
     confidence := confidence;
     mismatch := mismatch;
     reason := if Str.is_empty reason
               then (if negb mismatch then "OK" else "Mismatch") else reason |}.

Definition host_domain_info (env : Env) (url entity_name text : string)
    (meta : list (string * string)) (brand_map : BrandMap) : exc DomainTrust :=
  let host := host_of env url in
  let host_root := host_root_of env host in
  res ← resolve_issuer host_root entity_name text meta brand_map;
  Ok (domain_trust host host_root res brand_map).

(* ================================================================== *)
(** * NIGO checks and score *)
(* ================================================================== *)

Record Finding : Type := mkFinding {
  rule_id : string;
  severity : string;
  page : option nat;
  finding_field_name : string;
  field_class : string;
  issue : string;
  evidence : string;
}.

(** [a or b] on strings *)
Definition or_else (a b : string) : string := if Str.is_empty a then b else a.

Definition expected_mask_classes : list string :=
  ["ssn";"tin";"ein";"dob";"date";"phone";"email";"zip";"state";"routing";"account";"amount"].
Definition expected_required_classes : list string :=
  ["signature";"dob";"ssn";"email";"phone";"zip";"state";"routing";"account";"amount"].

Definition page_has_js (pg : Page) : bool :=
  match page_actions pg with
  | None => false
  | Some true => true
  | Some false => truthy (page_javascript pg)
  end.

Definition cond (b : bool) (f : Finding) : list Finding := if b then [f] else [].

Definition widget_findings (i : nat) (pg : Page) (w : Widget) : list Finding :=
  let fname := Str.strip (field_name w) in
  let alt := Str.strip (tooltip w) in
  let label := _label_near_widget pg w in
  let fclass := _infer_field_class fname alt label in
  let is_req := is_required w in
  let has_actions := truthy (widget_actions w) in
  let page_has_js := page_has_js pg in
  let expected_mask := bool_decide (fclass ∈ expected_mask_classes) in
  let expected_required := bool_decide (fclass ∈ expected_required_classes) in
  cond (expected_required && negb is_req)
    (mkFinding "REQ-001" "high" (Some i) (or_else fname (or_else alt "(unnamed)")) fclass
       "Field likely should be required but isn't."
       ("Label='" +:+ Str.slice_to 120 label +:+ "' name='" +:+ fname +:+ "'"))
  ++ cond (expected_mask && negb (has_actions || page_has_js))
    (mkFinding "FMT-001" "medium" (Some i) (or_else fname (or_else alt "(unnamed)")) fclass
       "No input mask/validation detected for a high-risk field."
       ("Class=" +:+ fclass +:+ "; no field/page actions found."))
  ++ cond (Str.eqb fclass "signature" && negb (Re.found "\b(date)\b" (Str.lower label) Re.NOFLAG))
    (mkFinding "SIG-002" "low" (Some i) (or_else fname "(signature)") fclass
       "Signature likely needs an adjacent Date field."
       ("Nearby label='" +:+ Str.slice_to 120 label +:+ "'"))
  ++ cond (Re.found "\b(beneficiary|dependent)\b"
             (Str.lower (label +:+ " " +:+ alt +:+ " " +:+ fname)) Re.NOFLAG
           && negb (page_has_js || has_actions))
    (mkFinding "COND-003" "medium" (Some i) (or_else fname "(beneficiary)") fclass
       "Conditional area lacks visible logic; consider requiring SSN/DOB masks."
       ("Label='" +:+ Str.slice_to 120 label +:+ "'")).

(** the informational finding an internal failure leaves *)
Definition sys_err (e : string) : Finding :=
  mkFinding "SYS-ERR" "info" None "" "" "Analyzer error during NIGO checks." e.

Definition nigo_design_checks (pdf : Pdf) : list Finding :=
  match _open_doc pdf with
  | Ok doc =>
      flat_map (fun '(i, pg) => flat_map (widget_findings (S i) pg) (page_widgets pg))
               (imap pair (pages doc))
  | Raised e => [sys_err e]
  end.

Definition weight (table : gmap string Z) (k : string) : Z := default 0%Z (table !! k).

Definition high_risk (fcl : string) : bool := bool_decide (fcl ∈ HIGH_RISK_FIELDS).

(** what one finding adds to the score *)
Definition finding_points (r : Finding) : Z :=
  let sev := Str.lower (severity r) in
  let rule := rule_id r in
  let fcl := Str.lower (field_class r) in
  (weight SEVERITY_WEIGHTS sev + weight RULE_WEIGHTS rule + (if high_risk fcl then 5 else 0))%Z.

(** a mask or required finding on a high-risk field *)
Definition is_high_mask_req (r : Finding) : bool :=
  let rule := rule_id r in
  let fcl := Str.lower (field_class r) in
  (Str.eqb rule "FMT-001" || Str.eqb rule "REQ-001") && high_risk fcl.

Definition nigo_step (acc : Z * Z) (r : Finding) : Z * Z :=
  let '(score, high_mask_req) := acc in
  ((score + finding_points r)%Z,
   if is_high_mask_req r then (high_mask_req + 1)%Z else high_mask_req).

Definition calculate_nigo_score (nigo_risks : list Finding) (pii_flags : gmap string bool) : Z :=
  let '(score, high_mask_req) := fold_left nigo_step nigo_risks (0, 0)%Z in
  let score :=
    if flag pii_flags "any_pii" && (0 <? high_mask_req)%Z
    then (score + 10)%Z else score in
  Z.min score 100.

(* ================================================================== *)
(** * Complexity score *)
(* ================================================================== *)

(** the keyword arguments [analyze_one] passes; a key that is absent
    reads as its empty value *)
Record Extra : Type := mkExtra {
  ex_pii : gmap string bool;
  ex_roles : list string;
  ex_attachments_req : list string;
  ex_radio_groups : nat;
  ex_gfx : GfxStats;
  ex_xfa_hint : bool;
  ex_has_js : bool;
  ex_deadlines : nat;
  ex_dependencies : nat;
  ex_domain_mismatch : bool;
  ex_third_party_count : nat;
  ex_third_party_roles : list string;
}.

Definition no_extra : Extra :=
  mkExtra ∅ [] [] 0 (mkGfx 0 0 0) false false 0 0 false 0 [].

(** [int(x)]: truncation toward zero *)
Definition py_int (x : Q) : Z := Z.quot (Qnum x) (Zpos (Qden x)).

(** [if c: score += k] *)
Definition add_if (c : bool) (k : Q) (score : Q) : Q := if c then (score + k)%Q else score.

Definition pii_weights : list (string * Q) :=
  [("ssn",3);("dob",2);("acct",3);("routing",3);("email",1);("phone",1);("addr",1);("tin",2);("ein",2)]%Q.

Definition calculate_complexity (text : string) (fields : gmap string nat) (pages : nat)
    (sigs : SignatureAnalysis) (extra : option Extra) : Z :=
  let extra := default no_extra extra in
  let score : Q := 0%Q in
  let score := (score + Qmin (Qnat pages * 2) 10)%Q in                          (* de-emphasize length *)
  let score := (score + Qmin (Qnat (fields_get fields "total") * (3 # 10)) 15)%Q in (* de-emphasize fields *)
  let score := add_if (Nat.ltb 0 (signature_count sigs)) 4 score in
  let score := add_if (Nat.ltb 0 (witness_signature_count sigs)) 10 score in
  let score := add_if (Str.eqb (notarized sigs) "Yes") 12 score in
  let score := add_if (Str.contains "attach" text) 3 score in
  let score := add_if (nonempty (ex_attachments_req extra))
                 (Qmin 8 (2 + 2 * Qnat (length (ex_attachments_req extra)))) score in
  let score := add_if (ex_has_js extra) 4 score in
  let score := add_if (ex_has_js extra && Nat.leb 2 (ex_radio_groups extra)) 3 score in
  let roles := ex_roles extra in
  let score := (score + Qmin 18 (3 * Qnat (length (remove_dups roles))))%Q in
  (* 3rd-party coordination *)
  let tpr := ex_third_party_count extra in
  let score :=
    if Nat.leb 3 tpr then (score + 12)%Q
    else if Nat.eqb tpr 2 then (score + 8)%Q
    else if Nat.eqb tpr 1 then (score + 4)%Q
    else score in
  let tpro := ex_third_party_roles extra in
  let score := add_if (existsb (fun r => bool_decide (r ∈ tpro))
                         ["Physician";"Attorney";"Financial Advisor"]) 4 score in
  (* PII light (heavy in NIGO) *)
  let pii := ex_pii extra in
  let score := fold_left (fun score '(key, wt) => add_if (flag pii key) wt score)
                         pii_weights score in
  (* branch/layout *)
  let rg := ex_radio_groups extra in
  let score := add_if (Nat.leb 1 rg) (Qmin 6 (2 + 1 * Qnat rg)) score in
  let gfx := ex_gfx extra in
  let img_pp := images_per_page gfx in
  let draw_pp := drawings_per_page gfx in
  let score :=
    if Qle_bool 30 draw_pp then (score + 4)%Q
    else if Qle_bool 15 draw_pp then (score + 3)%Q
    else if Qle_bool 5 draw_pp then (score + 1)%Q
    else score in
  let score :=
    if Qle_bool 2 img_pp then (score + 3)%Q
    else if Qle_bool 1 img_pp then (score + 1)%Q
    else score in
  let score := add_if (ex_xfa_hint extra) 4 score in
  let score := add_if (Nat.leb 1 (ex_deadlines extra)) 2 score in
  let deps := ex_dependencies extra in
  let score :=
    if Nat.leb 2 deps then (score + 3)%Q
    else if Nat.eqb deps 1 then (score + 1)%Q
    else score in
  let score := add_if (ex_domain_mismatch extra) 2 score in
  py_int (Qmin score 100).

(* ================================================================== *)
(** * Title and industry *)
(* ================================================================== *)

Definition is_linebreak (c : ascii) : bool :=
  in_range 10 13 c || in_range 28 30 c || in_range 133 133 c.

(** [s.splitlines()] *)
Fixpoint splitlines_go (after_cr : bool) (cur : list ascii) (l : list ascii) : list string :=
  match l with
  | [] => match cur with [] => [] | _ => [Str.of_chars (rev cur)] end
  | c :: t =>
      if after_cr && Ascii.eqb c newline then splitlines_go false cur t
      else if is_linebreak c
      then Str.of_chars (rev cur) :: splitlines_go (Ascii.eqb c (ascii_of_N 13)) [] t
      else splitlines_go false (c :: cur) t
  end.
Definition splitlines (s : string) : list string := splitlines_go false [] (Str.chars s).

Definition meta_get (meta : list (string * string)) (k : string) : string :=
  default "" (snd <$> head (filter (fun '(k', _) => Str.eqb k' k) meta)).

Definition extract_title (meta : list (string * string)) (text : string) : string :=
  if negb (Str.is_empty (meta_get meta "title")) then meta_get meta "title" else
  match filter (fun line => Nat.ltb 5 (Str.len (Str.strip line))) (splitlines text) with
  | line :: _ => Str.slice_to 120 (Str.strip line)
  | [] => "Unknown Form"
  end.

Definition any_in (keys : list string) (hay : string) : bool :=
  existsb (fun k => Str.contains k hay) keys.

Definition classify_industry_subvertical (env : Env) (url text entity_name : string)
    : string * string :=
  let low := Str.lower text in
  let host := match netloc env url with Some h => Str.lower h | None => "" end in
  let both := host +:+ " " +:+ low in
  let fin := any_in ["fidelity";"vanguard";"schwab";"ameritrade";"morgan stanley";"us bank";
                     "wells fargo";"chase";"pnc";"account";"beneficiary";"ira";"401k";"brokerage"] both in
  let wealth := any_in ["custodian";"advisor";"wealth";"brokerage";"beneficiary";"ira";"roth";
                        "acat";"transfer of assets"] low in
  let banking := any_in ["ach";"routing number";"wire";"checking";"savings";"loan";"mortgage";
                         "account number"] low in
  let pnc_ins := any_in ["policy";"claim";"loss";"insured";"adjuster";"premium";"p&c";
                         "auto policy"] low in
  let health := any_in ["cigna";"aetna";"unitedhealth";"uhc";"hipaa";"prior authorization";
                        "member id"] both in
  let payer := any_in ["claim";"prior authorization";"eligibility";"member id";"edi 837";"payer"] low in
  let provider := any_in ["provider";"npi";"superbill";"encounter";"progress note"] low in
  let lfs := any_in ["informed consent";"clinical trial";"irb";"sponsor";"investigational"] low in
  let public := any_in [".gov";"gsa";"uscis";"irs";"ssa";"state of";"city of";"county of";
                        "school district"] both in
  let federal := any_in ["gsa";".gov";"irs";"ssa";"uscis";"va.gov";"dot.gov"] both
                 || Str.contains "federal" low in
  let sled := any_in ["state of";"county";"city of";"municipal";"township";"dmv";"permit";
                      "licensure"] low
              || any_in ["wa.gov";"ca.gov";"az.gov";"ny.gov"] host in
  let edu := any_in ["school";"university";"college";"district";"k-12";"education"] low in
  let nfp := any_in ["501(c)";"nonprofit";"not-for-profit";"charitable"] low in
  if fin then
    ("Financial Services",
     if wealth then "Wealth Management"
     else if pnc_ins then "P&C Insurance"
     else if banking then "Banking" else "Wealth Management")
  else if health then
    ("Healthcare",
     if payer then "Payer"
     else if provider then "Provider"
     else if lfs then "Life Sciences" else "Payer")
  else if public then
    ("Public Sector",
     if federal then "Federal Government"
     else if edu then "Education"
     else if sled then "State & Local"
     else if nfp then "Not-for-Profit" else "State & Local")
  else ("", "").

(* ================================================================== *)
(** * The result of one analysis *)
(* ================================================================== *)

(** the dictionary of a successful run *)
Record Analysis : Type := mkAnalysis {
  a_url : string;
  a_analysis_id : string;
  a_timestamp : string;
  a_entity_name : string;
  a_form_title : string;
  a_page_count : nat;
  a_field_count : nat;
  a_text_fields : nat;
  a_checkboxes : nat;
  a_dropdowns : nat;
  a_radio_groups : nat;
  a_signatures : nat;
  a_attachment_count : nat;
  a_attachment_requirements : list string;
  a_conditional_logic : string;
  a_multistep_logic_hint : bool;
  a_signature_analysis : SignatureAnalysis;
  a_roles_required : list string;
  a_third_party_roles : list string;
  a_third_party_evidence : list string;
  a_pii_fields : gmap string bool;
  a_images_per_page : Q;
  a_drawings_per_page : Q;
  a_text_density : Q;
  a_xfa_like : bool;
  a_nigo_risks : list Finding;
  a_nigo_score : Z;
  a_dependencies : list Dependency;
  a_deadlines : list string;
  a_host_domain_check : DomainTrust;
  a_industry : string;
  a_subvertical : string;
  a_complexity_score : Z;
  a_special_requirements_summary : list string;
}.

(** what [analyze_one] returns: the dictionary of a successful run, or the
    four entries [url], [status], [error], [analysis_id] of a failed one *)
Inductive Result : Type :=
| Success (a : Analysis)
| Failure (url error analysis_id : string).

Definition status (r : Result) : string :=
  match r with
  | Success _ => "success"
  | Failure _ _ _ => "error"
  end.

Definition success_keys : list string :=
  ["url";"analysis_id";"timestamp";"entity_name";"form_title";"page_count";"field_count";
   "text_fields";"checkboxes";"dropdowns";"radio_groups";"signatures";"attachment_count";
   "attachment_requirements";"conditional_logic";"multistep_logic_hint";"signature_analysis";
   "roles_required";"third_party_roles";"third_party_evidence";"pii_fields";"images_per_page";
   "drawings_per_page";"text_density";"xfa_like";"nigo_risks";"nigo_score";"dependencies";
   "deadlines";"host_domain_check";"industry";"subvertical";"complexity_score";"status";
   "special_requirements_summary"].

(** the keys of the returned dictionary *)
Definition keys (r : Result) : list string :=
  match r with
  | Success _ => success_keys
  | Failure _ _ _ => ["url";"status";"error";"analysis_id"]
  end.

Definition analysis_of (r : Result) : option Analysis :=
  match r with
  | Success a => Some a
  | Failure _ _ _ => None
  end.

(** [r.get("error")], [r.get("nigo_score")], ... *)
Definition error_of (r : Result) : option string :=
  match r with
  | Success _ => None
  | Failure _ e _ => Some e
  end.
Definition nigo_score_of (r : Result) : option Z := a_nigo_score <$> analysis_of r.
Definition complexity_score_of (r : Result) : option Z := a_complexity_score <$> analysis_of r.
Definition nigo_risks_of (r : Result) : option (list Finding) := a_nigo_risks <$> analysis_of r.
Definition deadlines_of (r : Result) : option (list string) := a_deadlines <$> analysis_of r.
Definition field_count_of (r : Result) : option nat := a_field_count <$> analysis_of r.

(* ================================================================== *)
(** * Special requirements summary *)
(* ================================================================== *)

Definition bullet (b : bool) (s : string) : list string := if b then [s] else [].

Definition summarize_special_requirements (result : Analysis) : list string :=
  let sig := a_signature_analysis result in
  let dm := a_host_domain_check result in
  let tpro := a_third_party_roles result in
  let bullets :=
    bullet (Str.eqb (notarized sig) "Yes") "Requires notarization"
    ++ bullet (Nat.ltb 0 (witness_signature_count sig)) "Requires witness signature"
    ++ bullet (Nat.ltb 0 (a_signatures result) || Nat.ltb 0 (signature_count sig))
         (pretty (Nat.max (a_signatures result) (signature_count sig)) +:+ " signature field(s)")
    ++ bullet (Nat.ltb 0 (a_attachment_count result) || nonempty (a_attachment_requirements result))
         "Requires supporting attachments"
    ++ bullet (Str.eqb (a_conditional_logic result) "Yes" || a_multistep_logic_hint result)
         "Conditional/JavaScript logic present"
    ++ bullet (flag (a_pii_fields result) "any_pii") "Collects sensitive PII"
    ++ bullet (Nat.leb 2 (a_radio_groups result)) "Multiple radio groups (branching choices)"
    ++ bullet (Nat.leb 8 (a_page_count result)) "Long form (8+ pages)"
    ++ bullet (nonempty (a_deadlines result)) "Mentions submission timing/deadlines"
    ++ bullet (nonempty (a_dependencies result)) "References other required forms"
    ++ bullet (mismatch dm) "Hosted on domain different from issuer"
    ++ bullet (nonempty tpro) ("Involves third party: " +:+ Str.join ", " tpro) in
  dedupe_by id [] bullets.

(* ================================================================== *)
(** * Analyze one *)
(* ================================================================== *)

Definition role_finding (n : nat) : Finding :=
  mkFinding "ROLE-001" "medium" None "" "signature"
    "Signature line(s) without role attribution (e.g., Applicant, Co-owner, Notary)."
    ("Detected " +:+ pretty n +:+ " signature(s) with no labeled role.").

Definition third_party_finding (third_party_roles : list string) : Finding :=
  mkFinding "THRD-001" "medium" None "" "third_party"
    "Third-party involvement requires coordination (scheduling, credential validation)."
    ("Detected third-party role(s): " +:+ Str.join ", " third_party_roles).

(** a URL is downloaded, anything else is read as a file *)
Definition acquire (env : Env) (item : string) : exc (Pdf * string) :=
  if Re.matches_prefix "^https?://" item Re.I
  then pdf ← _download env item; Ok (pdf, item)
  else pdf ← read_file env item; Ok (pdf, abspath env item).

(** the body of the [try] block *)
Definition analyze_body (env : Env) (rid : string) (item : string) (brand_map : BrandMap)
    : exc Analysis :=
  '(pdf, url) ← acquire env item;

  let text := extract_text pdf in
  doc ← _open_doc pdf;
  let meta := metadata doc in
  let pages := length (pages doc) in

  let fields := count_fields pdf in
  let sigs := analyze_signatures pdf text in
  let attach_c := count_attachments pdf in
  let has_js := detect_js pdf in

  let pii := detect_pii text in
  let attach_r := detect_attachment_requirements text in
  let roles := detect_roles text in
  let radios := count_radio_groups pdf in
  let gfx := page_graphics_stats env pdf in
  let xfa := xfa_like_hint env text meta in
  let nigo_r := nigo_design_checks pdf in

  let deps := detect_dependencies text in
  let dls := detect_deadlines text in
  let entity := extract_entity_name_financial text url in
  domain ← host_domain_info env url entity text meta brand_map;
  let '(industry, subvertical) := classify_industry_subvertical env url text entity in

  (* third-party roles *)
  let tp := detect_third_parties text in
  let third_party_roles := tp_roles tp in
  let third_party_evidence := tp_evidence tp in

  (* signatures present but roles empty: "Unspecified Signer" and ROLE-001 *)
  let unattributed := Nat.ltb 0 (signature_count sigs) && negb (nonempty roles) in
  let roles := if unattributed then ["Unspecified Signer"] else roles in
  let missing_role_findings :=
    if unattributed then [role_finding (signature_count sigs)] else [] in
  let nigo_r := nigo_r ++ missing_role_findings in

  (* third-party coordination risk *)
  let nigo_r :=
    if nonempty third_party_roles
    then nigo_r ++ [third_party_finding third_party_roles] else nigo_r in

  let nigo_score := calculate_nigo_score nigo_r pii in

  let res :=
    {| a_url := url;
       a_analysis_id := rid;
       a_timestamp := now_isoformat env;
       a_entity_name := entity;
       a_form_title := extract_title meta text;
       a_page_count := pages;
       a_field_count := fields_get fields "total";
       a_text_fields := fields_get fields "text_fields";
       a_checkboxes := fields_get fields "checkboxes";
       a_dropdowns := fields_get fields "dropdowns";
       a_radio_groups := radios;
       a_signatures := fields_get fields "signatures";
       a_attachment_count := attach_c;
       a_attachment_requirements := attach_r;
       a_conditional_logic := has_js;
       a_multistep_logic_hint := Str.eqb has_js "Yes" && Nat.leb 2 radios;
       a_signature_analysis := sigs;
       a_roles_required := roles;
       a_third_party_roles := third_party_roles;
       a_third_party_evidence := third_party_evidence;
       a_pii_fields := pii;
       a_images_per_page := images_per_page gfx;
       a_drawings_per_page := drawings_per_page gfx;
       a_text_density := text_density gfx;
       a_xfa_like := xfa;
       a_nigo_risks := nigo_r;
       a_nigo_score := nigo_score;
       a_dependencies := deps;
       a_deadlines := dls;
       a_host_domain_check := domain;
       a_industry := industry;
       a_subvertical := subvertical;
       a_complexity_score :=
         calculate_complexity text fields pages sigs
           (Some {| ex_pii := pii; ex_roles := roles; ex_attachments_req := attach_r;
                    ex_radio_groups := radios; ex_gfx := gfx; ex_xfa_hint := xfa;
                    ex_has_js := Str.eqb has_js "Yes"; ex_deadlines := length dls;
                    ex_dependencies := length deps;
                    ex_domain_mismatch := mismatch domain;
                    ex_third_party_count := length third_party_roles;
                    ex_third_party_roles := third_party_roles |});
       a_special_requirements_summary := [] |} in
  Ok (let s := summarize_special_requirements res in
      mkAnalysis (a_url res) (a_analysis_id res) (a_timestamp res) (a_entity_name res)
        (a_form_title res) (a_page_count res) (a_field_count res) (a_text_fields res)
        (a_checkboxes res) (a_dropdowns res) (a_radio_groups res) (a_signatures res)
        (a_attachment_count res) (a_attachment_requirements res) (a_conditional_logic res)
        (a_multistep_logic_hint res) (a_signature_analysis res) (a_roles_required res)
        (a_third_party_roles res) (a_third_party_evidence res) (a_pii_fields res)
        (a_images_per_page res) (a_drawings_per_page res) (a_text_density res)
        (a_xfa_like res) (a_nigo_risks res) (a_nigo_score res) (a_dependencies res)
        (a_deadlines res) (a_host_domain_check res) (a_industry res) (a_subvertical res)
        (a_complexity_score res) s).

Definition analyze_one (env : Env) (item : string) (brand_map : BrandMap) : Result :=
  let rid := uuid4 env in
  match analyze_body env rid item brand_map with
  | Ok res => Success res
  | Raised e => Failure item e rid
  end.

(* ================================================================== *)
(** * Notions used to state the properties *)
(* ================================================================== *)

(** the original-case text of the document: the page texts [extract_text]
    joins, before it lower-cases and normalizes them *)
Definition raw_text (pdf : Pdf) : string :=
  match plumber_texts pdf with
  | Some texts => Str.join NL (filter (fun t => negb (Str.is_empty t)) texts)
  | None =>
      match _open_doc pdf with
      | Ok doc => Str.join NL (map page_text (pages doc))
      | Raised _ => ""
      end
  end.

(** increasing order of [str]: code point by code point *)
Definition str_lt (a b : string) : Prop := String.compare a b = Lt.

(** Stated from the specification: the layout heuristic of the signature
    fallback, keyed on the text [key] and capped at [cap] in total.  For
    each page, the blocks whose text matches [key] are found; a block
    counts when a near-horizontal line crosses the band beneath and right
    of it, or when its text holds a run of underscores; at most 2 count
    per page. *)
Definition spec_layout_heuristic (key : string) (cap : nat) (doc : Doc) : nat :=
  Nat.min
    (sum_by (fun pg =>
       Nat.min
         (count_where
            (fun '(r, txt) =>
               close_line (band_of r) (horizontal_lines (page_drawings pg))
               || has_underline txt)
            (keyed_blocks key (page_blocks pg)))
         2)
       (pages doc))
    cap.

(** the same heuristic without the underscore criterion *)
Definition line_only_heuristic (key : string) (cap : nat) (doc : Doc) : nat :=
  Nat.min
    (sum_by (fun pg =>
       Nat.min
         (count_where
            (fun '(r, _) => close_line (band_of r) (horizontal_lines (page_drawings pg)))
            (keyed_blocks key (page_blocks pg)))
         2)
       (pages doc))
    cap.

(** the same document with other widgets and other digital signatures *)
Definition with_widgets (ws : Page → list Widget) (pg : Page) : Page :=
  mkPage (page_text pg) (page_blocks pg) (page_blocks_clip pg) (page_drawings pg)
         (ws pg) (page_images pg) (page_actions pg) (page_javascript pg).

Definition with_signature_evidence (ws : Page → list Widget) (hanko : option (list bool))
    (pdf : Pdf) : Pdf :=
  mkPdf (plumber_texts pdf)
        (doc ← fitz_doc pdf;
         Ok (mkDoc (metadata doc) (map (with_widgets ws) (pages doc))
                   (embedded_file_count doc) (doc_actions doc) (doc_has_js doc)))
        hanko.

(** the same environment at another run: another identifier, another time *)
Definition at_run (env : Env) (rid now : string) : Env :=
  mkEnv rid now (_download env) (read_file env) (abspath env) (netloc env)
        (tldextract env) (json_dumps env) (round2 env).

(** ** Sample documents and environments *)
Module Sample.

Definition box : Rect := mkRect 72 700 300 712.

Definition text_page (t : string) (blocks : list Block) : Page :=
  mkPage t blocks (fun _ => Some []) [] [] 0 (Some false) (Some false).

(** one page, one block ["Witness: ________"], no drawing, no widget *)
Definition witness_doc : Doc :=
  mkDoc [] [text_page "Witness: ________" [mkBlock box (Some "Witness: ________")]]
        (Some 0) false false.
Definition witness_pdf : Pdf := mkPdf None (Ok witness_doc) None.

(** one page with the text ["Postmarked By June 1"] *)
Definition deadline_doc : Doc :=
  mkDoc [] [text_page "Postmarked By June 1" [mkBlock box (Some "Postmarked By June 1")]]
        (Some 0) false false.
Definition deadline_pdf : Pdf := mkPdf (Some ["Postmarked By June 1"]) (Ok deadline_doc) None.

(** one page with a signature widget, the text says "signature" *)
Definition sig_widget : Widget :=
  mkWidget PDF_WIDGET_TYPE_SIGNATURE true "sig1" "" true box (Some false).
Definition signed_page : Page :=
  mkPage "Signature: ________" [mkBlock box (Some "Signature: ________")]
         (fun _ => Some []) [] [sig_widget] 0 (Some false) (Some false).
Definition signed_pdf : Pdf :=
  mkPdf None (Ok (mkDoc [] [signed_page] (Some 0) false false)) None.
(** the same page without the widget *)
Definition unsigned_pdf : Pdf :=
  mkPdf None (Ok (mkDoc [] [with_widgets (fun _ => []) signed_page] (Some 0) false false)) None.

(** an environment in which every URL is served from [host] and holds [pdf] *)
Definition serving (host : string) (pdf : exc Pdf) : Env :=
  mkEnv "00000000-0000-4000-8000-000000000000" "2025-09-01T00:00:00"
        (fun _ => pdf) (fun _ => pdf) (fun p => p)
        (fun _ => Some host) None (fun _ => "{}") (fun q => q).

End Sample.

(** the keyword arguments of [calculate_complexity] as a stored result
    holds them *)
Definition extra_of (a : Analysis) : Extra :=
  {| ex_pii := a_pii_fields a;
     ex_roles := a_roles_required a;
     ex_attachments_req := a_attachment_requirements a;
     ex_radio_groups := a_radio_groups a;
     ex_gfx := mkGfx (a_images_per_page a) (a_drawings_per_page a) (a_text_density a);
     ex_xfa_hint := a_xfa_like a;
     ex_has_js := Str.eqb (a_conditional_logic a) "Yes";
     ex_deadlines := length (a_deadlines a);
     ex_dependencies := length (a_dependencies a);
     ex_domain_mismatch := mismatch (a_host_domain_check a);
     ex_third_party_count := length (a_third_party_roles a);
     ex_third_party_roles := a_third_party_roles a |}.

(** a run of two whitespace characters, as a test *)
Fixpoint has_ws_run (l : list ascii) : bool :=
  match l with
  | c :: t => match t with
              | d :: _ => (is_space c && is_space d) || has_ws_run t
              | [] => false
              end
  | [] => false
  end.

(** length of the longest prefix of [l] inside the class [q] *)
Fixpoint lead (q : ascii → bool) (l : list ascii) : nat :=
  match l with
  | c :: t => if q c then S (lead q t) else 0
  | [] => 0
  end.

Definition starts_outside (q : ascii → bool) (l : list ascii) : Prop :=
  match l with c :: _ => q c = false | [] => True end.

(** what [re] compiles the pattern of the third substitution to *)
Definition ws2 : Re.regex := Re.Seq (Re.Rep true 2 None (Re.Cls is_space)) Re.Eps.

(** every pattern of the module *)
Definition all_patterns : list string :=
  ["(\w)-\s*\n\s*(\w)"; "\s*\n\s*"; "\s{2,}"; "^https?://";
   "\bsignature\b"; "\bwitness\b"; "_{5,}|_{3,}\s*/{0,1}";
   "if.*sign"; "when.*sign"; "unless.*sign"; "\b(date)\b"; "\b(beneficiary|dependent)\b";
   Str.join "|" NOTARY_PATTERNS; FORM_TOKEN]
  ++ SIG_PATTERNS ++ WITNESS_PATTERNS ++ NOTARY_PATTERNS ++ map snd PII_PATTERNS ++ ATTACHMENT_HINTS ++ map snd ROLE_HINTS
  ++ map snd THIRD_PARTY_PATTERNS ++ map snd FIELD_CLASS_PATTERNS
  ++ map snd DEPENDENCY_PATTERNS ++ DEADLINE_PATTERNS.

(* ================================================================== *)
(** * Industry tables *)
(* ================================================================== *)

Definition INDUSTRY_SET : list string :=
  ["Financial Services"; "Healthcare"; "Public Sector"].

Definition SUBVERTICALS : list (string * list string) :=
  [("Financial Services", ["Wealth Management"; "P&C Insurance"; "Banking"]);
   ("Healthcare", ["Payer"; "Provider"; "Life Sciences"]);
   ("Public Sector", ["Federal Government"; "State & Local"; "Education"; "Not-for-Profit"])].

(* ================================================================== *)
(** * Brand configuration *)
(* ================================================================== *)

(** what [yaml.safe_load] returns: a scalar (with its [str(v)] and its
    [bool(v)]), a sequence or a mapping *)
#[warnings="-register-all"] Inductive Yaml : Type :=
| YScalar (text : string) (truth : bool)
| YSeq (items : list Yaml)
| YMap (entries : list (Yaml * Yaml)).

Definition yaml_truthy (y : Yaml) : bool :=
  match y with
  | YScalar _ t => t
  | YSeq l => nonempty l
  | YMap l => nonempty l
  end.

(** [str(v)]; [repr] prints the sequences and mappings *)
Definition yaml_str (repr : Yaml → string) (y : Yaml) : string :=
  match y with
  | YScalar text _ => text
  | _ => repr y
  end.

(** [d[k] = v] on a dictionary kept in insertion order *)
Fixpoint dict_set {V} (k : string) (v : V) (d : list (string * V)) : list (string * V) :=
  match d with
  | [] => [(k, v)]
  | (k', v') :: t => if Str.eqb k' k then (k, v) :: t else (k', v') :: dict_set k v t
  end.

(** the issuer-to-domains map of the YAML file; [config] is [None] when the
    file is missing, PyYAML is not installed or loading raises *)
Definition load_brand_config (repr : Yaml → string) (config : option Yaml) : BrandMap :=
  let str := yaml_str repr in
  let builtin := builtin_brands in
  match config with
  | None => builtin
  | Some y =>
      (* [y = yaml.safe_load(f) or {}] *)
      match (if yaml_truthy y then y else YMap []) with
      | YMap top =>
          let brands := snd <$> head (filter (fun '(k, _) => Str.eqb (str k) "brands") top) in
          let source :=
            match brands with
            | Some b => if yaml_truthy b then b else YMap top
            | None => YMap top
            end in
          match source with
          | YMap entries =>
              let out :=
                fold_left (fun out '(k, v) =>
                  match v with
                  | YSeq doms => dict_set (str k) (map (fun d => Str.lower (str d)) doms) out
                  | _ => out
                  end) entries [] in
              if nonempty out then out else builtin
          | _ => builtin     (* no [items]: the exception falls back *)
          end
      | _ => builtin         (* no [get]: the exception falls back *)
      end
  end.

(* ================================================================== *)
(** * Batch input and output *)
(* ================================================================== *)

(** the items of an input file, given the lines the file yields *)
Definition load_inputs (lines : list string) : list string :=
  filter (fun line => negb (Str.is_empty line)
                      && negb (Str.starts_with (Str.chars "#") (Str.chars line)))
         (map Str.strip lines).

Definition csv_header : list string :=
  ["form_title";"url";"page";"field_name";"field_class";"rule_id";"severity";"issue";
   "evidence";"nigo_score"].

(** the cells [write_csv] hands to [writerow] for one result; [None] is
    written as the empty cell *)
Definition result_rows (r : Result) : list (list string) :=
  let form_title := match r with Success a => a_form_title a | Failure _ _ _ => "" end in
  let url := match r with Success a => a_url a | Failure u _ _ => u end in
  let risks := default [] (nigo_risks_of r) in
  match risks with
  | [] =>
      [[form_title; url; ""; ""; ""; ""; ""; "NO_NIGO"; "";
        pretty (default 0%Z (nigo_score_of r))]]
  | _ =>
      map (fun g =>
             [form_title; url;
              match page g with Some n => pretty n | None => "" end;
              finding_field_name g; field_class g; rule_id g; severity g; issue g;
              evidence g])
          risks
  end.

Definition csv_rows (results : list Result) : list (list string) :=
  csv_header :: flat_map result_rows results.

(** the items [main] analyzes: [--url] overrides [--inputs]; nothing to
    analyze exits *)
Definition main_items (url : string) (inputs : option (list string)) : exc (list string) :=
  let items :=
    if negb (Str.is_empty url) then [url]
    else match inputs with Some lines => load_inputs lines | None => [] end in
  if nonempty items then Ok items else Raised "Provide --url or --inputs".

(** the results of a batch; [envs i] is the environment of the [i]-th run *)
Definition main_results (envs : nat → Env) (items : list string) (brand_map : BrandMap)
    : list Result :=
  imap (fun i it => analyze_one (envs i) it brand_map) items.

(* ================================================================== *)
(** * Notions used to state further properties *)
(* ================================================================== *)

(** the haystack of [_infer_field_class] *)
Definition hay_of (name alt label : string) : string :=
  Str.lower (Str.join " " (filter (λ s, negb (Str.is_empty s)) [name; alt; label])).



(** a string without white space at either end, as [strip] leaves it *)
Definition stripped (s : string) : Prop :=
  ∀ c, head (Str.chars s) = Some c ∨ last (Str.chars s) = Some c → is_space c = false.

(** what [re] compiles the pattern of the second substitution to *)
Definition nl_run : Re.regex :=
  Re.Seq (Re.Rep true 0 None (Re.Cls is_space))
    (Re.Seq (Re.Cls (Ascii.eqb newline))
       (Re.Seq (Re.Rep true 0 None (Re.Cls is_space)) Re.Eps)).

(** a text without line feed *)
Definition no_newline (s : string) : Prop := Forall (λ c, c ≠ newline) (Str.chars s).

(** no signature of any kind *)
Definition no_signatures : SignatureAnalysis := mkSigs 0 0 0 "No" (mkSigDebug 0 0 0).

(** the field counts of a form with [n] widgets of no counted type *)
Definition plain_fields (n : nat) : gmap string nat := <["total" := n]> ∅.


(* ================================================================== *)
(** * Properties *)
(* ================================================================== *)

(** ** Characters and strings *)

Lemma ascii_forall (P : ascii → Prop) :
  (∀ b0 b1 b2 b3 b4 b5 b6 b7, P (Ascii b0 b1 b2 b3 b4 b5 b6 b7)) → ∀ c, P c.
Proof. intros H [b0 b1 b2 b3 b4 b5 b6 b7]. apply H. Qed.

Lemma lower_char_not_upper c : is_upper (lower_char c) = false.
Proof.
  revert c. apply ascii_forall.
  intros [] [] [] [] [] [] [] []; vm_compute; reflexivity.
Qed.

Lemma chars_of_chars l : Str.chars (Str.of_chars l) = l.
Proof. apply list_ascii_of_string_of_list_ascii. Qed.

Lemma of_chars_chars s : Str.of_chars (Str.chars s) = s.
Proof. apply string_of_list_ascii_of_string. Qed.

Lemma lower_is_lowercase s : entirely_lowercase (Str.lower s).
Proof.
  unfold entirely_lowercase, Str.lower. rewrite chars_of_chars.
  apply Forall_forall. intros c [d [-> _]]%list_elem_of_fmap.
  apply lower_char_not_upper.
Qed.

Lemma lowercase_fixed_by_lower s : entirely_lowercase s → Str.lower s = s.
Proof.
  unfold entirely_lowercase, Str.lower. intros H.
  rewrite <-(of_chars_chars s) at 2. f_equal.
  induction H as [|c l Hc _ IH]; simpl; [done|].
  unfold lower_char at 1. rewrite Hc. by f_equal.
Qed.

Lemma empty_is_lowercase : entirely_lowercase "".
Proof. constructor. Qed.

Lemma lstrip_Forall (P : ascii → Prop) l : Forall P l → Forall P (Str.lstrip_chars l).
Proof.
  induction 1 as [|c l Hc Hl IH]; simpl; [constructor|].
  destruct (is_space c); [done|by constructor].
Qed.

Lemma strip_Forall (P : ascii → Prop) l : Forall P l → Forall P (Str.strip_chars l).
Proof.
  intros H. unfold Str.strip_chars.
  apply Forall_rev, lstrip_Forall, Forall_rev, lstrip_Forall, H.
Qed.

Lemma has_ws_run_false l :
  has_ws_run l = false →
  ∀ i c d, l !! i = Some c → l !! S i = Some d → is_space c && is_space d = false.
Proof.
  induction l as [|a t IH]; intros H i c d Hc Hd; [done|].
  destruct t as [|b t']; [done|].
  cbn [has_ws_run] in H. apply orb_false_iff in H as [Hab Ht].
  destruct i as [|i]; simpl in Hc, Hd.
  - by simplify_eq.
  - by apply (IH Ht i).
Qed.

(** ** The order of strings *)

Lemma str_lt_le a b : str_lt a b ↔ String.le a b ∧ a ≠ b.
Proof.
  unfold str_lt, String.le, String.leb. split.
  - intros H. rewrite H. split; [done|]. intros ->.
    pose proof (String.compare_antisym b b) as Ha. rewrite H in Ha. done.
  - intros [H1 H2]. destruct (String.compare a b) eqn:E; [|done|done].
    apply String.compare_eq_iff in E. done.
Qed.

Lemma str_lt_trans a b c : str_lt a b → str_lt b c → str_lt a c.
Proof.
  rewrite !str_lt_le. intros [H1 N1] [H2 N2]. split; [by etrans|].
  intros ->. apply N1. by apply (anti_symm String.le).
Qed.

Lemma str_lt_irrefl a : ¬ str_lt a a.
Proof. rewrite str_lt_le. intros [_ H]. by apply H. Qed.

Lemma str_gt_lt a b : String.compare a b = Gt → str_lt b a.
Proof. unfold str_lt. intros H. rewrite String.compare_antisym, H. done. Qed.

Lemma insert_sorted_elem x y l : y ∈ insert_sorted x l ↔ y = x ∨ y ∈ l.
Proof.
  induction l as [|z l IH]; simpl.
  - rewrite list_elem_of_singleton. split; [auto|]. intros [?|?%elem_of_nil]; done.
  - destruct (String.compare x z) eqn:E.
    + apply String.compare_eq_iff in E as ->. rewrite elem_of_cons. tauto.
    + rewrite !elem_of_cons. tauto.
    + rewrite !elem_of_cons, IH. tauto.
Qed.

Lemma sorted_set_elem y l : y ∈ sorted_set l ↔ y ∈ l.
Proof.
  induction l as [|x l IH]; simpl; [done|].
  rewrite insert_sorted_elem, IH, elem_of_cons. tauto.
Qed.

Lemma insert_sorted_sorted x l :
  StronglySorted str_lt l → StronglySorted str_lt (insert_sorted x l).
Proof.
  induction 1 as [|z l Hs IH Hz]; simpl; [repeat constructor|].
  destruct (String.compare x z) eqn:E.
  - by constructor.
  - constructor; [by constructor|]. constructor; [done|].
    eapply Forall_impl; [exact Hz|]. intros w Hw. by eapply str_lt_trans.
  - constructor; [done|]. apply Forall_forall. intros w [->|Hw]%insert_sorted_elem.
    + by apply str_gt_lt.
    + rewrite Forall_forall in Hz. by apply Hz.
Qed.

Lemma sorted_set_sorted l : StronglySorted str_lt (sorted_set l).
Proof. induction l; simpl; [constructor|by apply insert_sorted_sorted]. Qed.

Lemma strictly_sorted_NoDup l : StronglySorted str_lt l → NoDup l.
Proof.
  induction 1 as [|z l Hs IH Hz]; constructor; [|done].
  intros Hin. rewrite Forall_forall in Hz. by apply (str_lt_irrefl z), Hz.
Qed.

(** ** The matcher *)

Lemma patterns_wellformed : forallb Re.wellformed all_patterns = true.
Proof. vm_compute. reflexivity. Qed.

Section Pieces.
(** what [re] returns is cut out of the subject *)
Variable P : ascii → Prop.
Variable r : Re.regex.

Lemma finditer_go_Forall l : ∀ p skip,
  Forall P l → Forall (Forall P) (Re.finditer_go r p skip l).
Proof.
  induction l as [|c t IH]; intros p skip Hl.
  - destruct skip; simpl; [|constructor].
    destruct (Re.match_at r p []); repeat constructor. by destruct n.
  - apply Forall_cons in Hl as Hl'. destruct Hl' as [Hc Ht].
    destruct skip as [|k]; simpl; [|by apply IH].
    destruct (Re.match_at r p (c :: t)) as [n|]; [|by apply IH].
    constructor; [by apply Forall_take|by apply IH].
Qed.

(** a substitution keeps a property of the characters that its
    replacement keeps *)
Variable repl : list ascii → list ascii.
Hypothesis repl_keeps : ∀ m, Forall P m → Forall P (repl m).

Lemma sub_go_Forall l : ∀ p skip,
  Forall P l → Forall P (Re.sub_go r repl p skip l).
Proof.
  induction l as [|c t IH]; intros p skip Hl.
  - destruct skip; simpl; [|constructor].
    destruct (Re.match_at r p []); [|constructor].
    rewrite app_nil_r. apply repl_keeps. destruct n; constructor.
  - apply Forall_cons in Hl as [Hc Ht].
    destruct skip as [|k]; simpl; [|by apply IH].
    destruct (Re.match_at r p (c :: t)) as [n|].
    + apply Forall_app. split.
      * apply repl_keeps. apply Forall_take. by constructor.
      * apply Forall_app. split; [destruct (Nat.eqb n 0); by repeat constructor|].
        by apply IH.
    + constructor; [done|]. by apply IH.
Qed.
End Pieces.

Lemma first_and_last_Forall (P : ascii → Prop) m :
  Forall P m → Forall P (first_and_last m).
Proof.
  intros H. destruct m as [|c t]; [constructor|].
  unfold first_and_last. apply Forall_cons in H as H'. destruct H' as [Hc Ht].
  repeat constructor; [done|].
  assert (Hin : In (List.last (c :: t) c) (c :: t)).
  { clear. generalize c at 1 3. induction t as [|d t IH]; intros a; simpl; [auto|].
    right. destruct t; [simpl; auto|]. apply (IH d). }
  rewrite Forall_forall in H. apply H. by apply list_elem_of_In.
Qed.

Lemma one_space_lowercase m :
  Forall (λ c, is_upper c = false) m → Forall (λ c, is_upper c = false) (one_space m).
Proof. intros _. by repeat constructor. Qed.

(** *** The greedy run of a class *)

Lemma lead_le q l : lead q l ≤ length l.
Proof. induction l as [|c t IH]; simpl; [lia|]. destruct (q c); simpl; lia. Qed.

Lemma drop_lead_outside q l : starts_outside q (drop (lead q l) l).
Proof.
  induction l as [|c t IH]; simpl; [done|].
  destruct (q c) eqn:E; simpl; done.
Qed.

Lemma rep_cls_head q fuel : ∀ lo p l,
  length l < fuel →
  match Re.rep (Re.run (Re.Cls q)) true lo None fuel (Re.MState p l) with
  | s' :: _ => lo ≤ lead q l ∧ Re.rest s' = drop (lead q l) l
  | [] => lead q l < lo
  end.
Proof.
  induction fuel as [|fuel IH]; intros lo p l Hlen; [lia|].
  cbn [Re.rep Re.hi_allows Re.run Re.rest].
  destruct l as [|c t].
  - cbn. destruct lo; cbn; [split; [lia|done]|lia].
  - destruct (q c) eqn:E.
    + cbn [flat_map Re.rest length app].
      assert (Hlt : Nat.ltb (length t) (S (length t)) = true) by (apply Nat.ltb_lt; lia).
      cbn [length] in *. rewrite Hlt. rewrite app_nil_r.
      specialize (IH (Nat.pred lo) (Some c) t ltac:(lia)).
      cbn [fmap option_fmap option_map] in *.
      simpl lead. rewrite E.
      destruct (Re.rep _ true (Nat.pred lo) None fuel _) as [|s' ss].
      * cbn. destruct lo; cbn; lia.
      * cbn. destruct IH as [H1 H2]. split; [lia|done].
    + cbn. rewrite E. destruct lo; cbn; [split; [lia|done]|lia].
Qed.

Lemma compile_ws2 : Re.compile Re.NOFLAG "\s{2,}" = ws2.
Proof. reflexivity. Qed.

Lemma flat_map_singleton {A} (l : list A) : flat_map (λ x, [x]) l = l.
Proof. induction l; simpl; by f_equal. Qed.

(** [\s{2,}] matches at a position exactly when two or more whitespace
    characters start there, and then it takes them all *)
Lemma match_at_ws2 p l :
  Re.match_at ws2 p l = if Nat.leb 2 (lead is_space l) then Some (lead is_space l) else None.
Proof.
  unfold Re.match_at, ws2. cbn [Re.run].
  change (Re.run Re.Eps) with (λ s : Re.mstate, [s]). rewrite flat_map_singleton.
  pose proof (rep_cls_head is_space (S (length l)) 2 p l ltac:(cbn; lia)) as H.
  cbn [Re.rest]. destruct (Re.rep _ _ _ _ _ _) as [|s' ss].
  - destruct (Nat.leb_spec 2 (lead is_space l)); [lia|done].
  - destruct H as [H1 H2]. destruct (Nat.leb_spec 2 (lead is_space l)); [|lia].
    f_equal. rewrite H2, length_drop. pose proof (lead_le is_space l). lia.
Qed.

(** after the third substitution no two whitespace characters are adjacent *)
Lemma shrink_spaces_ok l : ∀ p skip,
  let out := Re.sub_go ws2 one_space p skip l in
  has_ws_run out = false ∧
  (starts_outside is_space (drop skip l) → starts_outside is_space out).
Proof.
  induction l as [|c t IH]; intros p skip; cbn zeta.
  - destruct skip; cbn [Re.sub_go]; [|done]. rewrite match_at_ws2. simpl. done.
  - destruct skip as [|k].
    + cbn [Re.sub_go]. rewrite match_at_ws2.
      destruct (Nat.leb_spec 2 (lead is_space (c :: t))) as [Hge|Hlt].
      * destruct (lead is_space (c :: t)) as [|n] eqn:En; [lia|].
        replace (Nat.eqb (S n) 0) with false by done. cbn [Nat.pred app one_space].
        destruct (IH (Some c) n) as [H1 H2].
        pose proof (drop_lead_outside is_space (c :: t)) as Hd. rewrite En in Hd.
        cbn [drop] in Hd. specialize (H2 Hd).
        split.
        -- cbn [has_ws_run].
           destruct (Re.sub_go ws2 one_space (Some c) n t) as [|d out'] eqn:Eo; [done|].
           cbn in H2. rewrite H2, andb_false_r. simpl. exact H1.
        -- cbn [drop starts_outside]. intros Hc. simpl in En. rewrite Hc in En. done.
      * destruct (IH (Some c) 0) as [H1 H2]. rewrite drop_0 in H2.
        split.
        -- cbn [has_ws_run].
           destruct (Re.sub_go ws2 one_space (Some c) 0 t) as [|d out'] eqn:Eo; [done|].
           rewrite H1, orb_false_r.
           destruct (is_space c) eqn:Ec; [|done]. simpl.
           apply H2. simpl in Hlt. rewrite Ec in Hlt.
           destruct t as [|e t']; [done|]. simpl in *. destruct (is_space e); [lia|done].
        -- cbn [drop starts_outside]. done.
    + cbn [Re.sub_go drop]. apply IH.
Qed.

(** ** Text normalization *)

Lemma sub_lowercase pat repl s :
  (∀ m, Forall (λ c, is_upper c = false) m → Forall (λ c, is_upper c = false) (repl m)) →
  entirely_lowercase s → entirely_lowercase (Re.sub pat repl s).
Proof.
  intros Hrepl Hs. unfold entirely_lowercase, Re.sub. rewrite chars_of_chars.
  by apply sub_go_Forall.
Qed.

Lemma normalize_lowercase raw :
  entirely_lowercase raw → entirely_lowercase (_normalize_text_for_rules raw).
Proof.
  intros H. unfold _normalize_text_for_rules.
  destruct (Str.is_empty raw); [apply empty_is_lowercase|].
  apply sub_lowercase; [apply one_space_lowercase|].
  apply sub_lowercase; [apply one_space_lowercase|].
  apply sub_lowercase; [apply first_and_last_Forall|]. done.
Qed.

Lemma normalize_single_spaced raw : no_whitespace_run (_normalize_text_for_rules raw).
Proof.
  unfold no_whitespace_run, _normalize_text_for_rules.
  destruct (Str.is_empty raw); [intros [|i] c d; done|].
  apply has_ws_run_false.
  unfold Re.sub at 1. rewrite compile_ws2, chars_of_chars.
  apply (shrink_spaces_ok _ None 0).
Qed.

Lemma extract_text_cases pdf :
  extract_text pdf = "" ∨ extract_text pdf = _normalize_text_for_rules (Str.lower (raw_text pdf)).
Proof.
  unfold extract_text, raw_text.
  destruct (plumber_texts pdf); [by right|].
  destruct (_open_doc pdf); [by left|by right].
Qed.

Lemma extract_text_lowercase pdf : entirely_lowercase (extract_text pdf).
Proof.
  destruct (extract_text_cases pdf) as [->| ->]; [apply empty_is_lowercase|].
  apply normalize_lowercase, lower_is_lowercase.
Qed.

Lemma extract_text_single_spaced pdf : no_whitespace_run (extract_text pdf).
Proof.
  destruct (extract_text_cases pdf) as [->| ->]; [intros [|i] c d; done|].
  apply normalize_single_spaced.
Qed.

(** C6: for every raw input string, the empty one included, text
    normalization returns (it is a total function), maps empty input to
    empty output, and the normalized text -- the raw text lower-cased and
    passed through [_normalize_text_for_rules], which is what
    [extract_text] returns for every document -- is entirely lowercase and
    has no two consecutive whitespace characters. *)
Theorem normalized_text_lowercase_single_spaced :
  _normalize_text_for_rules "" = "" ∧
  _normalize_text_for_rules (Str.lower "") = "" ∧
  (∀ raw, ∃ t, _normalize_text_for_rules (Str.lower raw) = t ∧
               entirely_lowercase t ∧ Str.lower t = t ∧ no_whitespace_run t) ∧
  (∀ pdf, entirely_lowercase (extract_text pdf) ∧ no_whitespace_run (extract_text pdf)).
Proof.
  split; [reflexivity|]. split; [reflexivity|]. split.
  - intros raw. eexists. split; [reflexivity|].
    pose proof (normalize_lowercase _ (lower_is_lowercase raw)) as Hl.
    split; [exact Hl|]. split; [by apply lowercase_fixed_by_lower|].
    apply normalize_single_spaced.
  - intros pdf. split; [apply extract_text_lowercase|apply extract_text_single_spaced].
Qed.

(** ** Deadlines *)

Lemma detect_deadlines_elem text x :
  x ∈ detect_deadlines text ↔
  text ≠ "" ∧
  ∃ pat m, pat ∈ DEADLINE_PATTERNS ∧ m ∈ Re.finditer pat text Re.I ∧ x = Str.strip m.
Proof.
  unfold detect_deadlines, Str.is_empty. case_bool_decide as E.
  - split; [by intros ?%elem_of_nil|]. intros [? _]. done.
  - rewrite sorted_set_elem, list_elem_of_In, in_flat_map. split.
    + intros (pat & Hp & Hx). apply list_elem_of_In, list_elem_of_fmap in Hx as (m & -> & Hm).
      split; [done|]. exists pat, m. by rewrite list_elem_of_In.
    + intros (_ & pat & m & Hp & Hm & ->). exists pat. rewrite <-!list_elem_of_In.
      split; [done|]. apply list_elem_of_fmap. eauto.
Qed.

Lemma detect_deadlines_sorted text : StronglySorted str_lt (detect_deadlines text).
Proof.
  unfold detect_deadlines. destruct (Str.is_empty text); [constructor|].
  apply sorted_set_sorted.
Qed.

Lemma deadlines_lowercase text :
  entirely_lowercase text → Forall entirely_lowercase (detect_deadlines text).
Proof.
  intros Ht. apply Forall_forall. intros x (_ & pat & m & _ & Hm & ->)%detect_deadlines_elem.
  unfold entirely_lowercase, Str.strip. rewrite chars_of_chars. apply strip_Forall.
  unfold Re.finditer in Hm. apply list_elem_of_fmap in Hm as (cs & -> & Hcs).
  rewrite chars_of_chars.
  pose proof (finditer_go_Forall _ (Re.compile Re.I pat) _ None 0 Ht) as HF.
  rewrite Forall_forall in HF. by apply HF.
Qed.

(** ** Signatures and witnesses *)

Lemma fold_left_add_sum_by {A} (f : A → nat) (l : list A) : ∀ n,
  fold_left (λ hits a, hits + f a) l n = n + sum_by f l.
Proof.
  induction l as [|a l IH]; intros n; simpl; [lia|]. rewrite IH. lia.
Qed.

Lemma signature_fallback_is_layout_heuristic pdf text doc :
  fitz_doc pdf = Ok doc →
  _estimate_text_signatures pdf text = spec_layout_heuristic "\bsignature\b" 5 doc.
Proof.
  intros H. unfold _estimate_text_signatures, _open_doc, spec_layout_heuristic. rewrite H.
  rewrite fold_left_add_sum_by. simpl. f_equal.
  induction (pages doc) as [|pg l IH]; simpl; [done|]. rewrite IH. f_equal.
  unfold page_signature_lines. destruct (keyed_blocks _ _); done.
Qed.

Lemma witness_estimate_is_line_only pdf text doc :
  fitz_doc pdf = Ok doc →
  _estimate_witness_signatures pdf text = line_only_heuristic "\bwitness\b" 4 doc.
Proof.
  intros H. unfold _estimate_witness_signatures, _open_doc, line_only_heuristic. rewrite H.
  rewrite fold_left_add_sum_by. simpl. done.
Qed.

Lemma count_where_mono {A} (f g : A → bool) l :
  (∀ a, f a = true → g a = true) → count_where f l ≤ count_where g l.
Proof.
  intros H. unfold count_where. induction l as [|a l IH]; simpl; [done|].
  rewrite !filter_cons. destruct (f a) eqn:Ef.
  - rewrite (H a Ef). simpl. lia.
  - simpl. destruct (g a); simpl; lia.
Qed.

Lemma count_where_ext {A} (f g : A → bool) l :
  Forall (λ a, f a = g a) l → count_where f l = count_where g l.
Proof.
  unfold count_where. induction 1 as [|a l Ha _ IH]; simpl; [done|].
  rewrite !filter_cons, Ha. destruct (g a); simpl; lia.
Qed.

Lemma sum_by_mono {A} (f g : A → nat) l :
  (∀ a, f a ≤ g a) → sum_by f l ≤ sum_by g l.
Proof. intros H. induction l as [|a l IH]; simpl; [done|]. specialize (H a). lia. Qed.

Lemma sum_by_ext {A} (f g : A → nat) l :
  Forall (λ a, f a = g a) l → sum_by f l = sum_by g l.
Proof. induction 1 as [|a l Ha _ IH]; simpl; [done|]. lia. Qed.

Lemma line_only_le_spec key cap doc :
  line_only_heuristic key cap doc ≤ spec_layout_heuristic key cap doc.
Proof.
  unfold line_only_heuristic, spec_layout_heuristic.
  apply Nat.min_le_compat_r, sum_by_mono. intros pg.
  apply Nat.min_le_compat_r, count_where_mono. intros [r txt] ->. done.
Qed.

Lemma keyed_blocks_texts key blocks r txt :
  (r, txt) ∈ keyed_blocks key blocks →
  ∃ b, b ∈ blocks ∧ block_text b = Some txt ∧ block_rect b = r.
Proof.
  unfold keyed_blocks. intros (b & Hb & Hx)%list_elem_of_omap.
  exists b. destruct (block_text b) as [t|]; [|done].
  destruct (Re.found key t Re.I); [|done]. by simplify_eq.
Qed.

(** without underscore runs in the text the two heuristics agree *)
Lemma line_only_eq_spec key cap doc :
  (∀ pg b txt, pg ∈ pages doc → b ∈ page_blocks pg → block_text b = Some txt →
     has_underline txt = false) →
  line_only_heuristic key cap doc = spec_layout_heuristic key cap doc.
Proof.
  intros H. unfold line_only_heuristic, spec_layout_heuristic. f_equal.
  apply sum_by_ext, Forall_forall. intros pg Hpg. f_equal.
  apply count_where_ext, Forall_forall. intros [r txt] Hin.
  apply keyed_blocks_texts in Hin as (b & Hb & Ht & _).
  rewrite (H pg b txt Hpg Hb Ht). by rewrite orb_false_r.
Qed.

Lemma page_witness_lines_cap pg : page_witness_lines pg ≤ 2.
Proof. unfold page_witness_lines. lia. Qed.

Lemma witness_estimate_cap pdf text : _estimate_witness_signatures pdf text ≤ 4.
Proof. unfold _estimate_witness_signatures. destruct (_open_doc pdf); lia. Qed.

Lemma with_signature_evidence_witness ws hanko pdf text :
  _estimate_witness_signatures (with_signature_evidence ws hanko pdf) text
  = _estimate_witness_signatures pdf text.
Proof.
  unfold _estimate_witness_signatures, with_signature_evidence, _open_doc. simpl.
  destruct (fitz_doc pdf) as [e|doc]; simpl; [done|].
  rewrite !fold_left_add_sum_by. f_equal. f_equal.
  induction (pages doc) as [|pg l IH]; simpl; [done|]. by rewrite IH.
Qed.

Lemma analyze_signatures_witness pdf text :
  witness_signature_count (analyze_signatures pdf text) = _estimate_witness_signatures pdf text.
Proof. unfold analyze_signatures. by destruct (digital_signatures pdf). Qed.

(** C3: the layout estimate enters [signature_count] only when the count of
    signature widgets and the count of digital signatures are both zero:
    [signature_count] is the sum of the two counts and the fallback; when
    the two counts are not both zero the fallback contributes 0, and when
    both are zero [signature_count] equals the layout estimate. *)
Theorem layout_fallback_only_without_explicit_signatures pdf text :
  let sigs := analyze_signatures pdf text in
  let widget_count := count_signature_widgets pdf in
  let digital_count := (digital_signatures pdf).1 in
  let fallback := dbg_fallback_text_layout (signature_debug sigs) in
  signature_count sigs = widget_count + digital_count + fallback ∧
  (0 < widget_count + digital_count →
     fallback = 0 ∧ signature_count sigs = widget_count + digital_count) ∧
  (widget_count + digital_count = 0 →
     fallback = _estimate_text_signatures pdf text ∧
     signature_count sigs = _estimate_text_signatures pdf text).
Proof.
  cbv zeta. unfold analyze_signatures.
  destruct (digital_signatures pdf) as [dig ts]. simpl.
  destruct (Nat.eqb_spec (count_signature_widgets pdf + dig) 0) as [E|E].
  - split; [done|]. split; [lia|]. intros _. split; [done|]. lia.
  - split; [done|]. split; [lia|]. lia.
Qed.

(** a page with a signature widget and the same page without it: the text
    ["Signature: ________"] counts only in the second *)
Lemma layout_fallback_witness :
  (0 < count_signature_widgets Sample.signed_pdf + (digital_signatures Sample.signed_pdf).1
   ∧ dbg_fallback_text_layout
       (signature_debug (analyze_signatures Sample.signed_pdf "signature: ________")) = 0)
  ∧ (count_signature_widgets Sample.unsigned_pdf + (digital_signatures Sample.unsigned_pdf).1 = 0
     ∧ signature_count (analyze_signatures Sample.unsigned_pdf "signature: ________") = 1).
Proof.
  split.
  - assert (H : 0 < count_signature_widgets Sample.signed_pdf
                    + (digital_signatures Sample.signed_pdf).1) by (vm_compute; lia).
    split; [exact H|].
    exact (proj1 (proj1 (proj2 (layout_fallback_only_without_explicit_signatures
                           Sample.signed_pdf "signature: ________")) H)).
  - assert (H : count_signature_widgets Sample.unsigned_pdf
                + (digital_signatures Sample.unsigned_pdf).1 = 0) by (vm_compute; reflexivity).
    split; [exact H|].
    rewrite (proj2 (proj2 (proj2 (layout_fallback_only_without_explicit_signatures
                           Sample.unsigned_pdf "signature: ________")) H)).
    vm_compute. reflexivity.
Defined.

(** C8, as stated, fails: on a page whose only block is
    ["Witness: ________"], with no drawing, the heuristic of the signature
    fallback keyed on "witness" counts 1 (the underscore run) and the
    witness estimate is 0. *)
Lemma witness_ignores_underscore_runs :
  fitz_doc Sample.witness_pdf = Ok Sample.witness_doc ∧
  spec_layout_heuristic "\bwitness\b" 4 Sample.witness_doc = 1 ∧
  _estimate_witness_signatures Sample.witness_pdf "witness: ________" = 0 ∧
  _estimate_witness_signatures Sample.witness_pdf "witness: ________"
    ≠ spec_layout_heuristic "\bwitness\b" 4 Sample.witness_doc.
Proof. vm_compute. repeat split; congruence. Qed.

(** C8, amended: the witness count is computed by the layout heuristic of
    the signature fallback keyed on "witness" text with the same band
    geometry and the same near-horizontal-line criterion but without the
    underscore-run criterion (so it never exceeds the full heuristic); it
    does not depend on the signature widgets or digital signatures of the
    document, and it is capped at 2 per page and 4 in total.  When the
    document cannot be opened it is the number of "witness" words in the
    text, capped at 2. *)
Theorem witness_count_line_only_heuristic pdf text :
  witness_signature_count (analyze_signatures pdf text) = _estimate_witness_signatures pdf text ∧
  (∀ ws hanko,
     witness_signature_count (analyze_signatures (with_signature_evidence ws hanko pdf) text)
     = witness_signature_count (analyze_signatures pdf text)) ∧
  _estimate_witness_signatures pdf text ≤ 4 ∧
  match fitz_doc pdf with
  | Ok doc =>
      _estimate_witness_signatures pdf text = line_only_heuristic "\bwitness\b" 4 doc ∧
      _estimate_text_signatures pdf text = spec_layout_heuristic "\bsignature\b" 5 doc ∧
      _estimate_witness_signatures pdf text ≤ spec_layout_heuristic "\bwitness\b" 4 doc ∧
      Forall (λ pg, page_witness_lines pg ≤ 2) (pages doc)
  | Raised _ =>
      _estimate_witness_signatures pdf text
      = Nat.min 2 (length (Re.finditer "\bwitness\b" text Re.I))
  end.
Proof.
  split; [apply analyze_signatures_witness|].
  split; [intros; rewrite !analyze_signatures_witness; apply with_signature_evidence_witness|].
  split; [apply witness_estimate_cap|].
  destruct (fitz_doc pdf) as [e|doc] eqn:E.
  - unfold _estimate_witness_signatures, _open_doc. by rewrite E.
  - split; [by apply witness_estimate_is_line_only|].
    split; [by apply signature_fallback_is_layout_heuristic|].
    split.
    + rewrite (witness_estimate_is_line_only _ _ _ E). apply line_only_le_spec.
    + apply Forall_forall. intros pg _. apply page_witness_lines_cap.
Qed.

(** ** Host versus issuer *)

Lemma host_domain_info_returns env url entity_name text meta brand_map res :
  resolve_issuer (host_root_of env (host_of env url)) entity_name text meta brand_map = Ok res →
  host_domain_info env url entity_name text meta brand_map
  = Ok (domain_trust (host_of env url) (host_root_of env (host_of env url)) res brand_map).
Proof. intros H. unfold host_domain_info. rewrite H. done. Qed.

Lemma root_registered_spec brand_map root issuer :
  root_registered brand_map root issuer = true ↔ ROOT_TO_BRAND brand_map !! root = Some issuer.
Proof.
  unfold root_registered, Str.eqb. destruct (ROOT_TO_BRAND brand_map !! root) as [b|]; [|done].
  case_bool_decide; split; intros; simplify_eq; done.
Qed.

Lemma domain_trust_registered host root res brand_map :
  root_registered brand_map root (ir_issuer res) = true →
  let r := domain_trust host root res brand_map in
  mismatch r = false ∧ (75 ≤ confidence r)%Z ∧ reason r = "Host root aligns with issuer.".
Proof.
  intros H. unfold domain_trust. cbv zeta. rewrite H.
  repeat (match goal with |- context [let '(_, _) := ?x in _] => destruct x end).
  simpl. split; [done|]. split; [lia|done].
Qed.

(** the resolution of the issuer fails only on a blank brand name *)
Lemma brand_in_text_returns lowered brands :
  Forall (λ b, first_word_lower b ≠ None) brands →
  ∃ found, brand_in_text lowered brands = Ok found.
Proof.
  induction 1 as [|b l Hb _ [found IH]]; simpl; [by eexists|].
  destruct (first_word_lower b); [|done].
  destruct (Str.contains _ _); [by eexists|]. by exists found.
Qed.

Lemma resolve_issuer_returns host_root entity_name text meta brand_map :
  Forall (λ b, first_word_lower b ≠ None) (map fst brand_map) →
  ∃ res, resolve_issuer host_root entity_name text meta brand_map = Ok res.
Proof.
  intros H. unfold resolve_issuer.
  destruct (unresolved (Str.strip entity_name)).
  - destruct (brand_in_text_returns (Str.lower text) _ H) as [found ->].
    cbn [mbind exc_bind]. destruct (fold_left _ _ _) as [[? ?] ?]. by eexists.
  - cbn [mbind exc_bind]. destruct (fold_left _ _ _) as [[? ?] ?]. by eexists.
Qed.

(** C4: whenever the registrable root of the host is registered, in the
    reverse brand index, to the issuer that the evaluation resolved, the
    evaluation returns a result with [mismatch = false] and
    [confidence >= 75], whatever the host, the text and the metadata are
    (so whatever penalties were accumulated before). *)
Theorem registered_root_wins_over_penalties env url entity_name text meta brand_map res :
  resolve_issuer (host_root_of env (host_of env url)) entity_name text meta brand_map = Ok res →
  ROOT_TO_BRAND brand_map !! host_root_of env (host_of env url) = Some (ir_issuer res) →
  ∃ r, host_domain_info env url entity_name text meta brand_map = Ok r ∧
       mismatch r = false ∧ (75 ≤ confidence r)%Z.
Proof.
  intros Hres Hreg. eexists. split; [by apply host_domain_info_returns|].
  apply root_registered_spec in Hreg.
  destruct (domain_trust_registered (host_of env url) _ res brand_map Hreg) as (? & ? & ?).
  done.
Qed.

(** the host is a CDN name under a registered root: the penalty leaves 45
    and the registry lifts it to 75 *)
Lemma registered_root_witness :
  ∃ r, host_domain_info (Sample.serving "cdn.irs.gov" (Raised "unused"))
         "https://cdn.irs.gov/pub/fw9.pdf" "IRS" "" [] builtin_brands = Ok r ∧
       mismatch r = false ∧ (75 ≤ confidence r)%Z.
Proof.
  apply (registered_root_wins_over_penalties _ _ _ _ _ _ (mkRes "IRS" [] [])).
  - vm_compute. reflexivity.
  - vm_compute. reflexivity.
Defined.

Lemma matched_nonempty_of_root (host root : string) (doms : list string) :
  root ∈ doms →
  nonempty (filter (λ d, Str.contains d host || Str.eqb d root) doms) = true.
Proof.
  intros Hin.
  assert (Hf : root ∈ filter (λ d : string, Str.contains d host || Str.eqb d root) doms).
  { apply list_elem_of_filter. split; [|done].
    unfold Str.eqb. rewrite bool_decide_eq_true_2 by done. by rewrite orb_true_r. }
  destruct (filter _ doms); [by apply elem_of_nil in Hf|done].
Qed.

(** C5, as stated, fails: for the issuer IRS and the host
    formsportal.example.com, under the built-in registry, the evaluation
    returns [mismatch = false] with confidence 10 and the reason "OK". *)
Lemma gov_issuer_off_domain_below_gate :
  ∃ r, host_domain_info (Sample.serving "formsportal.example.com" (Raised "unused"))
         "https://formsportal.example.com/forms/fw9.pdf" "IRS" "" [] builtin_brands = Ok r ∧
       gov_off_domain "IRS" (host_domain r) = true ∧
       mismatch r = false ∧ confidence r = 10%Z ∧ reason r = "OK" ∧
       ¬ (mismatch r = true ∧ (65 ≤ confidence r)%Z).
Proof.
  eexists. split; [vm_compute; reflexivity|]. vm_compute.
  repeat split; try congruence. intros [? ?]. congruence.
Qed.

Ltac trust_cases :=
  repeat split; intros;
  repeat match goal with H : _ ∧ _ |- _ => destruct H end;
  try done; try lia.

(** C5, amended: when the issuer resolves to a government brand (GSA,
    USCIS, IRS, SSA) and the host carries no ".gov", the evaluation returns
    [mismatch = true] exactly when some domain of the issuer matches the
    host and the root of the host is not registered to the issuer; then the
    confidence is at least 55 (the gate) and the reason is "Government
    issuer on non-.gov host.".  When no domain of the issuer matches the
    host -- as for formsportal.example.com -- and the root is not
    registered to it, the confidence is at most 35, below the gate, and
    the result is [mismatch = false] with the reason "OK". *)
Theorem gov_issuer_off_domain_flagged_only_above_gate
    env url entity_name text meta brand_map res :
  let host := host_of env url in
  let root := host_root_of env host in
  resolve_issuer root entity_name text meta brand_map = Ok res →
  gov_off_domain (ir_issuer res) host = true →
  ∃ r, host_domain_info env url entity_name text meta brand_map = Ok r ∧
       (mismatch r = true ↔
          issuer_domains_matched r ≠ [] ∧ root_registered brand_map root (ir_issuer res) = false) ∧
       (mismatch r = true →
          (55 ≤ confidence r)%Z ∧ reason r = "Government issuer on non-.gov host.") ∧
       (issuer_domains_matched r = [] → root_registered brand_map root (ir_issuer res) = false →
          mismatch r = false ∧ (0 ≤ confidence r ≤ 35)%Z ∧ reason r = "OK").
Proof.
  cbv zeta. intros Hres Hgov. eexists. split; [by apply host_domain_info_returns|].
  unfold domain_trust. cbv zeta. rewrite Hgov.
  set (doms := remove_dups _).
  pose proof (matched_nonempty_of_root (host_of env url)
                (host_root_of env (host_of env url)) doms) as Hm.
  set (matched := filter _ doms) in *.
  destruct (bool_decide (host_root_of env (host_of env url) ∈ doms)) eqn:Hin.
  - apply bool_decide_eq_true in Hin. specialize (Hm Hin).
    destruct matched as [|d ms]; [done|]. clear Hm. simpl nonempty. simpl negb. cbn [andb].
    destruct (nonempty (ir_text_hits res)), (nonempty (ir_meta_hits res)),
      (existsb _ KNOWN_CDNS), (root_registered brand_map _ _); simpl; trust_cases.
  - clear Hm. simpl andb.
    destruct matched as [|d ms]; simpl nonempty; simpl negb;
    destruct (nonempty (ir_text_hits res)), (nonempty (ir_meta_hits res)),
      (existsb _ KNOWN_CDNS), (root_registered brand_map _ _); simpl; trust_cases.
Qed.

(** a registry that gives the IRS a ".com" domain, and a host that contains
    it under another root: the match gives 60, the bonus 10, the gate is
    passed and the mismatch is flagged *)
Lemma gov_issuer_off_domain_witness :
  ∃ r, host_domain_info (Sample.serving "irs-forms.com.files.example.net" (Raised "unused"))
         "https://irs-forms.com.files.example.net/fw9.pdf" "IRS" "" []
         [("IRS", ["irs-forms.com"])] = Ok r ∧
       mismatch r = true ∧ confidence r = 70%Z ∧
       reason r = "Government issuer on non-.gov host.".
Proof.
  destruct (gov_issuer_off_domain_flagged_only_above_gate
              (Sample.serving "irs-forms.com.files.example.net" (Raised "unused"))
              "https://irs-forms.com.files.example.net/fw9.pdf" "IRS" "" []
              [("IRS", ["irs-forms.com"])] (mkRes "IRS" [] []))
    as (r & Hr & Hiff & Hflag & _).
  - vm_compute. reflexivity.
  - vm_compute. reflexivity.
  - exists r. split; [exact Hr|].
    assert (Hm : mismatch r = true).
    { apply Hiff. revert Hr. vm_compute. intros [= <-]. split; [discriminate|reflexivity]. }
    split; [exact Hm|]. destruct (Hflag Hm) as [_ Hreason].
    split; [|exact Hreason].
    revert Hr. vm_compute. intros [= <-]. reflexivity.
Defined.

(** ** The NIGO score *)

Local Open Scope Z_scope.

Lemma weight_nonneg (table : gmap string Z) k :
  map_Forall (λ _ v, 0 ≤ v) table → 0 ≤ weight table k.
Proof.
  intros H. unfold weight. destruct (table !! k) as [v|] eqn:E; simpl; [|lia].
  by apply (H k v).
Qed.

Lemma severity_weights_nonneg : map_Forall (λ _ v, 0 ≤ v) SEVERITY_WEIGHTS.
Proof.
  unfold SEVERITY_WEIGHTS. simpl.
  repeat (apply map_Forall_insert_2; [lia|]). apply map_Forall_empty.
Qed.

Lemma rule_weights_nonneg : map_Forall (λ _ v, 0 ≤ v) RULE_WEIGHTS.
Proof.
  unfold RULE_WEIGHTS. simpl.
  repeat (apply map_Forall_insert_2; [lia|]). apply map_Forall_empty.
Qed.

Lemma finding_points_nonneg r : 0 ≤ finding_points r.
Proof.
  unfold finding_points.
  pose proof (weight_nonneg _ (Str.lower (severity r)) severity_weights_nonneg).
  pose proof (weight_nonneg _ (rule_id r) rule_weights_nonneg).
  destruct (high_risk _); lia.
Qed.

Lemma nigo_fold_nonneg l : ∀ s h,
  0 ≤ s → 0 ≤ h →
  0 ≤ (fold_left nigo_step l (s, h)).1 ∧ 0 ≤ (fold_left nigo_step l (s, h)).2.
Proof.
  induction l as [|r l IH]; intros s h Hs Hh; simpl; [done|].
  apply IH.
  - pose proof (finding_points_nonneg r). lia.
  - destruct (is_high_mask_req r); lia.
Qed.

Lemma nigo_score_bounds nigo_risks pii_flags :
  0 ≤ calculate_nigo_score nigo_risks pii_flags ≤ 100.
Proof.
  unfold calculate_nigo_score.
  destruct (nigo_fold_nonneg nigo_risks 0 0 ltac:(lia) ltac:(lia)) as [H1 H2].
  destruct (fold_left nigo_step nigo_risks (0, 0)) as [s h]. simpl in *.
  destruct (_ && _); lia.
Qed.

Lemma nigo_append nigo_risks f pii_flags :
  calculate_nigo_score nigo_risks pii_flags ≤ calculate_nigo_score (nigo_risks ++ [f]) pii_flags.
Proof.
  unfold calculate_nigo_score. rewrite fold_left_app. simpl.
  destruct (nigo_fold_nonneg nigo_risks 0 0 ltac:(lia) ltac:(lia)) as [H1 H2].
  destruct (fold_left nigo_step nigo_risks (0, 0)) as [s h]. simpl in *.
  pose proof (finding_points_nonneg f).
  destruct (flag pii_flags "any_pii"); simpl; [|lia].
  destruct (is_high_mask_req f);
    destruct (Z.ltb_spec 0 h); repeat case_match; lia.
Qed.

Lemma sys_err_points e : finding_points (sys_err e) = 0 ∧ is_high_mask_req (sys_err e) = false.
Proof. split; vm_compute; reflexivity. Qed.

Lemma nigo_append_sys_err nigo_risks e pii_flags :
  calculate_nigo_score (nigo_risks ++ [sys_err e]) pii_flags
  = calculate_nigo_score nigo_risks pii_flags.
Proof.
  unfold calculate_nigo_score. rewrite fold_left_app. simpl.
  destruct (fold_left nigo_step nigo_risks (0, 0)) as [s h].
  unfold nigo_step. destruct (sys_err_points e) as [-> ->].
  by rewrite Z.add_0_r.
Qed.

(** C10: appending a finding never decreases the NIGO score, for every
    findings list, every PII-flag map and every finding: what a finding
    adds (severity weight, rule weight, high-risk bonus) is not negative;
    and a SYS-ERR informational finding adds exactly 0 and leaves the
    score unchanged. *)
Theorem nigo_score_monotone_in_findings nigo_risks pii_flags f :
  0 ≤ weight SEVERITY_WEIGHTS (Str.lower (severity f)) ∧
  0 ≤ weight RULE_WEIGHTS (rule_id f) ∧
  0 ≤ finding_points f ∧
  calculate_nigo_score nigo_risks pii_flags
    ≤ calculate_nigo_score (nigo_risks ++ [f]) pii_flags ∧
  (∀ e, finding_points (sys_err e) = 0 ∧
        calculate_nigo_score (nigo_risks ++ [sys_err e]) pii_flags
        = calculate_nigo_score nigo_risks pii_flags).
Proof.
  split; [apply weight_nonneg, severity_weights_nonneg|].
  split; [apply weight_nonneg, rule_weights_nonneg|].
  split; [apply finding_points_nonneg|].
  split; [apply nigo_append|].
  intros e. split; [apply sys_err_points|apply nigo_append_sys_err].
Qed.

(** ** The complexity score *)

Local Open Scope Q_scope.

Lemma Qnat_nonneg n : 0 <= Qnat n.
Proof. unfold Qnat, Qle. simpl. lia. Qed.

Lemma add_if_nonneg c k s : 0 <= k → 0 <= s → 0 <= add_if c k s.
Proof. intros. unfold add_if. destruct c; lra. Qed.

Lemma Qmin_nonneg a b : 0 <= a → 0 <= b → 0 <= Qmin a b.
Proof. intros. apply Q.min_glb; done. Qed.

Lemma Qplus_nonneg a b : 0 <= a → 0 <= b → 0 <= a + b.
Proof. intros; lra. Qed.

Lemma pii_fold_nonneg pii l : ∀ s,
  Forall (λ kw : string * Q, 0 <= kw.2) l → 0 <= s →
  0 <= fold_left (λ score '(key, wt), add_if (flag pii key) wt score) l s.
Proof.
  induction l as [|[k w] l IH]; intros s Hl Hs; simpl; [done|].
  apply Forall_cons in Hl as [Hw Hl]. apply IH; [done|].
  by apply add_if_nonneg.
Qed.

Lemma pii_weights_nonneg : Forall (λ kw : string * Q, 0 <= kw.2) pii_weights.
Proof. unfold pii_weights. repeat constructor; simpl; unfold Qle; simpl; lia. Qed.

Lemma py_int_bounds x : 0 <= x → x <= 100 → (0 ≤ py_int x ≤ 100)%Z.
Proof.
  unfold py_int, Qle. destruct x as [n d]. simpl. intros H0 H1.
  rewrite Z.quot_div_nonneg by lia.
  split.
  - apply Z.div_pos; lia.
  - apply Z.div_le_upper_bound; lia.
Qed.

(** a tier of the score: the score so far is not negative, and every branch
    adds a constant to it *)
Ltac tiers :=
  match goal with
  | |- 0 <= (if _ then ?s + _ else _) =>
      let x := fresh "x" in
      let H := fresh "H" in
      assert (H : 0 <= s);
      [| set (x := s) in *; clearbody x; repeat case_match; lra]
  end.

Ltac nonneg :=
  repeat first
    [ apply add_if_nonneg
    | apply Qmin_nonneg
    | apply Qnat_nonneg
    | apply pii_fold_nonneg; [apply pii_weights_nonneg|]
    | tiers
    | match goal with
      | |- 0 <= _ + _ => apply Qplus_nonneg
      | |- 0 <= _ * _ => apply Qmult_le_0_compat
      end
    | done
    | (unfold Qle; simpl; lia) ].

Lemma complexity_bounds text fields pages sigs extra :
  (0 ≤ calculate_complexity text fields pages sigs extra ≤ 100)%Z.
Proof.
  unfold calculate_complexity. cbv zeta.
  apply py_int_bounds; [|apply Q.le_min_r].
  apply Q.min_glb; [|unfold Qle; simpl; lia].
  nonneg.
Qed.

Local Close Scope Q_scope.
Local Close Scope Z_scope.

(** ** One analysis as a whole *)

(** what a successful run went through, and where its scores come from *)
Lemma analyze_body_ok env rid item brand_map a :
  analyze_body env rid item brand_map = Ok a →
  ∃ pdf url doc domain,
    acquire env item = Ok (pdf, url) ∧
    _open_doc pdf = Ok doc ∧
    host_domain_info env url (extract_entity_name_financial (extract_text pdf) url)
      (extract_text pdf) (metadata doc) brand_map = Ok domain ∧
    a_url a = url ∧ a_analysis_id a = rid ∧ a_timestamp a = now_isoformat env ∧
    a_deadlines a = detect_deadlines (extract_text pdf) ∧
    a_signature_analysis a = analyze_signatures pdf (extract_text pdf) ∧
    a_host_domain_check a = domain ∧
    a_pii_fields a = detect_pii (extract_text pdf) ∧
    a_nigo_score a = calculate_nigo_score (a_nigo_risks a) (a_pii_fields a) ∧
    a_complexity_score a =
      calculate_complexity (extract_text pdf) (count_fields pdf) (a_page_count a)
        (a_signature_analysis a) (Some (extra_of a)).
Proof.
  unfold analyze_body.
  destruct (acquire env item) as [e|[pdf url]]; [done|]. cbn [mbind exc_bind].
  destruct (_open_doc pdf) as [e|doc] eqn:Hdoc; [done|]. cbn [mbind exc_bind].
  destruct (host_domain_info env url _ _ _ brand_map) as [e|domain] eqn:Hdom; [done|].
  cbn [mbind exc_bind].
  destruct (classify_industry_subvertical env url _ _) as [industry subvertical].
  intros [= <-]. exists pdf, url, doc, domain.
  unfold extra_of.
  cbn [a_url a_analysis_id a_timestamp a_deadlines a_signature_analysis a_host_domain_check
       a_nigo_score a_nigo_risks a_complexity_score a_pii_fields a_page_count
       a_roles_required a_attachment_requirements a_radio_groups a_images_per_page
       a_drawings_per_page a_text_density a_xfa_like a_conditional_logic a_dependencies
       a_third_party_roles].
  destruct (page_graphics_stats env pdf) as [ipp dpp td].
  cbn [images_per_page drawings_per_page text_density].
  repeat (split; [done|]). reflexivity.
Qed.


(** C9: whenever the body of the analysis raises, the result is the error
    record -- the item, the message and the identifier -- and a result
    with status "error" holds the four keys url, status, error and
    analysis_id and nothing else: no NIGO score, no complexity score, no
    findings, no field count, no deadlines. *)
Theorem error_result_carries_no_scores env item brand_map :
  let r := analyze_one env item brand_map in
  (∀ e, analyze_body env (uuid4 env) item brand_map = Raised e →
        r = Failure item e (uuid4 env) ∧ status r = "error" ∧ error_of r = Some e) ∧
  (status r = "error" →
     (∃ e, analyze_body env (uuid4 env) item brand_map = Raised e) ∧
     keys r = ["url"; "status"; "error"; "analysis_id"] ∧
     analysis_of r = None ∧
     nigo_score_of r = None ∧ complexity_score_of r = None ∧
     nigo_risks_of r = None ∧ field_count_of r = None ∧ deadlines_of r = None).
Proof.
  cbv zeta. unfold analyze_one. split.
  - intros e ->. done.
  - destruct (analyze_body env (uuid4 env) item brand_map) as [e|a]; [|done].
    intros _. split; [by exists e|]. done.
Qed.

(** the download fails: the result is the error record *)
Lemma error_result_witness :
  let env := Sample.serving "forms.example.com" (Raised "Content not a PDF") in
  let r := analyze_one env "https://forms.example.com/a.pdf" builtin_brands in
  r = Failure "https://forms.example.com/a.pdf" "Content not a PDF" (uuid4 env) ∧
  keys r = ["url"; "status"; "error"; "analysis_id"] ∧
  nigo_score_of r = None ∧ complexity_score_of r = None.
Proof.
  cbv zeta.
  pose proof (error_result_carries_no_scores
                (Sample.serving "forms.example.com" (Raised "Content not a PDF"))
                "https://forms.example.com/a.pdf" builtin_brands) as [H1 H2].
  cbv zeta in *.
  split; [apply H1; vm_compute; reflexivity|].
  destruct H2 as (_ & Hk & _ & Hn & Hc & _); [vm_compute; reflexivity|].
  repeat split; assumption.
Defined.

(** the identifier and the time of a run only fill the two entries that
    carry them *)
Lemma analyze_body_at_run env rid now item brand_map :
  analyze_body (at_run env rid now) rid item brand_map =
  a ← analyze_body env (uuid4 env) item brand_map;
  Ok (mkAnalysis (a_url a) rid now (a_entity_name a)
        (a_form_title a) (a_page_count a) (a_field_count a) (a_text_fields a)
        (a_checkboxes a) (a_dropdowns a) (a_radio_groups a) (a_signatures a)
        (a_attachment_count a) (a_attachment_requirements a) (a_conditional_logic a)
        (a_multistep_logic_hint a) (a_signature_analysis a) (a_roles_required a)
        (a_third_party_roles a) (a_third_party_evidence a) (a_pii_fields a)
        (a_images_per_page a) (a_drawings_per_page a) (a_text_density a)
        (a_xfa_like a) (a_nigo_risks a) (a_nigo_score a) (a_dependencies a)
        (a_deadlines a) (a_host_domain_check a) (a_industry a) (a_subvertical a)
        (a_complexity_score a) (a_special_requirements_summary a)).
Proof.
  unfold analyze_body.
  change (acquire (at_run env rid now) item) with (acquire env item).
  destruct (acquire env item) as [e|[pdf url]]; [done|]. cbn [mbind exc_bind].
  destruct (_open_doc pdf) as [e|doc]; [done|]. cbn [mbind exc_bind].
  change (host_domain_info (at_run env rid now)) with (host_domain_info env).
  destruct (host_domain_info env url _ _ _ brand_map) as [e|domain]; [done|].
  cbn [mbind exc_bind].
  change (classify_industry_subvertical (at_run env rid now))
    with (classify_industry_subvertical env).
  destruct (classify_industry_subvertical env url _ _) as [industry subvertical].
  reflexivity.
Qed.

(** C2: two runs of the analysis on the same item, in the same environment
    but with different identifiers and at different times, end in the same
    status with the same NIGO score, the same complexity score and the same
    list of findings, in the same order; and each score of a successful run
    is the scoring function applied to the detector outputs held in the
    result (for the complexity score, together with the text and the field
    counts). *)
Theorem scores_and_findings_independent_of_run env item brand_map rid1 now1 rid2 now2 :
  let r1 := analyze_one (at_run env rid1 now1) item brand_map in
  let r2 := analyze_one (at_run env rid2 now2) item brand_map in
  status r1 = status r2 ∧
  nigo_score_of r1 = nigo_score_of r2 ∧
  complexity_score_of r1 = complexity_score_of r2 ∧
  nigo_risks_of r1 = nigo_risks_of r2 ∧
  match r1 with
  | Success a =>
      a_nigo_score a = calculate_nigo_score (a_nigo_risks a) (a_pii_fields a) ∧
      ∃ text fields,
        a_complexity_score a =
          calculate_complexity text fields (a_page_count a) (a_signature_analysis a)
            (Some (extra_of a))
  | Failure _ _ _ => True
  end.
Proof.
  cbv zeta. unfold analyze_one.
  change (uuid4 (at_run env rid1 now1)) with rid1.
  change (uuid4 (at_run env rid2 now2)) with rid2.
  destruct (analyze_body (at_run env rid1 now1) rid1 item brand_map) as [e1|a1] eqn:E1.
  - rewrite analyze_body_at_run in E1. rewrite analyze_body_at_run.
    destruct (analyze_body env (uuid4 env) item brand_map) as [e|a]; [|done].
    cbn [mbind exc_bind]. done.
  - pose proof (analyze_body_ok _ _ _ _ _ E1) as
      (pdf & url & doc & domain & _ & _ & _ & _ & _ & _ & _ & _ & _ & _ & Hn & Hc).
    rewrite analyze_body_at_run in E1. rewrite analyze_body_at_run.
    destruct (analyze_body env (uuid4 env) item brand_map) as [e|a]; [done|].
    cbn [mbind exc_bind] in *. injection E1 as <-.
    do 4 (split; [done|]). split; [exact Hn|].
    exists (extract_text pdf), (count_fields pdf). exact Hc.
Qed.

(** C1: both composite scores lie between 0 and 100: the NIGO score for
    every findings list and PII-flag map, the complexity score for every
    text, field-count map, page count, signature profile and
    extra-parameter map, and so the two scores of every successfully
    analyzed document. *)
Theorem scores_bounded :
  (∀ nigo_risks pii_flags,
     (0 ≤ calculate_nigo_score nigo_risks pii_flags ≤ 100)%Z) ∧
  (∀ text fields pages sigs extra,
     (0 ≤ calculate_complexity text fields pages sigs extra ≤ 100)%Z) ∧
  (∀ env item brand_map,
     match analyze_one env item brand_map with
     | Success a =>
         (0 ≤ a_nigo_score a ≤ 100)%Z ∧ (0 ≤ a_complexity_score a ≤ 100)%Z
     | Failure _ _ _ => True
     end).
Proof.
  split; [apply nigo_score_bounds|]. split; [apply complexity_bounds|].
  intros env item brand_map. unfold analyze_one.
  destruct (analyze_body env (uuid4 env) item brand_map) as [e|a] eqn:E; [done|].
  apply analyze_body_ok in E as
    (pdf & url & doc & domain & _ & _ & _ & _ & _ & _ & _ & _ & _ & _ & -> & ->).
  split; [apply nigo_score_bounds|apply complexity_bounds].
Qed.

(** C7, as stated, fails: for a document whose text is
    "Postmarked By June 1" the analysis reports the deadline
    "postmarked by", the span of the lower-cased text, and not the span
    "Postmarked By" of the original-case text. *)
Lemma deadlines_read_lowercased_text :
  let env := Sample.serving "forms.example.com" (Ok Sample.deadline_pdf) in
  let r := analyze_one env "https://forms.example.com/a.pdf" builtin_brands in
  raw_text Sample.deadline_pdf = "Postmarked By June 1" ∧
  detect_deadlines (raw_text Sample.deadline_pdf) = ["Postmarked By"] ∧
  deadlines_of r = Some ["postmarked by"] ∧
  deadlines_of r ≠ Some (detect_deadlines (raw_text Sample.deadline_pdf)).
Proof. vm_compute. repeat split; congruence. Qed.

(** C7, amended: the deadline extractor matches its fixed list of
    patterns, case-insensitively, against the text it is given, and its
    result is the strictly increasing (sorted, duplicate-free) list of the
    stripped matched spans; [analyze_one] gives it the normalized,
    lower-cased text of the document (no original-case text is kept), so
    every reported span is lower-case. *)
Theorem deadlines_sorted_unique_over_normalized_text :
  (∀ text,
     StronglySorted str_lt (detect_deadlines text) ∧
     NoDup (detect_deadlines text) ∧
     ∀ x, x ∈ detect_deadlines text ↔
          text ≠ "" ∧
          ∃ pat m, pat ∈ DEADLINE_PATTERNS ∧ m ∈ Re.finditer pat text Re.I ∧
                   x = Str.strip m) ∧
  (∀ env item brand_map,
     match analyze_one env item brand_map with
     | Success a =>
         ∃ pdf url, acquire env item = Ok (pdf, url) ∧
                    a_deadlines a = detect_deadlines (extract_text pdf) ∧
                    Forall entirely_lowercase (a_deadlines a)
     | Failure _ _ _ => True
     end).
Proof.
  split.
  - intros text. split; [apply detect_deadlines_sorted|].
    split; [apply strictly_sorted_NoDup, detect_deadlines_sorted|].
    apply detect_deadlines_elem.
  - intros env item brand_map. unfold analyze_one.
    destruct (analyze_body env (uuid4 env) item brand_map) as [e|a] eqn:E; [done|].
    apply analyze_body_ok in E as
      (pdf & url & doc & domain & Hacq & _ & _ & _ & _ & _ & Hd & _).
    exists pdf, url. split; [done|]. split; [done|].
    rewrite Hd. apply deadlines_lowercase, extract_text_lowercase.
Qed.

(** two deadlines in a lower-cased text, reported in increasing order *)
Lemma deadlines_witness :
  detect_deadlines "return it within 30 days, postmarked by june 1"
    = ["postmarked by"; "within 30 days"] ∧
  NoDup (detect_deadlines "return it within 30 days, postmarked by june 1").
Proof.
  split; [vm_compute; reflexivity|].
  apply (proj1 (proj2 (proj1 deadlines_sorted_unique_over_normalized_text _))).
Defined.

(** ** The model at work *)

(** the matcher on a few subjects, as [re] answers *)
Example finditer_days :
  Re.finditer "\b(within\s+\d{1,3}\s+(calendar|business)\s+days)\b"
    "Reply Within 30 business days or within 5 calendar days." Re.I
  = ["Within 30 business days"; "within 5 calendar days"].
Proof. vm_compute. reflexivity. Qed.

Example finditer_underline :
  Re.finditer "_{5,}|_{3,}\s*/{0,1}" "a ___ / b _______ c __" Re.NOFLAG
  = ["___ /"; "_______"].
Proof. vm_compute. reflexivity. Qed.

Example search_word_boundary :
  Re.search "\bsignature\b" "Applicant Signature: ___" Re.I = Some (10, "Signature") ∧
  Re.search "\bsignature\b" "Applicant Signatures: ___" Re.I = None.
Proof. vm_compute. split; reflexivity. Qed.

Example finditer_lazy :
  Re.finditer
    "\b(before|prior to)\s+(submitting|sending)\s+(this\s+)?form.*?\b(form\s+)?([A-Za-z0-9\-_/\.]+)"
    "before submitting this form, complete form w-9 and more" Re.IS
  = ["before submitting this form, complete"].
Proof. vm_compute. reflexivity. Qed.

(** a hyphenated line break is joined only once per character, and runs of
    whitespace shrink to one space *)
Example normalize_samples :
  map _normalize_text_for_rules
    ["ab-
cd"; "a-
b-
c"; "tab		end  "; " 
"; "a 
 b"]
  = ["abcd"; "ab- c"; "tab end "; " "; "a b"].
Proof. vm_compute. reflexivity. Qed.

(** a signature line drawn with underscores, no widget: the layout
    fallback counts it, and a date next to it raises no finding *)
Example scenario_signature_line :
  let pg := Sample.text_page "signature: ____________ date: ___"
              [mkBlock Sample.box (Some "signature: ____________ date: ___")] in
  let pdf := mkPdf None (Ok (mkDoc [] [pg] (Some 0) false false)) None in
  signature_count (analyze_signatures pdf (extract_text pdf)) = 1 ∧
  nigo_design_checks pdf = [].
Proof. vm_compute. split; reflexivity. Qed.

(** "notary public" anywhere in the text *)
Example scenario_notary :
  notarized (analyze_signatures Sample.witness_pdf "sworn before a notary public") = "Yes".
Proof. vm_compute. reflexivity. Qed.

(** forty unclassified fields on two pages, nothing else *)
Example scenario_plain_fields :
  calculate_complexity "" {["total" := 40]} 2
    (mkSigs 0 0 0 "No" (mkSigDebug 0 0 0)) (Some no_extra) = 16%Z.
Proof. vm_compute. reflexivity. Qed.

(** one required-field finding on an SSN field, with and without PII *)
Example scenario_ssn_finding :
  let f := mkFinding "REQ-001" "high" (Some 1) "ssn" "ssn" "" "" in
  calculate_nigo_score [f] {["any_pii" := true]} = 40%Z ∧
  calculate_nigo_score [f] ∅ = 30%Z ∧
  calculate_nigo_score [f; third_party_finding ["Attorney"; "Physician"]]
    {["any_pii" := true]} = 58%Z.
Proof. vm_compute. repeat split; reflexivity. Qed.

(* ================================================================== *)
(** * Further properties of the module *)
(* ================================================================== *)

(** ** More on the NIGO score *)

Lemma nigo_step_comm acc x y :
  nigo_step (nigo_step acc x) y = nigo_step (nigo_step acc y) x.
Proof.
  destruct acc as [s h]. unfold nigo_step.
  destruct (is_high_mask_req x), (is_high_mask_req y); f_equal; lia.
Qed.

Lemma nigo_fold_perm l l' :
  l ≡ₚ l' → ∀ acc, fold_left nigo_step l acc = fold_left nigo_step l' acc.
Proof.
  induction 1 as [|x l l' _ IH|x y l|l1 l2 l3 _ IH1 _ IH2]; intros acc; simpl.
  - done.
  - apply IH.
  - by rewrite nigo_step_comm.
  - by rewrite IH1, IH2.
Qed.

(** X1: the NIGO score does not depend on the order of the findings:
    two lists that are permutations of each other get the same score. *)
Theorem nigo_score_order_independent nigo_risks nigo_risks' pii_flags :
  nigo_risks ≡ₚ nigo_risks' →
  calculate_nigo_score nigo_risks pii_flags = calculate_nigo_score nigo_risks' pii_flags.
Proof.
  intros H. unfold calculate_nigo_score. by rewrite (nigo_fold_perm _ _ H).
Qed.

Lemma nigo_fold_high l : ∀ s h,
  (fold_left nigo_step l (s, h)).2 = (h + Z.of_nat (count_where is_high_mask_req l))%Z.
Proof.
  induction l as [|r l IH]; intros s h; simpl.
  - unfold count_where. simpl. lia.
  - rewrite IH. unfold count_where. rewrite filter_cons.
    destruct (is_high_mask_req r); simpl; lia.
Qed.

(** X2: the PII flags enter the NIGO score only through ["any_pii"], and
    only as the bonus of 10: the score lies between the score without
    flags and that score plus 10, and it equals the score without flags
    when ["any_pii"] is unset or when no finding is a FMT-001 or REQ-001
    on a high-risk field. *)
Theorem nigo_pii_bonus nigo_risks pii_flags :
  let base := calculate_nigo_score nigo_risks ∅ in
  let score := calculate_nigo_score nigo_risks pii_flags in
  (base ≤ score ≤ base + 10)%Z ∧
  (flag pii_flags "any_pii" = false → score = base) ∧
  (count_where is_high_mask_req nigo_risks = 0 → score = base) ∧
  (∀ pii_flags', flag pii_flags' "any_pii" = flag pii_flags "any_pii" →
     calculate_nigo_score nigo_risks pii_flags' = score).
Proof.
  cbv zeta. unfold calculate_nigo_score.
  pose proof (nigo_fold_high nigo_risks 0 0) as Hh.
  destruct (fold_left nigo_step nigo_risks (0, 0)%Z) as [s h]. simpl in Hh.
  change (flag ∅ "any_pii") with false. simpl andb. cbv iota.
  split; [destruct (flag pii_flags "any_pii" && _); lia|].
  split; [by intros ->|].
  split.
  - intros E. rewrite E in Hh. subst h. by rewrite andb_false_r.
  - by intros pii' ->.
Qed.

(** ** More on the complexity score *)
Local Open Scope Q_scope.

Lemma py_int_floor x : 0 <= x → py_int x = Qfloor x.
Proof.
  unfold py_int, Qfloor, Qle. destruct x as [n d]. simpl. intros H.
  apply Z.quot_div_nonneg; lia.
Qed.

Lemma py_int_mono x y : 0 <= x → x <= y → (py_int x ≤ py_int y)%Z.
Proof.
  intros H0 H. rewrite !py_int_floor by lra. by apply Qfloor_resp_le.
Qed.

Lemma add_if_mono c k s s' : s <= s' → add_if c k s <= add_if c k s'.
Proof. unfold add_if. destruct c; lra. Qed.

Lemma pii_fold_mono pii l : ∀ s s',
  s <= s' →
  fold_left (λ score '(key, wt), add_if (flag pii key) wt score) l s
  <= fold_left (λ score '(key, wt), add_if (flag pii key) wt score) l s'.
Proof.
  induction l as [|[k w] l IH]; intros s s' H; simpl; [done|].
  by apply IH, add_if_mono.
Qed.

Lemma Qnat_le n m : (n ≤ m)%nat → Qnat n <= Qnat m.
Proof. intros H. unfold Qnat, Qle. simpl. lia. Qed.

Lemma Qmin_cap_mono a b c : a <= b ∨ c <= b → Qmin a c <= Qmin b c.
Proof.
  intros [H|H]; apply Q.min_glb.
  - eapply Qle_trans; [apply Q.le_min_l|done].
  - apply Q.le_min_r.
  - eapply Qle_trans; [apply Q.le_min_r|done].
  - apply Q.le_min_r.
Qed.

Ltac tiers_mono :=
  match goal with
  | |- (if ?c then ?s + _ else _) <= (if ?c then ?s' + _ else _) =>
      let x := fresh "x" in
      let y := fresh "y" in
      let H := fresh "H" in
      assert (H : s <= s');
      [| set (x := s) in *; set (y := s') in *; clearbody x y; repeat case_match; lra]
  end.

Ltac mono :=
  repeat first
    [ apply add_if_mono
    | apply pii_fold_mono
    | tiers_mono
    | match goal with
      | |- ?a + ?k <= ?b + ?k => apply Qplus_le_compat; [|apply Qle_refl]
      end ].

Lemma complexity_mono_base text fields fields' pages pages' sigs extra :
  Qmin (Qnat pages * 2) 10 <= Qmin (Qnat pages' * 2) 10 →
  Qmin (Qnat (fields_get fields "total") * (3 # 10)) 15
    <= Qmin (Qnat (fields_get fields' "total") * (3 # 10)) 15 →
  (calculate_complexity text fields pages sigs extra
   ≤ calculate_complexity text fields' pages' sigs extra)%Z.
Proof.
  intros Hp Hf. unfold calculate_complexity. cbv zeta.
  apply py_int_mono.
  { apply Q.min_glb; [|unfold Qle; simpl; lia]. nonneg. }
  apply Q.min_glb; [|apply Q.le_min_r].
  eapply Qle_trans; [apply Q.le_min_l|].
  mono. lra.
Qed.

Lemma page_term_le pages pages' :
  (pages ≤ pages' ∨ 5 ≤ pages')%nat →
  Qmin (Qnat pages * 2) 10 <= Qmin (Qnat pages' * 2) 10.
Proof.
  intros H. apply Qmin_cap_mono. destruct H as [H|H].
  - left. apply Qnat_le in H. lra.
  - right. apply Qnat_le in H. change (Qnat 5) with 5 in H. lra.
Qed.

Lemma field_term_le n n' :
  (n ≤ n' ∨ 50 ≤ n')%nat →
  Qmin (Qnat n * (3 # 10)) 15 <= Qmin (Qnat n' * (3 # 10)) 15.
Proof.
  intros H. apply Qmin_cap_mono. destruct H as [H|H].
  - left. apply Qnat_le in H. lra.
  - right. apply Qnat_le in H. change (Qnat 50) with 50 in H. lra.
Qed.

(** X4: the complexity score never decreases when the page count or the
    total field count grows, everything else equal, and both terms
    saturate: from 5 pages and from 50 fields on, a further change of
    the count cannot lower the score. *)
Theorem complexity_monotone_and_saturating
    text fields fields' pages pages' sigs extra :
  (pages ≤ pages' ∨ 5 ≤ pages')%nat →
  (fields_get fields "total" ≤ fields_get fields' "total"
   ∨ 50 ≤ fields_get fields' "total")%nat →
  (calculate_complexity text fields pages sigs extra
   ≤ calculate_complexity text fields' pages' sigs extra)%Z.
Proof.
  intros Hp Hf. apply complexity_mono_base; [by apply page_term_le|by apply field_term_le].
Qed.

Corollary complexity_length_saturates text fields fields' pages pages' sigs extra :
  (5 ≤ pages)%nat → (5 ≤ pages')%nat →
  (50 ≤ fields_get fields "total")%nat → (50 ≤ fields_get fields' "total")%nat →
  calculate_complexity text fields pages sigs extra
  = calculate_complexity text fields' pages' sigs extra.
Proof.
  intros. apply Z.le_antisymm; apply complexity_mono_base;
    (apply page_term_le || apply field_term_le); auto.
Qed.

Local Close Scope Q_scope.

(** ** Field classes and design checks *)

(** the first entry of an ordered table whose test succeeds *)
Lemma first_match_spec {A} (test : string → bool) (table : list (A * string)) (d : A) :
  let k := default d (head (map fst (filter (λ '(_, pat), test pat) table))) in
  (k = d ∧ Forall (λ '(_, pat), test pat = false) table) ∨
  (∃ pre pat post, table = pre ++ (k, pat) :: post ∧ test pat = true ∧
                   Forall (λ '(_, pat'), test pat' = false) pre).
Proof.
  cbv zeta. induction table as [|[k pat] t IH].
  - left. split; [done|constructor].
  - rewrite filter_cons. destruct (decide _) as [H|H]; simpl.
    + right. exists [], pat, t. split; [done|]. split; [by apply Is_true_true|constructor].
    + apply Is_true_false in H.
      destruct IH as [[Hk Hall]|(pre & pat' & post & Ht & Hp & Hpre)].
      * left. split; [done|]. constructor; [done|done].
      * right. exists ((k, pat) :: pre), pat', post.
        split; [by rewrite Ht at 1|]. split; [done|]. by constructor.
Qed.

(** X5: the class of a field is ["text"] or a key of
    [FIELD_CLASS_PATTERNS]; it is the first key, in the order of the
    table, whose pattern is found in the lower-cased name, tooltip and
    label, and ["text"] exactly when no pattern is found. *)
Theorem infer_field_class_first_match name alt label :
  let k := _infer_field_class name alt label in
  let hay := hay_of name alt label in
  k ∈ "text" :: map fst FIELD_CLASS_PATTERNS ∧
  ((k = "text" ∧
    Forall (λ '(_, pat), Re.found pat hay Re.NOFLAG = false) FIELD_CLASS_PATTERNS) ∨
   (∃ pre pat post,
      FIELD_CLASS_PATTERNS = pre ++ (k, pat) :: post ∧
      Re.found pat hay Re.NOFLAG = true ∧
      Forall (λ '(_, pat'), Re.found pat' hay Re.NOFLAG = false) pre)).
Proof.
  cbv zeta. unfold _infer_field_class.
  pose proof (first_match_spec (λ pat, Re.found pat (hay_of name alt label) Re.NOFLAG)
                FIELD_CLASS_PATTERNS "text") as H.
  cbv zeta in H. fold (hay_of name alt label).
  set (k := default "text" _) in *. clearbody k.
  split; [|exact H].
  destruct H as [[-> _]|(pre & pat & post & Ht & _ & _)]; [left|].
  right. rewrite Ht, map_app. apply elem_of_app. right. simpl. left.
Qed.


Lemma or_else_nonempty a b : b ≠ "" → or_else a b ≠ "".
Proof.
  unfold or_else, Str.is_empty. intros Hb. case_bool_decide; done.
Qed.

Lemma elem_of_cond b f g : g ∈ cond b f → b = true ∧ g = f.
Proof.
  unfold cond. destruct b; [|by intros ?%elem_of_nil].
  intros ->%list_elem_of_singleton. done.
Qed.

Lemma widget_findings_spec i pg w f :
  f ∈ widget_findings i pg w →
  page f = Some i ∧ finding_field_name f ≠ "" ∧
  field_class f = _infer_field_class (Str.strip (field_name w)) (Str.strip (tooltip w))
                    (_label_near_widget pg w) ∧
  ((rule_id f = "REQ-001" ∧ severity f = "high" ∧ is_required w = false) ∨
   (rule_id f = "FMT-001" ∧ severity f = "medium" ∧
    truthy (widget_actions w) || page_has_js pg = false) ∨
   (rule_id f = "SIG-002" ∧ severity f = "low" ∧ field_class f = "signature") ∨
   (rule_id f = "COND-003" ∧ severity f = "medium" ∧
    truthy (widget_actions w) || page_has_js pg = false)).
Proof.
  unfold widget_findings. cbv zeta. rewrite !elem_of_app.
  intros [H|[H|[H|H]]]; apply elem_of_cond in H as [Hb ->]; cbn [page finding_field_name
    field_class rule_id severity];
    (split; [done|]); (split; [repeat apply or_else_nonempty; done|]); (split; [done|]).
  - left. apply andb_true_iff in Hb as [_ Hb]. apply negb_true_iff in Hb. done.
  - right; left. apply andb_true_iff in Hb as [_ Hb]. apply negb_true_iff in Hb. done.
  - right; right; left. apply andb_true_iff in Hb as [Hb _].
    unfold Str.eqb in Hb. apply bool_decide_eq_true in Hb. done.
  - right; right; right. apply andb_true_iff in Hb as [_ Hb]. apply negb_true_iff in Hb.
    rewrite orb_comm. done.
Qed.



Lemma nigo_design_checks_elem pdf doc f :
  fitz_doc pdf = Ok doc →
  f ∈ nigo_design_checks pdf ↔
  ∃ i pg w, pages doc !! i = Some pg ∧ w ∈ page_widgets pg ∧ f ∈ widget_findings (S i) pg w.
Proof.
  intros Hd. unfold nigo_design_checks, _open_doc. rewrite Hd.
  rewrite list_elem_of_In, in_flat_map. split.
  - intros ([i pg] & Hin & Hf). apply list_elem_of_In, elem_of_lookup_imap in Hin
      as (j & pg' & [= -> ->] & Hl).
    apply in_flat_map in Hf as (w & Hw & Hf). exists j, pg', w.
    rewrite <-!list_elem_of_In in *. done.
  - intros (i & pg & w & Hl & Hw & Hf). exists (i, pg). split.
    + apply list_elem_of_In, elem_of_lookup_imap. by exists i, pg.
    + apply in_flat_map. exists w. rewrite <-!list_elem_of_In. done.
Qed.





Local Open Scope Z_scope.

Lemma nigo_fold_ge l : ∀ s h, s ≤ (fold_left nigo_step l (s, h)).1.
Proof.
  induction l as [|g l IH]; intros s h; simpl; [lia|].
  change (nigo_step (s, h) g)
    with (s + finding_points g, if is_high_mask_req g then h + 1 else h).
  pose proof (finding_points_nonneg g).
  specialize (IH (s + finding_points g) (if is_high_mask_req g then h + 1 else h)). lia.
Qed.

(** every finding counts: the sum is at least what one finding adds *)
Lemma nigo_fold_floor l f : f ∈ l → ∀ s h,
  s + finding_points f ≤ (fold_left nigo_step l (s, h)).1.
Proof.
  induction l as [|g l IH]; [by intros ?%elem_of_nil|].
  intros Hin s h. simpl.
  change (nigo_step (s, h) g)
    with (s + finding_points g, if is_high_mask_req g then h + 1 else h).
  apply elem_of_cons in Hin as [->|Hin].
  - apply nigo_fold_ge.
  - pose proof (finding_points_nonneg g).
    specialize (IH Hin (s + finding_points g) (if is_high_mask_req g then h + 1 else h)). lia.
Qed.

Lemma nigo_score_ge_points nigo_risks pii_flags f :
  f ∈ nigo_risks → Z.min (finding_points f) 100 ≤ calculate_nigo_score nigo_risks pii_flags.
Proof.
  intros Hf. unfold calculate_nigo_score.
  pose proof (nigo_fold_floor _ _ Hf 0 0) as H.
  destruct (fold_left nigo_step nigo_risks (0, 0)) as [s h]. simpl in H.
  destruct (_ && _); lia.
Qed.

(** X3: every finding counts: the NIGO score is at least what any one
    finding of the list adds (capped at 100). *)
Theorem nigo_score_floor nigo_risks pii_flags :
  Forall (λ f, Z.min (finding_points f) 100 ≤ calculate_nigo_score nigo_risks pii_flags)
    nigo_risks.
Proof. apply Forall_forall. intros f Hf. by apply nigo_score_ge_points. Qed.

Lemma role_finding_points n : finding_points (role_finding n) = 18.
Proof. reflexivity. Qed.

Lemma third_party_finding_points roles : finding_points (third_party_finding roles) = 18.
Proof. reflexivity. Qed.

Local Close Scope Z_scope.

(** the roles a text can name are the keys of [ROLE_HINTS], in table order *)
Lemma filter_keys_sublist {A} (test : string → bool) (table : list (A * string)) :
  map fst (filter (λ '(_, pat), test pat) table) `sublist_of` map fst table.
Proof.
  induction table as [|[k pat] t IH]; [done|].
  rewrite filter_cons. destruct (decide _); simpl.
  - by apply sublist_skip.
  - by apply sublist_cons.
Qed.

Lemma detect_roles_sublist text : detect_roles text `sublist_of` map fst ROLE_HINTS.
Proof. apply filter_keys_sublist. Qed.

Lemma detect_roles_known text r :
  r ∈ detect_roles text → r ∈ map fst ROLE_HINTS.
Proof. intros H. eapply elem_of_sublist; [done|]. apply detect_roles_sublist. Qed.

Lemma analyze_body_findings env rid item brand_map a :
  analyze_body env rid item brand_map = Ok a →
  ∃ pdf url doc,
    acquire env item = Ok (pdf, url) ∧ _open_doc pdf = Ok doc ∧
    let text := extract_text pdf in
    let sigs := analyze_signatures pdf text in
    let tp := tp_roles (detect_third_parties text) in
    let unattributed := Nat.ltb 0 (signature_count sigs) && negb (nonempty (detect_roles text)) in
    a_signature_analysis a = sigs ∧
    a_third_party_roles a = tp ∧
    a_roles_required a = (if unattributed then ["Unspecified Signer"] else detect_roles text) ∧
    a_nigo_risks a =
      nigo_design_checks pdf
      ++ (if unattributed then [role_finding (signature_count sigs)] else [])
      ++ (if nonempty tp then [third_party_finding tp] else []).
Proof.
  unfold analyze_body.
  destruct (acquire env item) as [e|[pdf url]]; [done|]. cbn [mbind exc_bind].
  destruct (_open_doc pdf) as [e|doc] eqn:Hdoc; [done|]. cbn [mbind exc_bind].
  destruct (host_domain_info env url _ _ _ brand_map) as [e|domain] eqn:Hdom; [done|].
  cbn [mbind exc_bind].
  destruct (classify_industry_subvertical env url _ _) as [industry subvertical].
  intros [= <-]. exists pdf, url, doc.
  cbn [a_signature_analysis a_third_party_roles a_roles_required a_nigo_risks].
  repeat (split; [done|]).
  destruct (nonempty (tp_roles _)); [|rewrite app_nil_r]; by rewrite <-?app_assoc.
Qed.

(** X8: in a successful analysis the finding ROLE-001 is present exactly
    when the roles are ["Unspecified Signer"], a positive signature
    count never leaves the roles empty, the finding THRD-001 is present
    exactly when third-party roles were detected, and either finding
    brings the NIGO score to 18 or more. *)
Theorem role_and_third_party_findings env item brand_map :
  match analyze_one env item brand_map with
  | Failure _ _ _ => True
  | Success a =>
      let rules := rule_id <$> a_nigo_risks a in
      ("ROLE-001" ∈ rules ↔ a_roles_required a = ["Unspecified Signer"]) ∧
      (0 < signature_count (a_signature_analysis a) → a_roles_required a ≠ []) ∧
      ("THRD-001" ∈ rules ↔ a_third_party_roles a ≠ []) ∧
      ("ROLE-001" ∈ rules ∨ "THRD-001" ∈ rules → (18 ≤ a_nigo_score a)%Z)
  end.
Proof.
  unfold analyze_one.
  destruct (analyze_body _ _ _ _) as [e|a] eqn:Hb; [done|].
  destruct (analyze_body_ok _ _ _ _ _ Hb)
    as (pdf0 & url0 & doc0 & dom0 & _ & _ & _ & _ & _ & _ & _ & _ & _ & _ & Hs & _).
  clear pdf0 url0 doc0 dom0.
  destruct (analyze_body_findings _ _ _ _ _ Hb)
    as (pdf & url & doc & _ & Hd & Hsig & Htp & Hroles & Hrisks).
  cbv zeta in *. rewrite Hsig, Htp, Hroles, Hs, Hrisks. clear Hsig Htp Hroles Hs.
  set (text := extract_text pdf) in *.
  set (n := signature_count (analyze_signatures pdf text)) in *.
  set (tp := tp_roles (detect_third_parties text)) in *.
  assert (∀ r, r ∈ rule_id <$> nigo_design_checks pdf → r ≠ "ROLE-001" ∧ r ≠ "THRD-001")
    as Hchecks.
  { intros r (f & -> & Hf)%list_elem_of_fmap.
    apply (nigo_design_checks_elem _ _ _ Hd) in Hf as (i & pg & w & _ & _ & Hf).
    apply widget_findings_spec in Hf as (_ & _ & _ & Hr).
    destruct Hr as [(-> & _)|[(-> & _)|[(-> & _)|(-> & _)]]]; done. }
  assert (∀ r, r ∈ rule_id <$> (nigo_design_checks pdf
            ++ (if Nat.ltb 0 n && negb (nonempty (detect_roles text))
                then [role_finding n] else [])
            ++ (if nonempty tp then [third_party_finding tp] else [])) ↔
          r ∈ rule_id <$> nigo_design_checks pdf ∨
          (r = "ROLE-001" ∧ Nat.ltb 0 n && negb (nonempty (detect_roles text)) = true) ∨
          (r = "THRD-001" ∧ nonempty tp = true)) as Hrules.
  { intros r. rewrite !fmap_app, !elem_of_app.
    destruct (_ && _), (nonempty tp); simpl;
      rewrite ?list_elem_of_singleton, ?elem_of_nil;
      (split; [intros [?|[?|?]]; auto|intros [?|[[? ?]|[? ?]]]; auto]); done. }
  assert ("ROLE-001" ∈ rule_id <$> a_nigo_risks a ↔
          Nat.ltb 0 n && negb (nonempty (detect_roles text)) = true) as Hrole.
  { rewrite Hrisks, Hrules. split; [|tauto].
    intros [H|[[_ H]|[H _]]]; [|done|done]. by destruct (Hchecks _ H). }
  assert ("THRD-001" ∈ rule_id <$> a_nigo_risks a ↔ nonempty tp = true) as Hthird.
  { rewrite Hrisks, Hrules. split; [|tauto].
    intros [H|[[H _]|[_ H]]]; [|done|done]. by destruct (Hchecks _ H). }
  rewrite <-Hrisks. split; [|split; [|split]].
  - rewrite Hrole. destruct (_ && _) eqn:E; [done|]. split; [done|].
    intros H. pose proof (detect_roles_known text "Unspecified Signer") as Hk.
    rewrite H in Hk. specialize (Hk ltac:(left)).
    unfold ROLE_HINTS in Hk. simpl in Hk. rewrite !elem_of_cons, elem_of_nil in Hk.
    repeat destruct Hk as [Hk|Hk]; done.
  - intros Hn. destruct (Nat.ltb_spec 0 n); [|lia]. simpl.
    destruct (detect_roles text); simpl; done.
  - rewrite Hthird. destruct tp; simpl; [split; [done|by intros []]|done].
  - intros H.
    assert (∃ f, f ∈ a_nigo_risks a ∧ finding_points f = 18%Z) as (f & Hf & Hp).
    { rewrite Hrisks. destruct H as [H|H].
      - apply Hrole in H. rewrite H. exists (role_finding n).
        rewrite !elem_of_app. split; [right; left; left|apply role_finding_points].
      - apply Hthird in H. rewrite H. exists (third_party_finding tp).
        rewrite !elem_of_app. split; [right; right; left|apply third_party_finding_points]. }
    pose proof (nigo_score_ge_points (a_nigo_risks a) (a_pii_fields a) f Hf) as Hfl.
    rewrite Hp in Hfl. lia.
Qed.

(** ** Strings *)

Lemma lstrip_suffix l : Str.lstrip_chars l `suffix_of` l.
Proof.
  induction l as [|c l IH]; simpl; [done|].
  destruct (is_space c); [by apply suffix_cons_r|done].
Qed.

Lemma lstrip_head l c : head (Str.lstrip_chars l) = Some c → is_space c = false.
Proof.
  induction l as [|d l IH]; simpl; [done|].
  destruct (is_space d) eqn:E; [done|]. simpl. by intros [= <-].
Qed.

Lemma strip_chars_prefix l : Str.strip_chars l `prefix_of` Str.lstrip_chars l.
Proof.
  unfold Str.strip_chars.
  destruct (lstrip_suffix (rev (Str.lstrip_chars l))) as [k Hk].
  exists (rev k). apply (f_equal (@rev ascii)) in Hk. rewrite rev_involutive in Hk.
  rewrite rev_app_distr in Hk. exact Hk.
Qed.

Lemma strip_chars_length l : length (Str.strip_chars l) ≤ length l.
Proof.
  etransitivity; [apply prefix_length, strip_chars_prefix|].
  apply suffix_length, lstrip_suffix.
Qed.

Lemma strip_is_stripped s : stripped (Str.strip s).
Proof.
  unfold stripped, Str.strip. rewrite chars_of_chars. intros c [H|H].
  - destruct (strip_chars_prefix (Str.chars s)) as [k Hk].
    apply (lstrip_head (Str.chars s)). rewrite Hk.
    destruct (Str.strip_chars _); [done|]. done.
  - unfold Str.strip_chars in H. rewrite rev_alt in H.
    change (rev_append ?l []) with (reverse l) in H. rewrite last_reverse in H.
    by apply lstrip_head in H.
Qed.

Lemma strip_len s : Str.len (Str.strip s) ≤ Str.len s.
Proof. unfold Str.len, Str.strip. rewrite chars_of_chars. apply strip_chars_length. Qed.

Lemma slice_to_len n s : Str.len (Str.slice_to n s) ≤ n.
Proof. unfold Str.len, Str.slice_to. rewrite chars_of_chars, length_take. lia. Qed.

(** ** Keeping the first entry of every key *)

Section Dedupe.
Context {A K : Type} `{EqDecision K} (key : A → K).

Lemma dedupe_by_sublist seen l : dedupe_by key seen l `sublist_of` l.
Proof.
  revert seen. induction l as [|a l IH]; intros seen; simpl; [done|].
  case_bool_decide; [by apply sublist_cons|by apply sublist_skip].
Qed.

Lemma dedupe_by_fresh seen l a : a ∈ dedupe_by key seen l → key a ∉ seen.
Proof.
  revert seen. induction l as [|b l IH]; intros seen; simpl; [by intros ?%elem_of_nil|].
  case_bool_decide as E; [apply IH|].
  intros [->|H]%elem_of_cons; [done|].
  apply IH in H. rewrite not_elem_of_cons in H. tauto.
Qed.

Lemma dedupe_by_NoDup seen l : NoDup (key <$> dedupe_by key seen l).
Proof.
  revert seen. induction l as [|b l IH]; intros seen; simpl; [constructor|].
  case_bool_decide as E; [apply IH|].
  rewrite fmap_cons. constructor; [|apply IH].
  intros (a & Hk & Ha)%list_elem_of_fmap. apply dedupe_by_fresh in Ha.
  rewrite not_elem_of_cons in Ha. by destruct Ha.
Qed.

Lemma dedupe_by_complete seen l a :
  a ∈ l → key a ∈ seen ∨ key a ∈ key <$> dedupe_by key seen l.
Proof.
  revert seen. induction l as [|b l IH]; intros seen; [by intros ?%elem_of_nil|].
  simpl. intros [->|H]%elem_of_cons.
  - case_bool_decide; [by left|right; rewrite fmap_cons; left].
  - case_bool_decide; [by apply IH|].
    destruct (IH (key b :: seen) H) as [[->|?]%elem_of_cons|?].
    + right. rewrite fmap_cons. left.
    + by left.
    + right. rewrite fmap_cons. by right.
Qed.

Lemma dedupe_by_id seen l :
  NoDup (key <$> l) → (∀ a, a ∈ l → key a ∉ seen) → dedupe_by key seen l = l.
Proof.
  revert seen. induction l as [|b l IH]; intros seen Hnd Hs; simpl; [done|].
  rewrite fmap_cons in Hnd. apply NoDup_cons in Hnd as [Hb Hnd].
  case_bool_decide as E.
  - exfalso. apply (Hs b); [left|done].
  - f_equal. apply IH; [done|]. intros a Ha. rewrite not_elem_of_cons. split.
    + intros Hk. apply Hb. rewrite <-Hk. apply list_elem_of_fmap. by exists a.
    + apply Hs. by right.
Qed.

End Dedupe.

(** ** Dependencies *)

(** X9: the detected dependencies have pairwise distinct keys (relation
    with form id, or with the hint when no form id was read); every
    relation is one of with, before, after, see; every hint has at most
    180 characters and no white space at either end. *)
Theorem dependencies_unique_and_bounded text :
  let deps := detect_dependencies text in
  NoDup (dep_key <$> deps) ∧
  Forall (λ d, relation d ∈ ["with"; "before"; "after"; "see"] ∧
               Str.len (hint d) ≤ 180 ∧ stripped (hint d)) deps.
Proof.
  unfold detect_dependencies. cbv zeta.
  destruct (Str.is_empty text); [split; constructor|].
  split; [apply dedupe_by_NoDup|].
  apply Forall_forall. intros d Hd.
  eapply elem_of_sublist in Hd; [|apply dedupe_by_sublist].
  apply list_elem_of_In, in_flat_map in Hd as ([rel pat] & Hin & Hd).
  apply in_map_iff in Hd as (m & <- & _). cbn [relation hint].
  split; [|split].
  - apply list_elem_of_In in Hin. unfold DEPENDENCY_PATTERNS in Hin.
    rewrite !elem_of_cons, elem_of_nil in Hin. rewrite !elem_of_cons.
    destruct Hin as [H|[H|[H|[H|[H|[]]]]]]; injection H as -> _; tauto.
  - etransitivity; [apply strip_len|apply slice_to_len].
  - apply strip_is_stripped.
Qed.

(** ** Third parties *)

Lemma omap_keys {A B} (f : A * string → option (A * B)) (table : list (A * string)) :
  (∀ k pat y, f (k, pat) = Some y → y.1 = k) →
  (omap f table).*1 `sublist_of` table.*1.
Proof.
  intros Hf. induction table as [|[k pat] t IH]; simpl; [done|].
  destruct (f (k, pat)) as [y|] eqn:E.
  - rewrite fmap_cons, (Hf _ _ _ E). by apply sublist_skip.
  - by apply sublist_cons.
Qed.

Lemma filter_all {A} (p : A → bool) (l : list A) :
  Forall (λ a, p a = true) l → filter p l = l.
Proof.
  induction 1 as [|a l Ha Hl IH]; [done|].
  rewrite filter_cons. destruct (decide _) as [H|H].
  - by rewrite IH.
  - by rewrite Ha in H.
Qed.

(** X10: the third-party roles are keys of [THIRD_PARTY_PATTERNS] in the
    order of the table, without duplicates and without any core signer
    term; there is one piece of evidence per role up to six, each
    stripped of white space at both ends. *)
Theorem third_parties_known_and_distinct text :
  let tp := detect_third_parties text in
  tp_roles tp `sublist_of` THIRD_PARTY_PATTERNS.*1 ∧
  NoDup (tp_roles tp) ∧
  Forall (λ r, r ∉ CORE_SIGNER_TERMS) (tp_roles tp) ∧
  length (tp_evidence tp) = length (tp_roles tp) `min` 6 ∧
  Forall stripped (tp_evidence tp).
Proof.
  unfold detect_third_parties. cbv zeta.
  destruct (Str.is_empty text).
  { simpl. repeat split; try constructor. apply sublist_nil_l. }
  cbn [tp_roles tp_evidence].
  set (f := λ '(role, pat), match Re.search pat (Str.lower text) Re.I with
                            | Some (start, m) => Some (role, _)
                            | None => None end).
  assert (∀ k pat y, f (k, pat) = Some y → y.1 = k) as Hf.
  { intros k pat y. unfold f. destruct (Re.search _ _ _) as [[start m]|]; [|done].
    by intros [= <-]. }
  pose proof (omap_keys f THIRD_PARTY_PATTERNS Hf) as Hsub.
  assert (NoDup (THIRD_PARTY_PATTERNS.*1)) as Hnd by (apply (bool_decide_unpack _); vm_compute; exact I).
  assert (Forall (λ r, r ∉ CORE_SIGNER_TERMS) (THIRD_PARTY_PATTERNS.*1)) as Hcore
    by (apply (bool_decide_unpack _); vm_compute; exact I).
  change (map fst (omap f THIRD_PARTY_PATTERNS)) with ((omap f THIRD_PARTY_PATTERNS).*1).
  change (map snd (omap f THIRD_PARTY_PATTERNS)) with ((omap f THIRD_PARTY_PATTERNS).*2).
  set (found := omap f THIRD_PARTY_PATTERNS) in *.
  assert (Forall (λ r, r ∉ CORE_SIGNER_TERMS) (found.*1)) as Hcore'.
  { apply Forall_forall. intros r Hr. rewrite Forall_forall in Hcore.
    apply Hcore. by eapply elem_of_sublist. }
  assert (NoDup (found.*1)) as Hnd' by (by eapply sublist_NoDup).
  rewrite filter_all.
  2:{ eapply Forall_impl; [exact Hcore'|]. intros r Hr. simpl.
      apply negb_true_iff, bool_decide_eq_false. done. }
  rewrite dedupe_by_id.
  2:{ by rewrite list_fmap_id. }
  2:{ intros a _. apply not_elem_of_nil. }
  repeat split; try done.
  - rewrite length_take, !length_fmap. lia.
  - apply Forall_take, Forall_forall. intros e ([r e'] & -> & Hin)%list_elem_of_fmap.
    apply list_elem_of_omap in Hin as ([k pat] & _ & Hfk). unfold f in Hfk.
    destruct (Re.search _ _ _) as [[start m]|]; [|done]. injection Hfk as _ <-.
    apply strip_is_stripped.
Qed.

(** ** PII flags *)

Lemma existsb_Exists {A} (p : A → bool) l : existsb p l = true ↔ Exists (λ a, p a = true) l.
Proof. rewrite existsb_exists, Exists_exists. by setoid_rewrite list_elem_of_In. Qed.

(** X11: the PII flags hold exactly the keys of [PII_PATTERNS] and
    ["any_pii"]; each key holds whether its pattern is found, ["any_pii"]
    holds whether some pattern is found, and the key ["routing"] that the
    complexity score weighs is never set. *)
Theorem pii_flags_follow_patterns text :
  let pii := detect_pii text in
  dom pii = list_to_set ("any_pii" :: PII_PATTERNS.*1) ∧
  Forall (λ '(k, pat), pii !! k = Some (Re.found pat text Re.I)) PII_PATTERNS ∧
  (flag pii "any_pii" = true ↔
   Exists (λ '(_, pat), Re.found pat text Re.I = true) PII_PATTERNS) ∧
  flag pii "routing" = false.
Proof.
  unfold detect_pii. cbv zeta.
  split; [|split; [|split]].
  - rewrite dom_insert_L, dom_list_to_map_L, list_to_set_cons.
    f_equal.
  - unfold PII_PATTERNS. repeat (constructor; [reflexivity|]). constructor.
  - unfold flag. rewrite lookup_insert_eq. cbn [default from_option id]. rewrite existsb_Exists.
    rewrite Exists_fmap. apply Exists_proper; [|done]. by intros [k pat].
  - reflexivity.
Qed.

(** ** Roles and attachment hints *)

(** X12: the detected roles are the keys of [ROLE_HINTS] whose pattern is
    found in the text, in the order of the table and without
    duplicates. *)
Theorem roles_in_table_order text :
  detect_roles text `sublist_of` ROLE_HINTS.*1 ∧
  NoDup (detect_roles text) ∧
  ∀ r, r ∈ detect_roles text ↔
       ∃ pat, (r, pat) ∈ ROLE_HINTS ∧ Re.found pat text Re.I = true.
Proof.
  split; [apply detect_roles_sublist|]. split.
  - eapply sublist_NoDup; [|apply detect_roles_sublist].
    apply (bool_decide_unpack _). vm_compute. exact I.
  - intros r. unfold detect_roles. rewrite list_elem_of_fmap. split.
    + intros ([r' pat] & -> & [H Hin]%list_elem_of_filter). exists pat.
      split; [done|]. by apply Is_true_true.
    + intros (pat & Hin & H). exists (r, pat). split; [done|].
      apply list_elem_of_filter. split; [by apply Is_true_true|done].
Qed.

(** X13: the attachment requirements are the patterns of
    [ATTACHMENT_HINTS] that are found in the text, in strictly increasing
    order. *)
Theorem attachment_requirements_sorted_patterns text :
  let hits := detect_attachment_requirements text in
  StronglySorted str_lt hits ∧ NoDup hits ∧
  ∀ pat, pat ∈ hits ↔ pat ∈ ATTACHMENT_HINTS ∧ Re.found pat text Re.I = true.
Proof.
  unfold detect_attachment_requirements. cbv zeta.
  split; [apply sorted_set_sorted|]. split; [apply strictly_sorted_NoDup, sorted_set_sorted|].
  intros pat. rewrite sorted_set_elem, list_elem_of_filter, Is_true_true. tauto.
Qed.

(** ** The summary *)

Lemma bullet_length b s : length (bullet b s) ≤ 1.
Proof. destruct b; simpl; lia. Qed.

Lemma elem_of_bullet b s t : t ∈ bullet b s ↔ b = true ∧ t = s.
Proof.
  destruct b; simpl.
  - rewrite list_elem_of_singleton. tauto.
  - rewrite elem_of_nil. split; [done|]. by intros [? _].
Qed.

Lemma chars_append a b : Str.chars (a +:+ b) = Str.chars a ++ Str.chars b.
Proof. induction a as [|c a IH]; simpl; [done|]. by rewrite <-IH. Qed.

Lemma signature_bullet_last (n : nat) :
  last (Str.chars (pretty n +:+ " signature field(s)")) = Some ")"%char.
Proof.
  rewrite chars_append. change (Str.chars " signature field(s)")
    with (Str.chars " signature field(s" ++ [")"%char]).
  rewrite app_assoc. apply last_snoc.
Qed.

Lemma elem_of_bullet_app b s rest t :
  t ∈ bullet b s ++ rest ↔ (b = true ∧ t = s) ∨ t ∈ rest.
Proof. by rewrite elem_of_app, elem_of_bullet. Qed.

Ltac bullet_other Hb He :=
  first [ exact Hb
        | discriminate He
        | apply (f_equal (λ s, last (Str.chars s))) in He;
          rewrite signature_bullet_last in He; discriminate He ].

Ltac bullet_in H :=
  let Hb := fresh "Hb" in
  let He := fresh "He" in
  repeat (apply elem_of_bullet_app in H; destruct H as [[Hb He]|H]; [bullet_other Hb He|]);
  apply elem_of_bullet in H as [Hb He]; bullet_other Hb He.

Ltac bullet_put H :=
  repeat first [ apply elem_of_bullet_app; left; (split; [exact H|reflexivity])
               | apply elem_of_bullet_app; right ];
  try (apply elem_of_bullet; (split; [exact H|reflexivity])).

(** X14: the summary holds at most 12 bullets, no bullet twice, and the
    bullets on notarization, PII and domain mismatch are present exactly
    when the analysis says so. *)
Theorem summary_bullets_distinct result :
  let bullets := summarize_special_requirements result in
  NoDup bullets ∧ length bullets ≤ 12 ∧
  ("Requires notarization" ∈ bullets ↔ notarized (a_signature_analysis result) = "Yes") ∧
  ("Collects sensitive PII" ∈ bullets ↔ flag (a_pii_fields result) "any_pii" = true) ∧
  ("Hosted on domain different from issuer" ∈ bullets ↔
     mismatch (a_host_domain_check result) = true).
Proof.
  unfold summarize_special_requirements. cbv zeta.
  set (bs := bullet _ _ ++ _).
  assert (∀ s, s ∈ dedupe_by id [] bs ↔ s ∈ bs) as Hmem.
  { intros s. split.
    - intros H. eapply elem_of_sublist; [done|apply dedupe_by_sublist].
    - intros H. destruct (dedupe_by_complete id [] bs s H) as [H'|H'].
      + by apply elem_of_nil in H'.
      + by rewrite list_fmap_id in H'. }
  split; [|split].
  - pose proof (dedupe_by_NoDup (@id string) [] bs) as H. by rewrite list_fmap_id in H.
  - etransitivity; [apply sublist_length, dedupe_by_sublist|].
    unfold bs. rewrite !length_app.
    repeat match goal with |- context [length (bullet ?b ?s)] =>
      pose proof (bullet_length b s); generalize dependent (length (bullet b s)); intros end.
    lia.
  - rewrite !Hmem. unfold bs. clear. split; [|split]; split; intros H.
    + assert (Str.eqb (notarized (a_signature_analysis result)) "Yes" = true) as Hy
        by bullet_in H.
      by apply bool_decide_eq_true in Hy.
    + assert (Str.eqb (notarized (a_signature_analysis result)) "Yes" = true) as Hy
        by (by apply bool_decide_eq_true).
      bullet_put Hy.
    + bullet_in H.
    + bullet_put H.
    + bullet_in H.
    + bullet_put H.
Qed.

(** ** The reverse index of the registry *)

Lemma index_domains (brand : string) doms : ∀ (m : gmap string string) d,
  fold_left (λ m d, <[d := brand]> m) doms m !! d
  = if bool_decide (d ∈ doms) then Some brand else m !! d.
Proof.
  induction doms as [|x doms IH]; intros m d; simpl; [done|].
  rewrite IH. case_bool_decide as E1; case_bool_decide as E2; try done.
  - exfalso. apply E2. by right.
  - apply elem_of_cons in E2 as [->|?]; [|done]. by rewrite lookup_insert_eq.
  - rewrite lookup_insert_ne; [done|]. intros ->. apply E2. left.
Qed.

Lemma ROOT_TO_BRAND_snoc brand_map brand doms d :
  ROOT_TO_BRAND (brand_map ++ [(brand, doms)]) !! d
  = if bool_decide (d ∈ doms) then Some brand else ROOT_TO_BRAND brand_map !! d.
Proof. unfold ROOT_TO_BRAND. rewrite fold_left_app. simpl. apply index_domains. Qed.

(** X15: the reverse index maps a domain to the last brand of the registry
    that lists it, and holds no entry for a domain that no brand
    lists. *)
Theorem root_index_last_brand_wins brand_map d :
  match ROOT_TO_BRAND brand_map !! d with
  | Some brand =>
      ∃ pre doms post, brand_map = pre ++ (brand, doms) :: post ∧ d ∈ doms ∧
                       Forall (λ '(_, doms'), d ∉ doms') post
  | None => Forall (λ '(_, doms), d ∉ doms) brand_map
  end.
Proof.
  induction brand_map as [|[brand doms] brand_map IH] using rev_ind.
  - unfold ROOT_TO_BRAND. simpl. rewrite lookup_empty. constructor.
  - rewrite ROOT_TO_BRAND_snoc. case_bool_decide as E.
    + exists brand_map, doms, []. done.
    + destruct (ROOT_TO_BRAND brand_map !! d) as [b|].
      * destruct IH as (pre & doms' & post & -> & Hd & Hpost).
        exists pre, doms', (post ++ [(brand, doms)]). split; [by rewrite <-app_assoc|].
        split; [done|]. apply Forall_app. split; [done|]. by constructor.
      * apply Forall_app. split; [done|]. by constructor.
Qed.

(** ** The trust evaluation *)

(** X16: the trust evaluation always returns a confidence between 0 and
    100, a non-empty issuer guess and one of the reasons "OK",
    "Government issuer on non-.gov host." and "Host root aligns with
    issuer." -- never "Host does not match issuer domains." nor
    "Mismatch".  A mismatch is flagged only for a government issuer off a
    .gov host, with a matched issuer domain, an unregistered root and a
    confidence of 55 or more; without a matched domain and without a
    registered root the confidence is at most 35. *)
Theorem domain_trust_invariants host root res brand_map :
  let r := domain_trust host root res brand_map in
  (0 ≤ confidence r ≤ 100)%Z ∧
  (reason r = "OK" ∨ reason r = "Government issuer on non-.gov host." ∨
   reason r = "Host root aligns with issuer.") ∧
  issuer_guess r ≠ "" ∧
  (mismatch r = true ↔ reason r = "Government issuer on non-.gov host.") ∧
  (mismatch r = true →
     gov_off_domain (ir_issuer res) host = true ∧ issuer_domains_matched r ≠ [] ∧
     root_registered brand_map root (ir_issuer res) = false ∧ (55 ≤ confidence r)%Z) ∧
  (issuer_domains_matched r = [] → root_registered brand_map root (ir_issuer res) = false →
     (confidence r ≤ 35)%Z).
Proof.
  cbv zeta. unfold domain_trust. cbv zeta.
  set (doms := remove_dups _).
  pose proof (matched_nonempty_of_root host root doms) as Hm.
  set (matched := filter _ doms) in *.
  assert (bool_decide (root ∈ doms) && negb (nonempty matched) = false) as ->.
  { case_bool_decide as Hin; [|done]. by rewrite (Hm Hin). }
  clear Hm.
  assert ((if Str.is_empty (ir_issuer res) then "Unknown" else ir_issuer res) ≠ "") as Hi.
  { unfold Str.is_empty. case_bool_decide; done. }
  revert Hi. generalize (if Str.is_empty (ir_issuer res) then "Unknown" else ir_issuer res).
  intros guess Hguess.
  destruct matched as [|d ms]; simpl nonempty; simpl negb;
    destruct (nonempty (ir_text_hits res)), (nonempty (ir_meta_hits res)),
      (existsb _ KNOWN_CDNS), (gov_off_domain _ _), (root_registered brand_map _ _);
    simpl; trust_cases; tauto.
Qed.

(** ** The entity name *)

Lemma first_containing_spec hay table :
  match first_containing hay table with
  | Some v => ∃ pre k post, table = pre ++ (k, v) :: post ∧ Str.contains k hay = true ∧
                            Forall (λ '(k', _), Str.contains k' hay = false) pre
  | None => Forall (λ '(k, _), Str.contains k hay = false) table
  end.
Proof.
  unfold first_containing. induction table as [|[k v] t IH]; [constructor|].
  rewrite filter_cons. destruct (decide _) as [H|H].
  - simpl. exists [], k, t. split; [done|]. split; [by apply Is_true_true|constructor].
  - apply Is_true_false in H.
    destruct (head (map snd (filter _ t))) as [v'|].
    + destruct IH as (pre & k' & post & -> & Hk & Hpre).
      exists ((k, v) :: pre), k', post. split; [done|]. split; [done|]. by constructor.
    + by constructor.
Qed.

Lemma first_containing_value hay table v :
  first_containing hay table = Some v → v ∈ table.*2.
Proof.
  intros H. pose proof (first_containing_spec hay table) as Hs. rewrite H in Hs.
  destruct Hs as (pre & k & post & -> & _ & _).
  rewrite fmap_app, fmap_cons. apply elem_of_app. right. left.
Qed.

Lemma entity_name_known text url :
  extract_entity_name_financial text url ∈ "Unknown Entity" :: entity_domains.*2.
Proof.
  unfold extract_entity_name_financial. cbv zeta.
  destruct (first_containing (Str.lower url) _) as [v|] eqn:E1.
  { right. by eapply first_containing_value. }
  destruct (first_containing text _) as [v|] eqn:E2.
  { right. by eapply first_containing_value. }
  left.
Qed.

Lemma known_entities_resolved :
  Forall (λ v, unresolved (Str.strip v) = false) (entity_domains.*2).
Proof. apply (bool_decide_unpack _). vm_compute. exact I. Qed.

(** X18: the entity name is "Unknown Entity" or a value of the table; a
    key found in the lower-cased URL decides it whatever the text is,
    and the name is "Unknown Entity" exactly when no key occurs in the
    URL nor in the text. *)
Theorem entity_name_url_before_text text url :
  let name := extract_entity_name_financial text url in
  name ∈ "Unknown Entity" :: entity_domains.*2 ∧
  (first_containing (Str.lower url) entity_domains ≠ None →
     ∀ text', extract_entity_name_financial text' url = name) ∧
  (name = "Unknown Entity" ↔
     Forall (λ '(k, _), Str.contains k (Str.lower url) = false) entity_domains ∧
     Forall (λ '(k, _), Str.contains k text = false) entity_domains).
Proof.
  cbv zeta. split; [apply entity_name_known|].
  unfold extract_entity_name_financial. cbv zeta.
  pose proof (first_containing_spec (Str.lower url) entity_domains) as H1.
  pose proof (first_containing_spec text entity_domains) as H2.
  pose proof known_entities_resolved as Hk. rewrite Forall_forall in Hk.
  assert (∀ hay v, first_containing hay entity_domains = Some v → v ≠ "Unknown Entity") as Hne.
  { intros hay v Hv%first_containing_value ->. by specialize (Hk _ Hv). }
  assert (∀ hay k v pre post, entity_domains = pre ++ (k, v) :: post →
            Str.contains k hay = true →
            ¬ Forall (λ '(k, _), Str.contains k hay = false) entity_domains) as Hex.
  { intros hay k v pre post -> Hc HF. apply Forall_app in HF as [_ HF].
    apply Forall_cons in HF as [HF _]. congruence. }
  destruct (first_containing (Str.lower url) _) as [v|] eqn:E1.
  - split; [done|]. split; [intros ->; exfalso; by eapply Hne|].
    destruct H1 as (pre & k & post & Ht & Hc & _). intros [HF _]. by eapply Hex in HF.
  - split; [done|].
    destruct (first_containing text _) as [v|] eqn:E2.
    + split; [intros ->; exfalso; by eapply Hne|].
      destruct H2 as (pre & k & post & Ht & Hc & _). intros [_ HF]. by eapply Hex in HF.
    + done.
Qed.

(** ** Failing runs *)





(** ** The title *)

Lemma len_zero s : Str.len s = 0 ↔ s = "".
Proof.
  unfold Str.len. split; [|by intros ->].
  destruct s; [done|]. simpl. lia.
Qed.

(** X19: the title is never empty: it is the metadata title when there is
    one, and otherwise "Unknown Form" or between 6 and 120 characters of
    a line of the text, starting with a character that is not white
    space. *)
Theorem title_never_empty meta text :
  let title := extract_title meta text in
  title ≠ "" ∧
  (meta_get meta "title" ≠ "" → title = meta_get meta "title") ∧
  (meta_get meta "title" = "" →
     title = "Unknown Form" ∨
     (6 ≤ Str.len title ≤ 120 ∧
      ∀ c, head (Str.chars title) = Some c → is_space c = false)).
Proof.
  cbv zeta. unfold extract_title, Str.is_empty.
  case_bool_decide as Hm; simpl.
  2:{ split; [done|]. split; [done|]. by intros ?. }
  destruct (filter _ (splitlines text)) as [|line rest] eqn:E.
  { split; [done|]. split; [by intros ?|]. by left. }
  assert (line ∈ filter (λ line, Nat.ltb 5 (Str.len (Str.strip line))) (splitlines text)) as Hin
    by (rewrite E; left).
  apply list_elem_of_filter in Hin as [Hlen _]. apply Is_true_true, Nat.ltb_lt in Hlen.
  assert (6 ≤ Str.len (Str.slice_to 120 (Str.strip line)) ≤ 120) as Hl.
  { unfold Str.len, Str.slice_to in *. rewrite chars_of_chars, length_take. lia. }
  split; [|split; [done|]].
  - intros H%len_zero. lia.
  - intros _. right. split; [done|]. intros c Hc.
    apply (strip_is_stripped line). left.
    unfold Str.slice_to in Hc. rewrite chars_of_chars in Hc.
    destruct (Str.chars (Str.strip line)); simpl in Hc; done.
Qed.

(** ** Industry and subvertical *)

(** X20: the classification is the pair of empty strings or an industry
    of [INDUSTRY_SET] with one of its subverticals in [SUBVERTICALS], so
    the set-order dependent default of the source is never needed. *)
Theorem classification_from_tables env url text entity_name :
  let '(industry, sub) := classify_industry_subvertical env url text entity_name in
  (industry = "" ∧ sub = "") ∨
  (industry ∈ INDUSTRY_SET ∧ ∃ subs, (industry, subs) ∈ SUBVERTICALS ∧ sub ∈ subs).
Proof.
  unfold classify_industry_subvertical. cbv zeta.
  repeat match goal with |- context [if ?b then _ else _] =>
    lazymatch b with
    | any_in _ _ => destruct b eqn:?
    | _ || _ => destruct b eqn:?
    end end;
  first [ by left
        | right; split; [unfold INDUSTRY_SET; rewrite !elem_of_cons; tauto|];
          eexists; split;
          [unfold SUBVERTICALS; rewrite !elem_of_cons;
           first [left; reflexivity|right; left; reflexivity|right; right; left; reflexivity]
          |rewrite !elem_of_cons; tauto] ].
Qed.

(** ** Field counts *)

Lemma count_where_le {A} (f : A → bool) l : count_where f l ≤ length l.
Proof. unfold count_where. apply length_filter. Qed.

Lemma count_where_disjoint4 {A} (f g h k : A → bool) l :
  (∀ a, Nat.b2n (f a) + Nat.b2n (g a) + Nat.b2n (h a) + Nat.b2n (k a) ≤ 1) →
  count_where f l + count_where g l + count_where h l + count_where k l ≤ length l.
Proof.
  intros H. unfold count_where. induction l as [|a l IH]; simpl; [done|].
  rewrite !filter_cons. specialize (H a).
  repeat destruct (decide _) as [?%Is_true_true|?%Is_true_false];
    repeat match goal with E : _ = _ |- _ => rewrite E in H; clear E end;
    simpl in *; lia.
Qed.

Lemma count_fields_lookup (a b c d e : nat) :
  let m : gmap string nat :=
    list_to_map [("total", a); ("text_fields", b); ("checkboxes", c); ("dropdowns", d);
                 ("signatures", e)] in
  fields_get m "total" = a ∧ fields_get m "text_fields" = b ∧ fields_get m "checkboxes" = c ∧
  fields_get m "dropdowns" = d ∧ fields_get m "signatures" = e.
Proof. repeat split; vm_compute; reflexivity. Qed.

(** X21: the four counted field types are disjoint: text fields,
    checkboxes, dropdowns and signatures together never exceed the total;
    the signature fields counted here never exceed the signature widgets
    that the signature analysis counts, and a document that cannot be
    opened counts no field. *)
Theorem field_counts_partition pdf :
  let fields := count_fields pdf in
  fields_get fields "text_fields" + fields_get fields "checkboxes"
  + fields_get fields "dropdowns" + fields_get fields "signatures"
  ≤ fields_get fields "total" ∧
  fields_get fields "signatures" ≤ count_signature_widgets pdf ∧
  count_signature_widgets pdf ≤ fields_get fields "total" ∧
  (∀ e, fitz_doc pdf = Raised e → fields_get fields "total" = 0).
Proof.
  cbv zeta. unfold count_fields, count_signature_widgets, _open_doc. cbv zeta.
  match goal with |- context [list_to_map [(_, ?a); (_, ?b); (_, ?c); (_, ?d); (_, ?e)]] =>
    destruct (count_fields_lookup a b c d e) as (-> & -> & -> & -> & ->) end.
  destruct (fitz_doc pdf) as [e|doc]; [by repeat split|].
  split; [|split; [|split; [apply count_where_le|done]]].
  - apply count_where_disjoint4. intros w. unfold is_sig_widget.
    destruct (field_type w), (is_signature w); simpl; lia.
  - apply count_where_mono. intros w. unfold is_sig_widget.
    destruct (field_type w), (is_signature w); simpl; done.
Qed.

(** ** Radio groups and scripts *)

Lemma remove_dups_length {A} `{EqDecision A} (l : list A) : length (remove_dups l) ≤ length l.
Proof.
  induction l as [|a l IH]; simpl; [done|].
  destruct (decide_rel _ _ _); simpl; lia.
Qed.

Lemma count_radio_groups_le pdf doc :
  fitz_doc pdf = Ok doc → count_radio_groups pdf ≤ count_where is_radio (all_widgets doc).
Proof.
  intros Hd. unfold count_radio_groups, _open_doc. rewrite Hd. cbv zeta.
  etransitivity; [apply remove_dups_length|].
  etransitivity; [apply length_filter|].
  by rewrite length_map.
Qed.

(** X22: the script detection answers "Yes" or "No", and it answers "Yes"
    whenever two or more radio groups are counted; so the multi-step hint
    of an analysis is the test for two or more radio groups. *)
Theorem radio_groups_imply_logic pdf :
  (detect_js pdf = "Yes" ∨ detect_js pdf = "No") ∧
  (2 ≤ count_radio_groups pdf → detect_js pdf = "Yes") ∧
  Str.eqb (detect_js pdf) "Yes" && Nat.leb 2 (count_radio_groups pdf)
  = Nat.leb 2 (count_radio_groups pdf).
Proof.
  assert (detect_js pdf = "Yes" ∨ detect_js pdf = "No") as H1.
  { unfold detect_js. destruct (_open_doc pdf); [by right|].
    repeat case_match; auto. }
  assert (2 ≤ count_radio_groups pdf → detect_js pdf = "Yes") as H2.
  { intros H. unfold detect_js, _open_doc.
    destruct (fitz_doc pdf) as [e|doc] eqn:Hd.
    { unfold count_radio_groups, _open_doc in H. rewrite Hd in H. lia. }
    pose proof (count_radio_groups_le pdf doc Hd).
    destruct (Nat.leb_spec 2 (count_where is_radio (all_widgets doc))); [|lia].
    repeat case_match; done. }
  split; [done|]. split; [done|].
  destruct (Nat.leb_spec 2 (count_radio_groups pdf)) as [H|H]; [|by rewrite andb_false_r].
  rewrite (H2 H). done.
Qed.

(** ** Signature estimates *)

Lemma sum_by_le {A} (f : A → nat) n l : (∀ a, f a ≤ n) → sum_by f l ≤ n * length l.
Proof.
  intros H. induction l as [|a l IH]; simpl; [lia|]. specialize (H a). lia.
Qed.

Lemma page_signature_lines_cap pg : page_signature_lines pg ≤ 2.
Proof. unfold page_signature_lines. destruct (keyed_blocks _ _); simpl; lia. Qed.

(** X23: the layout estimate of signatures is at most 5, both estimates
    are at most two per page (at most 2 when the document cannot be
    opened), the signature count is at most the larger of the explicit
    count and 5, and the notarization answer is "Yes" or "No". *)
Theorem signature_estimates_capped pdf text :
  let sigs := analyze_signatures pdf text in
  _estimate_text_signatures pdf text ≤ 5 ∧
  match fitz_doc pdf with
  | Ok doc =>
      _estimate_text_signatures pdf text ≤ 2 * length (pages doc) ∧
      _estimate_witness_signatures pdf text ≤ 2 * length (pages doc)
  | Raised _ =>
      _estimate_text_signatures pdf text ≤ 2 ∧ _estimate_witness_signatures pdf text ≤ 2
  end ∧
  signature_count sigs ≤ Nat.max (count_signature_widgets pdf + (digital_signatures pdf).1) 5 ∧
  (notarized sigs = "Yes" ∨ notarized sigs = "No").
Proof.
  cbv zeta.
  assert (_estimate_text_signatures pdf text ≤ 5) as H5.
  { unfold _estimate_text_signatures. destruct (_open_doc pdf); lia. }
  split; [done|]. split; [|split].
  - unfold _estimate_text_signatures, _estimate_witness_signatures, _open_doc.
    destruct (fitz_doc pdf) as [e|doc]; [lia|].
    rewrite !fold_left_add_sum_by.
    pose proof (sum_by_le page_signature_lines 2 (pages doc) page_signature_lines_cap).
    pose proof (sum_by_le page_witness_lines 2 (pages doc) page_witness_lines_cap).
    lia.
  - unfold analyze_signatures. destruct (digital_signatures pdf) as [dig ts]. simpl.
    destruct (Nat.eqb_spec (count_signature_widgets pdf + dig) 0); lia.
  - unfold analyze_signatures. destruct (digital_signatures pdf) as [dig ts]. simpl.
    destruct (_ || _); auto.
Qed.

Lemma compile_nl_run : Re.compile Re.NOFLAG "\s*\n\s*" = nl_run.
Proof. reflexivity. Qed.

(** ** The matcher never moves backwards *)

Lemma rep_rest_le step : 
  (∀ s s', s' ∈ step s → length (Re.rest s') ≤ length (Re.rest s)) →
  ∀ fuel greedy lo hi s s',
    s' ∈ Re.rep step greedy lo hi fuel s → length (Re.rest s') ≤ length (Re.rest s).
Proof.
  intros Hstep. induction fuel as [|fuel IH]; intros greedy lo hi s s'; cbn [Re.rep].
  - destruct (Nat.eqb lo 0); [|by intros ?%elem_of_nil].
    by intros ->%list_elem_of_singleton.
  - assert (s' ∈ (if Nat.eqb lo 0 then [s] else []) → length (Re.rest s') ≤ length (Re.rest s))
      as Hstop.
    { destruct (Nat.eqb lo 0); [|by intros ?%elem_of_nil].
      by intros ->%list_elem_of_singleton. }
    assert (s' ∈ (if Re.hi_allows hi
                  then flat_map (λ s1, if Nat.ltb (length (Re.rest s1)) (length (Re.rest s))
                                       then Re.rep step greedy (Nat.pred lo) (Nat.pred <$> hi) fuel s1
                                       else []) (step s)
                  else []) → length (Re.rest s') ≤ length (Re.rest s)) as Hmore.
    { destruct (Re.hi_allows hi); [|by intros ?%elem_of_nil].
      intros (s1 & H1 & H)%list_elem_of_In%in_flat_map.
      apply list_elem_of_In in H1, H.
      destruct (Nat.ltb_spec (length (Re.rest s1)) (length (Re.rest s)));
        [|by apply elem_of_nil in H].
      apply IH in H. lia. }
    destruct greedy; intros [?|?]%elem_of_app; auto.
Qed.

Lemma run_rest_le r : ∀ s s', s' ∈ Re.run r s → length (Re.rest s') ≤ length (Re.rest s).
Proof.
  induction r as [|q|a IHa b IHb|a IHa b IHb|g lo hi a IHa| |]; intros s s'; cbn [Re.run].
  - by intros ->%list_elem_of_singleton.
  - destruct (Re.rest s) as [|c t] eqn:E; [by intros ?%elem_of_nil|].
    destruct (q c); [|by intros ?%elem_of_nil].
    intros ->%list_elem_of_singleton. simpl. lia.
  - intros (s1 & H1 & H)%list_elem_of_In%in_flat_map. apply list_elem_of_In in H1, H.
    apply IHa in H1. apply IHb in H. lia.
  - intros [?|?]%elem_of_app; auto.
  - by apply rep_rest_le.
  - destruct (Re.at_boundary s); [|by intros ?%elem_of_nil].
    by intros ->%list_elem_of_singleton.
  - destruct (Re.prev s); [by intros ?%elem_of_nil|].
    by intros ->%list_elem_of_singleton.
Qed.

Lemma run_seq a b s : Re.run (Re.Seq a b) s = flat_map (Re.run b) (Re.run a s).
Proof. reflexivity. Qed.

Lemma elem_of_run_seq a b s s' :
  s' ∈ Re.run (Re.Seq a b) s ↔ ∃ s1, s1 ∈ Re.run a s ∧ s' ∈ Re.run b s1.
Proof.
  rewrite run_seq, list_elem_of_In, in_flat_map. by setoid_rewrite list_elem_of_In.
Qed.

Lemma elem_of_run_cls q s s' :
  s' ∈ Re.run (Re.Cls q) s ↔ ∃ c t, Re.rest s = c :: t ∧ q c = true ∧ s' = Re.MState (Some c) t.
Proof.
  cbn [Re.run]. destruct (Re.rest s) as [|c t].
  { rewrite elem_of_nil. split; [done|]. by intros (? & ? & ? & _). }
  destruct (q c) eqn:E.
  - rewrite list_elem_of_singleton. split; [by exists c, t|].
    by intros (? & ? & [= <- <-] & _ & ->).
  - rewrite elem_of_nil. split; [done|]. intros (? & ? & [= <- <-] & ? & _). congruence.
Qed.

Lemma run_star_self a s : s ∈ Re.run (Re.Rep true 0 None a) s.
Proof. cbn [Re.run Re.rep]. simpl. apply elem_of_app. right. left. Qed.

(** [\s*\n\s*] matches wherever a line feed starts, and never the empty text *)
Lemma match_at_nl_run p l :
  match Re.match_at nl_run p l with
  | Some n => 0 < n
  | None => ∀ c t, l = c :: t → c ≠ newline
  end.
Proof.
  unfold Re.match_at.
  destruct (Re.run nl_run (Re.MState p l)) as [|s' ss] eqn:E.
  - intros c t -> ->.
    assert (Re.MState (Some newline) t ∈ Re.run nl_run (Re.MState p (newline :: t))) as Hx.
    { unfold nl_run. apply elem_of_run_seq. eexists. split; [apply run_star_self|].
      apply elem_of_run_seq. exists (Re.MState (Some newline) t). split.
      - apply elem_of_run_cls. exists newline, t. done.
      - apply elem_of_run_seq. eexists. split; [apply run_star_self|]. left. }
    rewrite E in Hx. by apply elem_of_nil in Hx.
  - assert (s' ∈ Re.run nl_run (Re.MState p l)) as Hin by (rewrite E; left).
    unfold nl_run in Hin.
    apply elem_of_run_seq in Hin as (s1 & H1 & Hin). apply run_rest_le in H1.
    apply elem_of_run_seq in Hin as (s2 & H2 & Hin). apply run_rest_le in Hin.
    apply elem_of_run_cls in H2 as (c & t & Hc & _ & ->).
    cbn [Re.rest] in *. rewrite Hc in H1. simpl in H1. lia.
Qed.

Section Removal.
(** a substitution removes a character that always starts a match and that
    the replacement does not bring back *)
Variable bad : ascii → Prop.
Variable r : Re.regex.
Variable repl : list ascii → list ascii.
Hypothesis repl_clean : ∀ m, Forall (λ c, ¬ bad c) (repl m).
Hypothesis matched : ∀ p l,
  match Re.match_at r p l with
  | Some n => 0 < n
  | None => ∀ c t, l = c :: t → ¬ bad c
  end.

Lemma sub_go_removes l : ∀ p skip, Forall (λ c, ¬ bad c) (Re.sub_go r repl p skip l).
Proof.
  induction l as [|c t IH]; intros p skip.
  - destruct skip; simpl; [|constructor].
    destruct (Re.match_at r p []); [|constructor]. rewrite app_nil_r. apply repl_clean.
  - destruct skip as [|k]; simpl; [|apply IH].
    pose proof (matched p (c :: t)) as Hm.
    destruct (Re.match_at r p (c :: t)) as [n|].
    + apply Forall_app. split; [apply repl_clean|].
      destruct n; [lia|]. simpl. apply IH.
    + constructor; [by eapply Hm|apply IH].
Qed.
End Removal.

(** X24: the normalized text, and so the text that every detector reads,
    holds no line feed. *)
Theorem normalized_text_has_no_line_feed raw :
  no_newline (_normalize_text_for_rules raw) ∧
  ∀ pdf, no_newline (extract_text pdf).
Proof.
  assert (∀ raw, no_newline (_normalize_text_for_rules raw)) as H.
  { clear. intros raw. unfold _normalize_text_for_rules.
    destruct (Str.is_empty raw); [constructor|]. cbv zeta.
    unfold no_newline, Re.sub at 1. rewrite chars_of_chars.
    apply sub_go_Forall; [intros m _; repeat constructor; done|].
    unfold Re.sub at 1. rewrite chars_of_chars, compile_nl_run.
    apply (sub_go_removes (λ c, c = newline)).
    - intros m. repeat constructor. done.
    - intros p l. pose proof (match_at_nl_run p l). by destruct (Re.match_at nl_run p l). }
  split; [apply H|]. intros pdf.
  destruct (extract_text_cases pdf) as [-> | ->]; [constructor|apply H].
Qed.

(** ** The brand configuration *)

Lemma dict_set_keys {V} k (v : V) d :
  ∀ k', k' ∈ (dict_set k v d).*1 ↔ k' = k ∨ k' ∈ d.*1.
Proof.
  induction d as [|[k1 v1] d IH]; intros k'; simpl.
  - rewrite list_elem_of_singleton, elem_of_nil. tauto.
  - unfold Str.eqb. case_bool_decide as E; simpl; rewrite !elem_of_cons.
    + subst. tauto.
    + rewrite IH. tauto.
Qed.

Lemma dict_set_NoDup {V} k (v : V) d : NoDup d.*1 → NoDup (dict_set k v d).*1.
Proof.
  induction d as [|[k1 v1] d IH]; simpl; intros Hnd.
  - repeat constructor. apply not_elem_of_nil.
  - apply NoDup_cons in Hnd as [Hk Hnd].
    unfold Str.eqb. case_bool_decide as E; simpl.
    + subst. by constructor.
    + constructor; [|by apply IH]. rewrite dict_set_keys. intros [->|?]; done.
Qed.

Lemma dict_set_Forall {V} (P : V → Prop) k v d :
  P v → Forall (λ kv, P kv.2) d → Forall (λ kv, P kv.2) (dict_set k v d).
Proof.
  intros Hv. induction 1 as [|[k1 v1] d H1 Hd IH]; simpl; [by repeat constructor|].
  destruct (Str.eqb k1 k); by constructor.
Qed.

Lemma dict_set_nonempty {V} k (v : V) d : dict_set k v d ≠ [].
Proof. destruct d as [|[k1 v1] d]; simpl; [done|]. by destruct (Str.eqb k1 k). Qed.

Lemma builtin_brands_lowercase :
  Forall (λ kv : string * list string, Forall entirely_lowercase kv.2) builtin_brands.
Proof.
  assert (Forall (λ kv : string * list string, Forall (λ d, Str.lower d = d) kv.2)
            builtin_brands) as H by (repeat constructor).
  eapply Forall_impl; [exact H|]. intros [k doms] Hd. simpl in *.
  eapply Forall_impl; [exact Hd|]. intros d <-. apply lower_is_lowercase.
Qed.

Lemma builtin_brands_NoDup : NoDup builtin_brands.*1.
Proof. apply (bool_decide_unpack _). vm_compute. exact I. Qed.

(** X25: the registry that is loaded is never empty, names no brand
    twice and holds lower-case domains only; without a configuration it
    is the built-in registry. *)
Theorem brand_config_registry repr config :
  let brand_map := load_brand_config repr config in
  brand_map ≠ [] ∧ NoDup brand_map.*1 ∧
  Forall (λ kv, Forall entirely_lowercase kv.2) brand_map ∧
  (config = None → brand_map = builtin_brands).
Proof.
  cbv zeta.
  assert (builtin_brands ≠ [] ∧ NoDup builtin_brands.*1 ∧
          Forall (λ kv : string * list string, Forall entirely_lowercase kv.2) builtin_brands)
    as Hb by (split; [done|]; split; [apply builtin_brands_NoDup|apply builtin_brands_lowercase]).
  unfold load_brand_config. cbv zeta.
  destruct config as [y|]; [|by destruct Hb as (? & ? & ?)].
  destruct (if yaml_truthy y then y else YMap []) as [| |top];
    [by destruct Hb as (? & ? & ?)..|].
  destruct (match snd <$> head _ with Some b => _ | None => _ end) as [| |entries];
    [by destruct Hb as (? & ? & ?)..|].
  set (step := λ (out : list (string * list string)) '(k, v), match v with
                 | YSeq doms => _ | _ => out end).
  assert (∀ es out, NoDup out.*1 → Forall (λ kv, Forall entirely_lowercase kv.2) out →
            NoDup (fold_left step es out).*1 ∧
            Forall (λ kv, Forall entirely_lowercase kv.2) (fold_left step es out)) as Hfold.
  { induction es as [|[k v] es IH]; intros out Hnd Hlow; simpl; [auto|].
    destruct v as [t b|doms|m]; simpl; [by apply IH| |by apply IH].
    apply IH; [by apply dict_set_NoDup|].
    apply (dict_set_Forall (Forall entirely_lowercase)); [|done].
    apply Forall_forall. intros d (y0 & -> & _)%list_elem_of_fmap. apply lower_is_lowercase. }
  destruct (Hfold entries [] (NoDup_nil_2) (Forall_nil_2 _)) as (Hnd & Hlow).
  destruct (fold_left step entries []) as [|kv out] eqn:E; simpl nonempty; cbv iota.
  { by destruct Hb as (? & ? & ?). }
  done.
Qed.

(** ** Batch input *)

Lemma starts_with_hash l :
  Str.starts_with (Str.chars "#") l = true ↔ head l = Some "#"%char.
Proof.
  change (Str.chars "#") with ["#"%char].
  destruct l as [|c l]; cbn [Str.starts_with head]; [done|]. rewrite andb_true_r.
  rewrite Ascii.eqb_eq. split; [by intros <-|by intros [= <-]].
Qed.

(** X26: the items of an input file are the stripped lines, in order,
    that are not empty and do not start with "#"; no such line is
    dropped. *)
Theorem inputs_are_stripped_entries lines :
  let items := load_inputs lines in
  items `sublist_of` (Str.strip <$> lines) ∧
  Forall (λ it, it ≠ "" ∧ stripped it ∧ head (Str.chars it) ≠ Some "#"%char) items ∧
  ∀ line, line ∈ lines → Str.strip line ≠ "" →
          head (Str.chars (Str.strip line)) ≠ Some "#"%char → Str.strip line ∈ items.
Proof.
  cbv zeta. unfold load_inputs. split; [apply sublist_filter|]. split.
  - apply Forall_forall. intros it [Hp Hin]%list_elem_of_filter.
    apply Is_true_true, andb_true_iff in Hp as [H1 H2].
    apply negb_true_iff in H1, H2. unfold Str.is_empty in H1.
    apply bool_decide_eq_false in H1.
    apply list_elem_of_fmap in Hin as (line & -> & _).
    split; [done|]. split; [apply strip_is_stripped|].
    intros H%starts_with_hash. congruence.
  - intros line Hin Hne Hhash. apply list_elem_of_filter. split.
    + apply Is_true_true, andb_true_iff. split; apply negb_true_iff.
      * by apply bool_decide_eq_false.
      * apply not_true_is_false. by intros H%starts_with_hash.
    + apply list_elem_of_fmap. by exists line.
Qed.

(** ** The CSV of findings *)

Lemma csv_rows_length results :
  length (csv_rows results)
  = 1 + sum_by (λ r, Nat.max 1 (length (default [] (nigo_risks_of r)))) results.
Proof.
  unfold csv_rows. simpl. f_equal.
  induction results as [|r rs IH]; simpl; [done|].
  rewrite length_app, IH. f_equal. unfold result_rows.
  destruct (default [] (nigo_risks_of r)) as [|g gs]; simpl; [done|].
  by rewrite length_map.
Qed.

(** X27: the CSV holds the header and, per result, one row per finding or
    a single NO_NIGO row; a finding row has 9 cells (no score), a NO_NIGO
    row has the 10 cells of the header, and a failed analysis gives the
    NO_NIGO row with an empty title and the score 0. *)
Theorem csv_rows_shape results :
  length (csv_rows results)
  = 1 + sum_by (λ r, Nat.max 1 (length (default [] (nigo_risks_of r)))) results ∧
  Forall (λ r, Forall (λ row, length row = if nonempty (default [] (nigo_risks_of r))
                                           then 9 else length csv_header)
                 (result_rows r)) results ∧
  ∀ url e rid,
    result_rows (Failure url e rid) = [[""; url; ""; ""; ""; ""; ""; "NO_NIGO"; ""; "0"]].
Proof.
  split; [apply csv_rows_length|split].
  - apply Forall_forall. intros r _. unfold result_rows.
    destruct (default [] (nigo_risks_of r)) as [|g gs]; simpl nonempty; cbv iota.
    + by repeat constructor.
    + apply Forall_forall. intros row (g' & -> & _)%list_elem_of_fmap. done.
  - done.
Qed.

(** ** A batch *)

(** X28: a batch is never empty; with a URL given it is that URL alone;
    it yields one result per item, in order, each the analysis of its
    item, and the CSV of the batch has at least one row per item besides
    the header. *)
Theorem batch_one_result_per_item envs url inputs brand_map items :
  main_items url inputs = Ok items →
  let results := main_results envs items brand_map in
  items ≠ [] ∧ (url ≠ "" → items = [url]) ∧
  length results = length items ∧
  (∀ i item, items !! i = Some item →
             results !! i = Some (analyze_one (envs i) item brand_map)) ∧
  1 + length items ≤ length (csv_rows results).
Proof.
  intros Hm. cbv zeta.
  assert (items ≠ [] ∧ (url ≠ "" → items = [url])) as [H1 H2].
  { unfold main_items in Hm. cbv zeta in Hm. unfold Str.is_empty in Hm.
    case_bool_decide as E; simpl in Hm.
    - destruct (nonempty _) eqn:En; [|done]. injection Hm as <-.
      split; [by destruct inputs as [l|]; [destruct (load_inputs l)|]|done].
    - injection Hm as <-. done. }
  split; [done|]. split; [done|].
  unfold main_results. split; [by rewrite length_imap|]. split.
  - intros i item Hi. by rewrite list_lookup_imap, Hi.
  - rewrite csv_rows_length.
    apply le_n_S. rewrite <-(length_imap (λ i it, analyze_one (envs i) it brand_map) items).
    generalize (imap (λ i it, analyze_one (envs i) it brand_map) items).
    induction l as [|r rs IH]; simpl; lia.
Qed.

Lemma batch_witness :
  main_items "form.pdf" None = Ok ["form.pdf"] ∧
  length (main_results (λ _, Sample.serving "example.com" (Raised "unused")) ["form.pdf"]
            builtin_brands) = 1.
Proof.
  split; [reflexivity|].
  apply (batch_one_result_per_item (λ _, Sample.serving "example.com" (Raised "unused"))
           "form.pdf" None builtin_brands ["form.pdf"]). reflexivity.
Defined.

(** ** The XFA hint *)

Lemma starts_with_app p q l :
  Str.starts_with (p ++ q) l = true → Str.starts_with p l = true.
Proof.
  revert l. induction p as [|a p IH]; intros l; simpl; [done|].
  destruct l as [|b l]; [done|].
  intros [-> H]%andb_true_iff. by rewrite (IH _ H).
Qed.

Lemma contains_chars_prefix p q l :
  Str.contains_chars (p ++ q) l = true → Str.contains_chars p l = true.
Proof.
  induction l as [|b l IH]; cbn [Str.contains_chars].
  - rewrite !orb_false_r. apply starts_with_app.
  - intros [H|H]%orb_true_iff; apply orb_true_iff; [left|right].
    + by eapply starts_with_app.
    + by apply IH.
Qed.

(** X29: the XFA hint is the test for "xfa", "dynamic xdp" or
    "livecycle" in the lower-cased metadata and text: the key "xfa form"
    never decides it. *)
Theorem xfa_hint_redundant_key env text meta :
  let joined := Str.lower (json_dumps env meta +:+ NL +:+ text) in
  xfa_like_hint env text meta
  = Str.contains "xfa" joined || Str.contains "dynamic xdp" joined
    || Str.contains "livecycle" joined.
Proof.
  cbv zeta. unfold xfa_like_hint. cbv zeta. cbn [existsb].
  set (joined := Str.lower _).
  destruct (Str.contains "xfa" joined) eqn:E1; [done|].
  assert (Str.contains "xfa form" joined = false) as ->.
  { apply not_true_is_false. intros H. unfold Str.contains in *.
    change (Str.chars "xfa form") with (Str.chars "xfa" ++ Str.chars " form") in H.
    apply contains_chars_prefix in H. congruence. }
  by rewrite !orb_false_r, ?orb_false_l.
Qed.

(** ** Sample runs *)

Lemma nigo_order_witness :
  calculate_nigo_score [role_finding 1; third_party_finding ["Witness"]] ∅
  = calculate_nigo_score [third_party_finding ["Witness"]; role_finding 1] ∅.
Proof. apply nigo_score_order_independent. apply perm_swap. Defined.

Lemma complexity_monotone_witness :
  (calculate_complexity "" (plain_fields 60) 7 no_signatures None
   ≤ calculate_complexity "" (plain_fields 50) 5 no_signatures None)%Z.
Proof.
  apply complexity_monotone_and_saturating; right; [lia|vm_compute; lia].
Defined.
